(** * TwiSpider, [utilities/connection.py]: the pooled database connection

    A shallow embedding of the [Connection] class: the process-wide pool
    singleton with its capacity semaphore, the context-manager protocol
    ([__enter__] / [__exit__]), the raw connection factory ([__call__]) and
    the three SQL helpers ([sql_execute], [sql_execute_commit],
    [sql_execute_values]).

    Layout: the Python built-ins the module relies on ([Py]), the data model
    and the state-and-exception monad, the methods of the class, a small
    driver to run them on, the thread-interleaving semantics, then the
    lemmas and theorems. [get_connection_status], whose two call sites are
    commented out in the source, comes after the rest of the class. *)

From Stdlib Require Import ZArith String Ascii List Bool Lia.
From stdpp Require Import base option list strings gmap fin_maps relations.

Open Scope string_scope.
Open Scope Z_scope.
Open Scope list_scope.

(** ** Python built-ins *)
Module Py.

Definition squote : ascii := "039"%char.
Definition dquote : ascii := "034"%char.
Definition backslash : ascii := "092"%char.

Definition code (c : ascii) : nat := nat_of_ascii c.

(** the upper-case form of an ASCII letter *)
Definition upper_char (c : ascii) : ascii :=
  if ((97 <=? code c) && (code c <=? 122))%nat
  then ascii_of_nat (code c - 32) else c.

(** *** Text

    A [str] is carried as its UTF-8 encoding: one byte for an ASCII
    character, a lead byte followed by one to three continuation bytes for
    any other. Concatenation and the substring test on the bytes are those
    on the characters. *)
Definition is_continuation (c : ascii) : bool :=
  ((128 <=? code c) && (code c <? 192))%nat.

(** the number of bytes of the character whose first byte is [c] *)
Definition width (c : ascii) : nat :=
  if (code c <? 192)%nat then 1%nat
  else if (code c <? 224)%nat then 2%nat
  else if (code c <? 240)%nat then 3%nat
  else if (code c <? 248)%nat then 4%nat
  else 1%nat.

(** the next [n] bytes of [s], when they are continuation bytes *)
Fixpoint continuation (n : nat) (s : string) : option string :=
  match n with
  | O => Some ""
  | S n' =>
      match s with
      | String c s' =>
          if is_continuation c
          then match continuation n' s' with
               | Some t => Some (String c t)
               | None => None
               end
          else None
      | EmptyString => None
      end
  end.

(** the character at the head of [String c s'] *)
Definition head_char (c : ascii) (s' : string) : string :=
  match continuation (width c - 1) s' with
  | Some t => String c t
  | None => String c ""
  end.

(** the characters of a text, in order; [skip] bytes belong to the
    character before *)
Fixpoint chars_from (skip : nat) (s : string) : list string :=
  match s with
  | EmptyString => []
  | String c s' =>
      match skip with
      | S k => chars_from k s'
      | O => let ch := head_char c s' in ch :: chars_from (String.length ch - 1) s'
      end
  end.

Definition chars (s : string) : list string := chars_from 0 s.

Fixpoint cat (items : list string) : string :=
  match items with
  | [] => ""
  | x :: xs => x +:+ cat xs
  end.

Definition byte (c : ascii) : Z := Z.of_nat (code c).

(** [ord(ch)]: the code point of a character *)
Definition ord (ch : string) : Z :=
  match ch with
  | String a EmptyString => byte a
  | String a (String b EmptyString) => (byte a mod 32) * 64 + byte b mod 64
  | String a (String b (String c EmptyString)) =>
      (byte a mod 16) * 4096 + (byte b mod 64) * 64 + byte c mod 64
  | String a (String b (String c (String d EmptyString))) =>
      (byte a mod 8) * 262144 + (byte b mod 64) * 4096 + (byte c mod 64) * 64
      + byte d mod 64
  | _ => 0
  end.

Definition of_byte (z : Z) : ascii := ascii_of_nat (Z.to_nat z).

(** [chr(cp)] *)
Definition chr (cp : Z) : string :=
  if cp <? 128 then String (of_byte cp) ""
  else if cp <? 2048 then
    String (of_byte (192 + cp / 64)) (String (of_byte (128 + cp mod 64)) "")
  else if cp <? 65536 then
    String (of_byte (224 + cp / 4096))
      (String (of_byte (128 + (cp / 64) mod 64)) (String (of_byte (128 + cp mod 64)) ""))
  else
    String (of_byte (240 + cp / 262144))
      (String (of_byte (128 + (cp / 4096) mod 64))
         (String (of_byte (128 + (cp / 64) mod 64))
            (String (of_byte (128 + cp mod 64)) ""))).

(** *** [str.upper]

    The upper-case forms above ASCII, from the Unicode character database
    (version 14.0). A range [(first, last, step, shift)] maps every
    [step]-th code point from [first] to [last] to the one [shift] away;
    the code points of [upper_special] have an upper-case form of their
    own, of one or more characters. *)
Definition upper_ranges : list (Z * Z * Z * Z) :=
  [(181, 181, 1, 743); (224, 246, 1, -32); (248, 254, 1, -32); (255, 255, 1, 121);
   (257, 303, 2, -1); (305, 305, 1, -232); (307, 311, 2, -1); (314, 328, 2, -1);
   (331, 375, 2, -1); (378, 382, 2, -1); (383, 383, 1, -300); (384, 384, 1, 195);
   (387, 389, 2, -1); (392, 392, 1, -1); (396, 396, 1, -1); (402, 402, 1, -1);
   (405, 405, 1, 97); (409, 409, 1, -1); (410, 410, 1, 163); (414, 414, 1, 130);
   (417, 421, 2, -1); (424, 424, 1, -1); (429, 429, 1, -1); (432, 432, 1, -1);
   (436, 438, 2, -1); (441, 441, 1, -1); (445, 445, 1, -1); (447, 447, 1, 56);
   (453, 453, 1, -1); (454, 454, 1, -2); (456, 456, 1, -1); (457, 457, 1, -2);
   (459, 459, 1, -1); (460, 460, 1, -2); (462, 476, 2, -1); (477, 477, 1, -79);
   (479, 495, 2, -1); (498, 498, 1, -1); (499, 499, 1, -2); (501, 501, 1, -1);
   (505, 543, 2, -1); (547, 563, 2, -1); (572, 572, 1, -1); (575, 576, 1, 10815);
   (578, 578, 1, -1); (583, 591, 2, -1); (592, 592, 1, 10783); (593, 593, 1, 10780);
   (594, 594, 1, 10782); (595, 595, 1, -210); (596, 596, 1, -206); (598, 599, 1, -205);
   (601, 601, 1, -202); (603, 603, 1, -203); (604, 604, 1, 42319); (608, 608, 1, -205);
   (609, 609, 1, 42315); (611, 611, 1, -207); (613, 613, 1, 42280); (614, 614, 1, 42308);
   (616, 616, 1, -209); (617, 617, 1, -211); (618, 618, 1, 42308); (619, 619, 1, 10743);
   (620, 620, 1, 42305); (623, 623, 1, -211); (625, 625, 1, 10749); (626, 626, 1, -213);
   (629, 629, 1, -214); (637, 637, 1, 10727); (640, 640, 1, -218); (642, 642, 1, 42307);
   (643, 643, 1, -218); (647, 647, 1, 42282); (648, 648, 1, -218); (649, 649, 1, -69);
   (650, 651, 1, -217); (652, 652, 1, -71); (658, 658, 1, -219); (669, 669, 1, 42261);
   (670, 670, 1, 42258); (837, 837, 1, 84); (881, 883, 2, -1); (887, 887, 1, -1);
   (891, 893, 1, 130); (940, 940, 1, -38); (941, 943, 1, -37); (945, 961, 1, -32);
   (962, 962, 1, -31); (963, 971, 1, -32); (972, 972, 1, -64); (973, 974, 1, -63);
   (976, 976, 1, -62); (977, 977, 1, -57); (981, 981, 1, -47); (982, 982, 1, -54);
   (983, 983, 1, -8); (985, 1007, 2, -1); (1008, 1008, 1, -86); (1009, 1009, 1, -80);
   (1010, 1010, 1, 7); (1011, 1011, 1, -116); (1013, 1013, 1, -96); (1016, 1016, 1, -1);
   (1019, 1019, 1, -1); (1072, 1103, 1, -32); (1104, 1119, 1, -80); (1121, 1153, 2, -1);
   (1163, 1215, 2, -1); (1218, 1230, 2, -1); (1231, 1231, 1, -15); (1233, 1327, 2, -1);
   (1377, 1414, 1, -48); (4304, 4346, 1, 3008); (4349, 4351, 1, 3008); (5112, 5117, 1, -8);
   (7296, 7296, 1, -6254); (7297, 7297, 1, -6253); (7298, 7298, 1, -6244); (7299, 7300, 1, -6242);
   (7301, 7301, 1, -6243); (7302, 7302, 1, -6236); (7303, 7303, 1, -6181); (7304, 7304, 1, 35266);
   (7545, 7545, 1, 35332); (7549, 7549, 1, 3814); (7566, 7566, 1, 35384); (7681, 7829, 2, -1);
   (7835, 7835, 1, -59); (7841, 7935, 2, -1); (7936, 7943, 1, 8); (7952, 7957, 1, 8);
   (7968, 7975, 1, 8); (7984, 7991, 1, 8); (8000, 8005, 1, 8); (8017, 8023, 2, 8);
   (8032, 8039, 1, 8); (8048, 8049, 1, 74); (8050, 8053, 1, 86); (8054, 8055, 1, 100);
   (8056, 8057, 1, 128); (8058, 8059, 1, 112); (8060, 8061, 1, 126); (8112, 8113, 1, 8);
   (8126, 8126, 1, -7205); (8144, 8145, 1, 8); (8160, 8161, 1, 8); (8165, 8165, 1, 7);
   (8526, 8526, 1, -28); (8560, 8575, 1, -16); (8580, 8580, 1, -1); (9424, 9449, 1, -26);
   (11312, 11359, 1, -48); (11361, 11361, 1, -1); (11365, 11365, 1, -10795); (11366, 11366, 1, -10792);
   (11368, 11372, 2, -1); (11379, 11379, 1, -1); (11382, 11382, 1, -1); (11393, 11491, 2, -1);
   (11500, 11502, 2, -1); (11507, 11507, 1, -1); (11520, 11557, 1, -7264); (11559, 11559, 1, -7264);
   (11565, 11565, 1, -7264); (42561, 42605, 2, -1); (42625, 42651, 2, -1); (42787, 42799, 2, -1);
   (42803, 42863, 2, -1); (42874, 42876, 2, -1); (42879, 42887, 2, -1); (42892, 42892, 1, -1);
   (42897, 42899, 2, -1); (42900, 42900, 1, 48); (42903, 42921, 2, -1); (42933, 42947, 2, -1);
   (42952, 42954, 2, -1); (42961, 42961, 1, -1); (42967, 42969, 2, -1); (42998, 42998, 1, -1);
   (43859, 43859, 1, -928); (43888, 43967, 1, -38864); (65345, 65370, 1, -32); (66600, 66639, 1, -40);
   (66776, 66811, 1, -40); (66967, 67003, 2, -39); (66968, 66976, 2, -39); (66980, 66992, 2, -39);
   (66996, 67000, 2, -39); (67004, 67004, 1, -39); (68800, 68850, 1, -64); (71872, 71903, 1, -32);
   (93792, 93823, 1, -32); (125218, 125251, 1, -34)].

Definition upper_special : list (Z * list Z) :=
  [(223, [83; 83]); (329, [700; 78]); (496, [74; 780]); (912, [921; 776; 769]);
   (944, [933; 776; 769]); (1415, [1333; 1362]); (7830, [72; 817]); (7831, [84; 776]);
   (7832, [87; 778]); (7833, [89; 778]); (7834, [65; 702]); (8016, [933; 787]);
   (8018, [933; 787; 768]); (8020, [933; 787; 769]); (8022, [933; 787; 834]); (8064, [7944; 921]);
   (8065, [7945; 921]); (8066, [7946; 921]); (8067, [7947; 921]); (8068, [7948; 921]);
   (8069, [7949; 921]); (8070, [7950; 921]); (8071, [7951; 921]); (8072, [7944; 921]);
   (8073, [7945; 921]); (8074, [7946; 921]); (8075, [7947; 921]); (8076, [7948; 921]);
   (8077, [7949; 921]); (8078, [7950; 921]); (8079, [7951; 921]); (8080, [7976; 921]);
   (8081, [7977; 921]); (8082, [7978; 921]); (8083, [7979; 921]); (8084, [7980; 921]);
   (8085, [7981; 921]); (8086, [7982; 921]); (8087, [7983; 921]); (8088, [7976; 921]);
   (8089, [7977; 921]); (8090, [7978; 921]); (8091, [7979; 921]); (8092, [7980; 921]);
   (8093, [7981; 921]); (8094, [7982; 921]); (8095, [7983; 921]); (8096, [8040; 921]);
   (8097, [8041; 921]); (8098, [8042; 921]); (8099, [8043; 921]); (8100, [8044; 921]);
   (8101, [8045; 921]); (8102, [8046; 921]); (8103, [8047; 921]); (8104, [8040; 921]);
   (8105, [8041; 921]); (8106, [8042; 921]); (8107, [8043; 921]); (8108, [8044; 921]);
   (8109, [8045; 921]); (8110, [8046; 921]); (8111, [8047; 921]); (8114, [8122; 921]);
   (8115, [913; 921]); (8116, [902; 921]); (8118, [913; 834]); (8119, [913; 834; 921]);
   (8124, [913; 921]); (8130, [8138; 921]); (8131, [919; 921]); (8132, [905; 921]);
   (8134, [919; 834]); (8135, [919; 834; 921]); (8140, [919; 921]); (8146, [921; 776; 768]);
   (8147, [921; 776; 769]); (8150, [921; 834]); (8151, [921; 776; 834]); (8162, [933; 776; 768]);
   (8163, [933; 776; 769]); (8164, [929; 787]); (8166, [933; 834]); (8167, [933; 776; 834]);
   (8178, [8186; 921]); (8179, [937; 921]); (8180, [911; 921]); (8182, [937; 834]);
   (8183, [937; 834; 921]); (8188, [937; 921]); (64256, [70; 70]); (64257, [70; 73]);
   (64258, [70; 76]); (64259, [70; 70; 73]); (64260, [70; 70; 76]); (64261, [83; 84]);
   (64262, [83; 84]); (64275, [1348; 1350]); (64276, [1348; 1333]); (64277, [1348; 1339]);
   (64278, [1358; 1350]); (64279, [1348; 1341])].

Definition in_range (cp : Z) (r : Z * Z * Z * Z) : bool :=
  let '(first, last, step, _) := r in
  (first <=? cp) && (cp <=? last) && ((cp - first) mod step =? 0).

(** [ch.upper()] for one character *)
Definition upper_of (ch : string) : string :=
  match ch with
  | String c EmptyString => String (upper_char c) ""
  | _ =>
      let cp := ord ch in
      match List.find (λ e, fst e =? cp) upper_special with
      | Some (_, form) => cat (map chr form)
      | None =>
          match List.find (in_range cp) upper_ranges with
          | Some (_, _, _, shift) => chr (cp + shift)
          | None => ch
          end
      end
  end.

(** [s.upper()] *)
Definition upper (s : string) : string := cat (map upper_of (chars s)).

(** [needle in s] on strings: [needle] occurs as a substring of [s] *)
Fixpoint contains (needle s : string) : bool :=
  String.prefix needle s ||
  match s with
  | EmptyString => false
  | String _ s' => contains needle s'
  end.

(** [any(bs)] on a list of booleans *)
Definition any (bs : list bool) : bool := existsb id bs.

(** [sep.join(items)] *)
Fixpoint join (sep : string) (items : list string) : string :=
  match items with
  | [] => ""
  | [x] => x
  | x :: xs => x +:+ sep +:+ join sep xs
  end.

(** truth value of a string: non-empty *)
Definition truthy (s : string) : bool :=
  match s with EmptyString => false | _ => true end.

(** *** Values found in a row

    The rows covered hold [None], booleans, integers, text and naive
    [datetime]s. *)

(** a naive [datetime]: its [tzinfo] is [None] *)
Record datetime := mk_datetime {
  year : nat; month : nat; day : nat;
  hour : nat; minute : nat; second : nat; microsecond : nat }.

Inductive value :=
| PyNone
| PyBool (b : bool)
| PyInt (z : Z)
| PyStr (s : string)
| PyDatetime (d : datetime).

(** [isinstance(entry, datetime)] *)
Definition isinstance_datetime (v : value) : bool :=
  match v with PyDatetime _ => true | _ => false end.

Definition digit_char (n : nat) : ascii := ascii_of_nat (48 + n mod 10).

Fixpoint dec_go (fuel n : nat) (acc : string) : string :=
  match fuel with
  | O => acc
  | S fuel' =>
      let acc' := String (digit_char n) acc in
      if (n <? 10)%nat then acc' else dec_go fuel' (n / 10) acc'
  end.

(** decimal digits of a natural number, no leading zero *)
Definition dec (n : nat) : string := dec_go (S n) n "".

(** [repr] and [str] of an [int] *)
Definition repr_int (z : Z) : string :=
  if z <? 0 then "-" +:+ dec (Z.to_nat (- z)) else dec (Z.to_nat z).

Fixpoint zeros (n : nat) : string :=
  match n with O => "" | S n' => String "0"%char (zeros n') end.

(** ["%0<w>d" % n] *)
Definition pad (w n : nat) : string :=
  let d := dec n in zeros (w - String.length d) +:+ d.

Definition hex_char (n : nat) : ascii :=
  if (n <? 10)%nat then ascii_of_nat (48 + n) else ascii_of_nat (87 + n).

(** [n] hexadecimal digits of [z], the most significant first *)
Fixpoint hex (n : nat) (z : Z) : string :=
  match n with
  | O => ""
  | S n' => hex n' (z / 16) +:+ String (hex_char (Z.to_nat (z mod 16))) ""
  end.

(** one ASCII character of the [repr] of a [str], inside [quote]s *)
Definition repr_char (quote c : ascii) : string :=
  if bool_decide (c = quote) || bool_decide (c = backslash)
  then String backslash (String c "")
  else if (code c =? 9)%nat then String backslash "t"
  else if (code c =? 10)%nat then String backslash "n"
  else if (code c =? 13)%nat then String backslash "r"
  else if ((code c <? 32) || (code c =? 127))%nat
  then String backslash
         (String "x"%char
            (String (hex_char (code c / 16))
               (String (hex_char (code c mod 16)) "")))
  else String c "".

(** The code points above ASCII that [repr] escapes: those that
    [str.isprintable] refuses, from the Unicode character database
    (version 14.0), as ranges [(first, last)]. *)
Definition unprintable : list (Z * Z) :=
  [(128, 160); (173, 173); (888, 889); (896, 899); (907, 907); (909, 909);
   (930, 930); (1328, 1328); (1367, 1368); (1419, 1420); (1424, 1424); (1480, 1487);
   (1515, 1518); (1525, 1541); (1564, 1564); (1757, 1757); (1806, 1807); (1867, 1868);
   (1970, 1983); (2043, 2044); (2094, 2095); (2111, 2111); (2140, 2141); (2143, 2143);
   (2155, 2159); (2191, 2199); (2274, 2274); (2436, 2436); (2445, 2446); (2449, 2450);
   (2473, 2473); (2481, 2481); (2483, 2485); (2490, 2491); (2501, 2502); (2505, 2506);
   (2511, 2518); (2520, 2523); (2526, 2526); (2532, 2533); (2559, 2560); (2564, 2564);
   (2571, 2574); (2577, 2578); (2601, 2601); (2609, 2609); (2612, 2612); (2615, 2615);
   (2618, 2619); (2621, 2621); (2627, 2630); (2633, 2634); (2638, 2640); (2642, 2648);
   (2653, 2653); (2655, 2661); (2679, 2688); (2692, 2692); (2702, 2702); (2706, 2706);
   (2729, 2729); (2737, 2737); (2740, 2740); (2746, 2747); (2758, 2758); (2762, 2762);
   (2766, 2767); (2769, 2783); (2788, 2789); (2802, 2808); (2816, 2816); (2820, 2820);
   (2829, 2830); (2833, 2834); (2857, 2857); (2865, 2865); (2868, 2868); (2874, 2875);
   (2885, 2886); (2889, 2890); (2894, 2900); (2904, 2907); (2910, 2910); (2916, 2917);
   (2936, 2945); (2948, 2948); (2955, 2957); (2961, 2961); (2966, 2968); (2971, 2971);
   (2973, 2973); (2976, 2978); (2981, 2983); (2987, 2989); (3002, 3005); (3011, 3013);
   (3017, 3017); (3022, 3023); (3025, 3030); (3032, 3045); (3067, 3071); (3085, 3085);
   (3089, 3089); (3113, 3113); (3130, 3131); (3141, 3141); (3145, 3145); (3150, 3156);
   (3159, 3159); (3163, 3164); (3166, 3167); (3172, 3173); (3184, 3190); (3213, 3213);
   (3217, 3217); (3241, 3241); (3252, 3252); (3258, 3259); (3269, 3269); (3273, 3273);
   (3278, 3284); (3287, 3292); (3295, 3295); (3300, 3301); (3312, 3312); (3315, 3327);
   (3341, 3341); (3345, 3345); (3397, 3397); (3401, 3401); (3408, 3411); (3428, 3429);
   (3456, 3456); (3460, 3460); (3479, 3481); (3506, 3506); (3516, 3516); (3518, 3519);
   (3527, 3529); (3531, 3534); (3541, 3541); (3543, 3543); (3552, 3557); (3568, 3569);
   (3573, 3584); (3643, 3646); (3676, 3712); (3715, 3715); (3717, 3717); (3723, 3723);
   (3748, 3748); (3750, 3750); (3774, 3775); (3781, 3781); (3783, 3783); (3790, 3791);
   (3802, 3803); (3808, 3839); (3912, 3912); (3949, 3952); (3992, 3992); (4029, 4029);
   (4045, 4045); (4059, 4095); (4294, 4294); (4296, 4300); (4302, 4303); (4681, 4681);
   (4686, 4687); (4695, 4695); (4697, 4697); (4702, 4703); (4745, 4745); (4750, 4751);
   (4785, 4785); (4790, 4791); (4799, 4799); (4801, 4801); (4806, 4807); (4823, 4823);
   (4881, 4881); (4886, 4887); (4955, 4956); (4989, 4991); (5018, 5023); (5110, 5111);
   (5118, 5119); (5760, 5760); (5789, 5791); (5881, 5887); (5910, 5918); (5943, 5951);
   (5972, 5983); (5997, 5997); (6001, 6001); (6004, 6015); (6110, 6111); (6122, 6127);
   (6138, 6143); (6158, 6158); (6170, 6175); (6265, 6271); (6315, 6319); (6390, 6399);
   (6431, 6431); (6444, 6447); (6460, 6463); (6465, 6467); (6510, 6511); (6517, 6527);
   (6572, 6575); (6602, 6607); (6619, 6621); (6684, 6685); (6751, 6751); (6781, 6782);
   (6794, 6799); (6810, 6815); (6830, 6831); (6863, 6911); (6989, 6991); (7039, 7039);
   (7156, 7163); (7224, 7226); (7242, 7244); (7305, 7311); (7355, 7356); (7368, 7375);
   (7419, 7423); (7958, 7959); (7966, 7967); (8006, 8007); (8014, 8015); (8024, 8024);
   (8026, 8026); (8028, 8028); (8030, 8030); (8062, 8063); (8117, 8117); (8133, 8133);
   (8148, 8149); (8156, 8156); (8176, 8177); (8181, 8181); (8191, 8207); (8232, 8239);
   (8287, 8303); (8306, 8307); (8335, 8335); (8349, 8351); (8385, 8399); (8433, 8447);
   (8588, 8591); (9255, 9279); (9291, 9311); (11124, 11125); (11158, 11158); (11508, 11512);
   (11558, 11558); (11560, 11564); (11566, 11567); (11624, 11630); (11633, 11646); (11671, 11679);
   (11687, 11687); (11695, 11695); (11703, 11703); (11711, 11711); (11719, 11719); (11727, 11727);
   (11735, 11735); (11743, 11743); (11870, 11903); (11930, 11930); (12020, 12031); (12246, 12271);
   (12284, 12288); (12352, 12352); (12439, 12440); (12544, 12548); (12592, 12592); (12687, 12687);
   (12772, 12783); (12831, 12831); (42125, 42127); (42183, 42191); (42540, 42559); (42744, 42751);
   (42955, 42959); (42962, 42962); (42964, 42964); (42970, 42993); (43053, 43055); (43066, 43071);
   (43128, 43135); (43206, 43213); (43226, 43231); (43348, 43358); (43389, 43391); (43470, 43470);
   (43482, 43485); (43519, 43519); (43575, 43583); (43598, 43599); (43610, 43611); (43715, 43738);
   (43767, 43776); (43783, 43784); (43791, 43792); (43799, 43807); (43815, 43815); (43823, 43823);
   (43884, 43887); (44014, 44015); (44026, 44031); (55204, 55215); (55239, 55242); (55292, 63743);
   (64110, 64111); (64218, 64255); (64263, 64274); (64280, 64284); (64311, 64311); (64317, 64317);
   (64319, 64319); (64322, 64322); (64325, 64325); (64451, 64466); (64912, 64913); (64968, 64974);
   (64976, 65007); (65050, 65055); (65107, 65107); (65127, 65127); (65132, 65135); (65141, 65141);
   (65277, 65280); (65471, 65473); (65480, 65481); (65488, 65489); (65496, 65497); (65501, 65503);
   (65511, 65511); (65519, 65531); (65534, 65535); (65548, 65548); (65575, 65575); (65595, 65595);
   (65598, 65598); (65614, 65615); (65630, 65663); (65787, 65791); (65795, 65798); (65844, 65846);
   (65935, 65935); (65949, 65951); (65953, 65999); (66046, 66175); (66205, 66207); (66257, 66271);
   (66300, 66303); (66340, 66348); (66379, 66383); (66427, 66431); (66462, 66462); (66500, 66503);
   (66518, 66559); (66718, 66719); (66730, 66735); (66772, 66775); (66812, 66815); (66856, 66863);
   (66916, 66926); (66939, 66939); (66955, 66955); (66963, 66963); (66966, 66966); (66978, 66978);
   (66994, 66994); (67002, 67002); (67005, 67071); (67383, 67391); (67414, 67423); (67432, 67455);
   (67462, 67462); (67505, 67505); (67515, 67583); (67590, 67591); (67593, 67593); (67638, 67638);
   (67641, 67643); (67645, 67646); (67670, 67670); (67743, 67750); (67760, 67807); (67827, 67827);
   (67830, 67834); (67868, 67870); (67898, 67902); (67904, 67967); (68024, 68027); (68048, 68049);
   (68100, 68100); (68103, 68107); (68116, 68116); (68120, 68120); (68150, 68151); (68155, 68158);
   (68169, 68175); (68185, 68191); (68256, 68287); (68327, 68330); (68343, 68351); (68406, 68408);
   (68438, 68439); (68467, 68471); (68498, 68504); (68509, 68520); (68528, 68607); (68681, 68735);
   (68787, 68799); (68851, 68857); (68904, 68911); (68922, 69215); (69247, 69247); (69290, 69290);
   (69294, 69295); (69298, 69375); (69416, 69423); (69466, 69487); (69514, 69551); (69580, 69599);
   (69623, 69631); (69710, 69713); (69750, 69758); (69821, 69821); (69827, 69839); (69865, 69871);
   (69882, 69887); (69941, 69941); (69960, 69967); (70007, 70015); (70112, 70112); (70133, 70143);
   (70162, 70162); (70207, 70271); (70279, 70279); (70281, 70281); (70286, 70286); (70302, 70302);
   (70314, 70319); (70379, 70383); (70394, 70399); (70404, 70404); (70413, 70414); (70417, 70418);
   (70441, 70441); (70449, 70449); (70452, 70452); (70458, 70458); (70469, 70470); (70473, 70474);
   (70478, 70479); (70481, 70486); (70488, 70492); (70500, 70501); (70509, 70511); (70517, 70655);
   (70748, 70748); (70754, 70783); (70856, 70863); (70874, 71039); (71094, 71095); (71134, 71167);
   (71237, 71247); (71258, 71263); (71277, 71295); (71354, 71359); (71370, 71423); (71451, 71452);
   (71468, 71471); (71495, 71679); (71740, 71839); (71923, 71934); (71943, 71944); (71946, 71947);
   (71956, 71956); (71959, 71959); (71990, 71990); (71993, 71994); (72007, 72015); (72026, 72095);
   (72104, 72105); (72152, 72153); (72165, 72191); (72264, 72271); (72355, 72367); (72441, 72703);
   (72713, 72713); (72759, 72759); (72774, 72783); (72813, 72815); (72848, 72849); (72872, 72872);
   (72887, 72959); (72967, 72967); (72970, 72970); (73015, 73017); (73019, 73019); (73022, 73022);
   (73032, 73039); (73050, 73055); (73062, 73062); (73065, 73065); (73103, 73103); (73106, 73106);
   (73113, 73119); (73130, 73439); (73465, 73647); (73649, 73663); (73714, 73726); (74650, 74751);
   (74863, 74863); (74869, 74879); (75076, 77711); (77811, 77823); (78895, 82943); (83527, 92159);
   (92729, 92735); (92767, 92767); (92778, 92781); (92863, 92863); (92874, 92879); (92910, 92911);
   (92918, 92927); (92998, 93007); (93018, 93018); (93026, 93026); (93048, 93052); (93072, 93759);
   (93851, 93951); (94027, 94030); (94088, 94094); (94112, 94175); (94181, 94191); (94194, 94207);
   (100344, 100351); (101590, 101631); (101641, 110575); (110580, 110580); (110588, 110588); (110591, 110591);
   (110883, 110927); (110931, 110947); (110952, 110959); (111356, 113663); (113771, 113775); (113789, 113791);
   (113801, 113807); (113818, 113819); (113824, 118527); (118574, 118575); (118599, 118607); (118724, 118783);
   (119030, 119039); (119079, 119080); (119155, 119162); (119275, 119295); (119366, 119519); (119540, 119551);
   (119639, 119647); (119673, 119807); (119893, 119893); (119965, 119965); (119968, 119969); (119971, 119972);
   (119975, 119976); (119981, 119981); (119994, 119994); (119996, 119996); (120004, 120004); (120070, 120070);
   (120075, 120076); (120085, 120085); (120093, 120093); (120122, 120122); (120127, 120127); (120133, 120133);
   (120135, 120137); (120145, 120145); (120486, 120487); (120780, 120781); (121484, 121498); (121504, 121504);
   (121520, 122623); (122655, 122879); (122887, 122887); (122905, 122906); (122914, 122914); (122917, 122917);
   (122923, 123135); (123181, 123183); (123198, 123199); (123210, 123213); (123216, 123535); (123567, 123583);
   (123642, 123646); (123648, 124895); (124903, 124903); (124908, 124908); (124911, 124911); (124927, 124927);
   (125125, 125126); (125143, 125183); (125260, 125263); (125274, 125277); (125280, 126064); (126133, 126208);
   (126270, 126463); (126468, 126468); (126496, 126496); (126499, 126499); (126501, 126502); (126504, 126504);
   (126515, 126515); (126520, 126520); (126522, 126522); (126524, 126529); (126531, 126534); (126536, 126536);
   (126538, 126538); (126540, 126540); (126544, 126544); (126547, 126547); (126549, 126550); (126552, 126552);
   (126554, 126554); (126556, 126556); (126558, 126558); (126560, 126560); (126563, 126563); (126565, 126566);
   (126571, 126571); (126579, 126579); (126584, 126584); (126589, 126589); (126591, 126591); (126602, 126602);
   (126620, 126624); (126628, 126628); (126634, 126634); (126652, 126703); (126706, 126975); (127020, 127023);
   (127124, 127135); (127151, 127152); (127168, 127168); (127184, 127184); (127222, 127231); (127406, 127461);
   (127491, 127503); (127548, 127551); (127561, 127567); (127570, 127583); (127590, 127743); (128728, 128732);
   (128749, 128751); (128765, 128767); (128884, 128895); (128985, 128991); (129004, 129007); (129009, 129023);
   (129036, 129039); (129096, 129103); (129114, 129119); (129160, 129167); (129198, 129199); (129202, 129279);
   (129620, 129631); (129646, 129647); (129653, 129655); (129661, 129663); (129671, 129679); (129709, 129711);
   (129723, 129727); (129734, 129743); (129754, 129759); (129768, 129775); (129783, 129791); (129939, 129939);
   (129995, 130031); (130042, 131071); (173792, 173823); (177977, 177983); (178206, 178207); (183970, 183983);
   (191457, 194559); (195102, 196607); (201547, 917759); (918000, 1114111)].

Definition is_printable (cp : Z) : bool :=
  negb (existsb (λ r, (fst r <=? cp) && (cp <=? snd r)) unprintable).

(** one character of the [repr] of a [str], inside [quote]s *)
Definition repr_of (quote : ascii) (ch : string) : string :=
  match ch with
  | String c EmptyString => repr_char quote c
  | _ =>
      let cp := ord ch in
      if is_printable cp then ch
      else if cp <? 256 then String backslash (String "x"%char (hex 2 cp))
      else if cp <? 65536 then String backslash (String "u"%char (hex 4 cp))
      else String backslash (String "U"%char (hex 8 cp))
  end.

Definition repr_chars (quote : ascii) (s : string) : string :=
  cat (map (repr_of quote) (chars s)).

(** [repr] of a [str]: single quotes, unless the text has a single quote
    and no double quote *)
Definition repr_str (s : string) : string :=
  let quote :=
    if contains (String squote "") s && negb (contains (String dquote "") s)
    then dquote else squote in
  String quote (repr_chars quote s +:+ String quote "").

(** [str] of a naive [datetime]: ISO format with a space separator *)
Definition str_datetime (d : datetime) : string :=
  pad 4 (year d) +:+ "-" +:+ pad 2 (month d) +:+ "-" +:+ pad 2 (day d)
  +:+ " " +:+ pad 2 (hour d) +:+ ":" +:+ pad 2 (minute d)
  +:+ ":" +:+ pad 2 (second d)
  +:+ (if (microsecond d =? 0)%nat then "" else "." +:+ pad 6 (microsecond d)).

Definition repr_datetime (d : datetime) : string :=
  "datetime.datetime(" +:+
  join ", "
    (map dec
       ([year d; month d; day d; hour d; minute d] ++
        (if (microsecond d =? 0)%nat
         then (if (second d =? 0)%nat then [] else [second d])
         else [second d; microsecond d])))
  +:+ ")".

Definition str (v : value) : string :=
  match v with
  | PyNone => "None"
  | PyBool b => if b then "True" else "False"
  | PyInt z => repr_int z
  | PyStr s => s
  | PyDatetime d => str_datetime d
  end.

Definition repr (v : value) : string :=
  match v with
  | PyNone => "None"
  | PyBool b => if b then "True" else "False"
  | PyInt z => repr_int z
  | PyStr s => repr_str s
  | PyDatetime d => repr_datetime d
  end.

(** *** [int(text)]

    A decimal digit of any script counts as its value and white space of
    any script as a blank; the digits and blanks above ASCII are those of
    the Unicode character database (version 14.0). *)

(** the digit zero of every script; its nine successors are the digits
    one to nine *)
Definition decimal_zeros : list Z :=
  [48; 1632; 1776; 1984; 2406; 2534; 2662; 2790; 2918; 3046;
   3174; 3302; 3430; 3558; 3664; 3792; 3872; 4160; 4240; 6112;
   6160; 6470; 6608; 6784; 6800; 6992; 7088; 7232; 7248; 42528;
   43216; 43264; 43472; 43504; 43600; 44016; 65296; 66720; 68912; 69734;
   69872; 69942; 70096; 70384; 70736; 70864; 71248; 71360; 71472; 71904;
   72016; 72784; 73040; 73120; 92768; 92864; 93008; 120782; 120792; 120802;
   120812; 120822; 123200; 123632; 125264; 130032].

(** white space above ASCII *)
Definition unicode_spaces : list Z :=
  [133; 160; 5760; 8192; 8193; 8194; 8195; 8196; 8197; 8198;
   8199; 8200; 8201; 8202; 8232; 8233; 8239; 8287; 12288].

(** the value of a decimal digit *)
Definition decimal (cp : Z) : option Z :=
  match List.find (λ zero, (zero <=? cp) && (cp <? zero + 10)) decimal_zeros with
  | Some zero => Some (cp - zero)
  | None => None
  end.

(** what [int] reads a character as: an ASCII character as itself, a
    blank as a space, a digit as the ASCII digit, anything else as a
    character that no number has *)
Definition as_ascii (ch : string) : ascii :=
  match ch with
  | String c EmptyString => if (code c <? 128)%nat then c else "?"%char
  | _ =>
      let cp := ord ch in
      if existsb (Z.eqb cp) unicode_spaces then " "%char
      else match decimal cp with
           | Some d => of_byte (48 + d)
           | None => "?"%char
           end
  end.

(** the blanks that [int] skips before and after the number: tab to
    carriage return, and the space *)
Definition is_blank (c : ascii) : bool :=
  (((9 <=? code c) && (code c <=? 13)) || (code c =? 32))%nat.

Fixpoint skip_blanks (s : string) : string :=
  match s with
  | EmptyString => EmptyString
  | String c s' => if is_blank c then skip_blanks s' else s
  end.

Definition trim (s : string) : string :=
  String.rev (skip_blanks (String.rev (skip_blanks s))).

Definition digit_of (c : ascii) : option Z :=
  if ((48 <=? code c) && (code c <=? 57))%nat
  then Some (Z.of_nat (code c - 48)) else None.

(** digits, with single underscores allowed between two digits *)
Fixpoint int_digits (s : string) (acc : Z) (after_digit : bool) : option Z :=
  match s with
  | EmptyString => if after_digit then Some acc else None
  | String c s' =>
      match digit_of c with
      | Some d => int_digits s' (10 * acc + d) true
      | None =>
          if bool_decide (c = "_"%char) && after_digit
          then int_digits s' acc false
          else None
      end
  end.

Fixpoint count_digits (s : string) : nat :=
  match s with
  | EmptyString => O
  | String c s' => ((match digit_of c with Some _ => 1 | None => 0 end) + count_digits s')%nat
  end.

(** the digits after the sign; more than 4300 of them are refused *)
Definition int_unsigned (s : string) : option Z :=
  if (4300 <? count_digits s)%nat then None else int_digits s 0 false.

Fixpoint of_list (cs : list ascii) : string :=
  match cs with
  | [] => ""
  | c :: cs' => String c (of_list cs')
  end.

(** [int(text)]: [None] stands for [ValueError] *)
Definition int (text : string) : option Z :=
  match trim (of_list (map as_ascii (chars text))) with
  | String "-" s' => Z.opp <$> int_unsigned s'
  | String "+" s' => int_unsigned s'
  | s => int_unsigned s
  end.

End Py.

(** ** Data model *)

(** The [postgresql] section of the configuration file, and keyword
    arguments in general: a dictionary from names to text. *)
Abbreviation params := (gmap string string).

(** Identity of a connection object handed out by the driver. *)
Definition connection := nat.

Definition row := list Py.value.

Inductive exn :=
| TypeError (msg : string)
| ValueError (msg : string)
| AttributeError (msg : string)
| PoolError (msg : string)
| DriverError (msg : string).

Definition result (A : Type) : Type := exn + A.

Inductive level := INFO | ERROR.

(** What the module asks of its collaborators, in program order. *)
Inductive event :=
| EvPoolNew (kwargs : params)
| EvSemaphoreNew (value : Z)
| EvAcquire
| EvRelease
| EvGetconn
| EvPutconn (c : option connection)
| EvConnect (args : list Py.value) (kwargs : params)
| EvCursor (c : connection)
| EvExecute (c : connection) (sql : string)
| EvFetchall (c : connection)
| EvCommit (c : connection)
| EvCursorClose (c : connection)
| EvLog (lvl : level) (msg : string).

(** [threading.Semaphore]: a counter of free permits. *)
Record Semaphore := mkSemaphore { sem_id : nat; sem_value : nat }.

(** [psycopg2.pool.ThreadedConnectionPool], as far as the module sees it:
    the connections currently checked out. *)
Record ThreadedConnectionPool := mkPool { pool_id : nat; pool_used : list connection }.

(** A [Connection] instance. *)
Record Connection := mkConnection { conn : option connection }.

(** The iterator returned by [iter(rows)]. *)
Record Iterator := iter { pending : list row }.

Definition next (it : Iterator) : option (row * Iterator) :=
  match pending it with
  | [] => None
  | r :: rs => Some (r, iter rs)
  end.

(** [for row in it]: every row still pending, in order; the iterator is
    left exhausted *)
Fixpoint drain (fuel : nat) (it : Iterator) : list row * Iterator :=
  match fuel with
  | O => ([], it)
  | S fuel' =>
      match next it with
      | None => ([], it)
      | Some (r, it') => let '(rs, it'') := drain fuel' it' in (r :: rs, it'')
      end
  end.

(** The database driver and server: everything outside the module. Each
    call may raise, and moves the outside state [Ext]. *)
Class Driver (Ext : Type) := {
  drv_pool_new : params → Ext → result unit * Ext;
  drv_getconn : Ext → result connection * Ext;
  drv_connect : list Py.value → params → Ext → result connection * Ext;
  drv_cursor : connection → Ext → result unit * Ext;
  drv_execute : connection → string → Ext → result unit * Ext;
  drv_fetchall : connection → Ext → result (list row) * Ext;
  drv_commit : connection → Ext → result unit * Ext;
  drv_cursor_close : connection → Ext → result unit * Ext
}.

(** The process: the class attributes [_pool] and [_sem_remaining], the
    lock that [synchronized] attaches to [__init__], the configuration
    file, and the history of calls. [built] counts the pool and semaphore
    objects constructed so far and gives each its identity. *)
Record World (Ext : Type) := mkWorld {
  ini : params;
  _pool : option ThreadedConnectionPool;
  _sem_remaining : option Semaphore;
  lock : bool;
  built : nat;
  ext : Ext;
  trace : list event
}.
Arguments mkWorld {Ext}.
Arguments ini {Ext}.
Arguments _pool {Ext}.
Arguments _sem_remaining {Ext}.
Arguments lock {Ext}.
Arguments built {Ext}.
Arguments ext {Ext}.
Arguments trace {Ext}.

(** ** The monad: state, exceptions, and waiting *)

Inductive outcome (A : Type) :=
| Returned (a : A)
| Raised (e : exn)
| Blocked.
Arguments Returned {A}.
Arguments Raised {A}.
Arguments Blocked {A}.

Definition M (Ext A : Type) : Type := World Ext → outcome A * World Ext.

Definition ret {Ext A} (a : A) : M Ext A := λ w, (Returned a, w).

Definition raise {Ext A} (e : exn) : M Ext A := λ w, (Raised e, w).

Definition bind {Ext A B} (m : M Ext A) (k : A → M Ext B) : M Ext B :=
  λ w, match m w with
       | (Returned a, w') => k a w'
       | (Raised e, w') => (Raised e, w')
       | (Blocked, w') => (Blocked, w')
       end.

Declare Scope py_scope.
Delimit Scope py_scope with py.
Notation "'let*' x ':=' m 'in' k" := (bind m (λ x, k))
  (at level 10, x pattern, m at level 100, k at level 200) : py_scope.
Notation "m '>>' k" := (bind m (λ _, k))
  (at level 100, k at level 200, right associativity) : py_scope.
Open Scope py_scope.

Section Methods.
Context {Ext : Type} {drv : Driver Ext}.

Abbreviation M := (M Ext).
Abbreviation World := (World Ext).

Definition set_pool (p : option ThreadedConnectionPool) : M unit := λ w,
  (Returned tt, mkWorld (ini w) p (_sem_remaining w) (lock w) (built w) (ext w) (trace w)).

Definition set_sem_remaining (s : option Semaphore) : M unit := λ w,
  (Returned tt, mkWorld (ini w) (_pool w) s (lock w) (built w) (ext w) (trace w)).

Definition set_lock (b : bool) : M unit := λ w,
  (Returned tt, mkWorld (ini w) (_pool w) (_sem_remaining w) b (built w) (ext w) (trace w)).

(** a new object identity *)
Definition allocate : M nat := λ w,
  (Returned (built w),
   mkWorld (ini w) (_pool w) (_sem_remaining w) (lock w) (S (built w)) (ext w) (trace w)).

Definition emit (ev : event) : M unit := λ w,
  (Returned tt,
   mkWorld (ini w) (_pool w) (_sem_remaining w) (lock w) (built w) (ext w) (trace w ++ [ev])).

(** a call into the driver *)
Definition call {A} (ev : event) (f : Ext → result A * Ext) : M A := λ w,
  let '(r, x) := f (ext w) in
  (match r with inl e => Raised e | inr a => Returned a end,
   mkWorld (ini w) (_pool w) (_sem_remaining w) (lock w) (built w) x (trace w ++ [ev])).

(** [logger.info], [logger.error] *)
Definition log (lvl : level) (msg : string) : M unit := emit (EvLog lvl msg).

(** *** [threading.Lock] and the [synchronized] decorator *)

Definition lock_acquire : M unit := λ w,
  if lock w then (Blocked, w) else set_lock true w.

Definition lock_release : M unit := set_lock false.

(** [with func.__lock__: return func(...)]: the lock is released on the
    way out, whether [func] returned or raised. *)
Definition synchronized {A} (func : M A) : M A :=
  lock_acquire >>
  λ w, match func w with
       | (Returned a, w') => (lock_release >> ret a) w'
       | (Raised e, w') => (lock_release >> raise e) w'
       | (Blocked, w') => (Blocked, w')
       end.

(** *** [threading.Semaphore] *)

(** [threading.Semaphore(value)] *)
Definition Semaphore_new (value : Z) : M Semaphore :=
  emit (EvSemaphoreNew value) >>
  if value <? 0 then raise (ValueError "semaphore initial value must be >= 0")
  else let* i := allocate in ret (mkSemaphore i (Z.to_nat value)).

(** [Connection._sem_remaining.acquire(blocking=True)] *)
Definition sem_acquire : M unit := λ w,
  match _sem_remaining w with
  | None => (Raised (AttributeError "'NoneType' object has no attribute 'acquire'"), w)
  | Some s =>
      match sem_value s with
      | O => (Blocked, w)
      | S n => (emit EvAcquire >> set_sem_remaining (Some (mkSemaphore (sem_id s) n))) w
      end
  end.

(** [Connection._sem_remaining.release()] *)
Definition sem_release : M unit := λ w,
  match _sem_remaining w with
  | None => (Raised (AttributeError "'NoneType' object has no attribute 'release'"), w)
  | Some s =>
      (emit EvRelease >> set_sem_remaining (Some (mkSemaphore (sem_id s) (S (sem_value s))))) w
  end.

(** *** [psycopg2.pool.ThreadedConnectionPool]

    The library is outside the repository. The pool is modelled by its
    bookkeeping of checked-out connections: [getconn] records the
    connection it hands out, [putconn] raises [PoolError] for a connection
    that is not checked out and takes back one that is. Whether a
    connection can be opened or handed out is up to the driver. *)

(** [__init__(self, minconn, maxconn, *args, **kwargs)] of the pool: the two
    sizes are required arguments and both go through [int]; then [minconn]
    connections are opened with the other arguments, which is the
    driver's part. *)
Definition pool_init (kwargs : params) (x : Ext) : result unit * Ext :=
  match kwargs !! "minconn", kwargs !! "maxconn" with
  | Some minconn, Some maxconn =>
      match Py.int minconn, Py.int maxconn with
      | Some _, Some _ => drv_pool_new kwargs x
      | None, _ =>
          (inl (ValueError ("invalid literal for int() with base 10: "
                            +:+ Py.repr_str minconn)), x)
      | Some _, None =>
          (inl (ValueError ("invalid literal for int() with base 10: "
                            +:+ Py.repr_str maxconn)), x)
      end
  | None, Some _ =>
      (inl (TypeError "__init__() missing 1 required positional argument: 'minconn'"), x)
  | Some _, None =>
      (inl (TypeError "__init__() missing 1 required positional argument: 'maxconn'"), x)
  | None, None =>
      (inl (TypeError ("__init__() missing 2 required positional arguments: "
                       +:+ "'minconn' and 'maxconn'")), x)
  end.

(** [ThreadedConnectionPool], called with the keyword arguments [kwargs] *)
Definition ThreadedConnectionPool_new (kwargs : params) : M ThreadedConnectionPool :=
  call (EvPoolNew kwargs) (pool_init kwargs) >>
  let* i := allocate in ret (mkPool i []).

(** the first occurrence of [c] taken out of the checked-out connections *)
Fixpoint check_in (c : connection) (used : list connection) : list connection :=
  match used with
  | [] => []
  | c' :: used' => if bool_decide (c' = c) then used' else c' :: check_in c used'
  end.

(** [Connection._pool.getconn()]: the driver hands out a connection or
    raises; a connection handed out is checked out. *)
Definition getconn : M connection := λ w,
  match _pool w with
  | None => (Raised (AttributeError "'NoneType' object has no attribute 'getconn'"), w)
  | Some p =>
      (let* c := call EvGetconn drv_getconn in
       set_pool (Some (mkPool (pool_id p) (c :: pool_used p))) >>
       ret c) w
  end.

(** [Connection._pool.putconn(c)]: a connection that is not checked out
    is refused; one that is goes back to the pool. *)
Definition putconn (c : option connection) : M unit := λ w,
  match _pool w with
  | None => (Raised (AttributeError "'NoneType' object has no attribute 'putconn'"), w)
  | Some p =>
      (emit (EvPutconn c) >>
       match c with
       | Some c' =>
           if bool_decide (c' ∈ pool_used p)
           then set_pool (Some (mkPool (pool_id p) (check_in c' (pool_used p))))
           else raise (PoolError "trying to put unkeyed connection")
       | None => raise (PoolError "trying to put unkeyed connection")
       end) w
  end.

(** *** Configuration *)

(** Modelled from the spec: [utilities.ini_parser.parse], which lives in
    another module of the repository. It yields the connection parameters
    of the section as a mapping, and leaves out the [unwanted_fields]. *)
Definition parse (unwanted_fields : list string) (section : params) : params :=
  filter (λ kv, kv.1 ∉ unwanted_fields) section.

(** [Connection.config()] *)
Definition config : M params := λ w, (Returned (parse [] (ini w)), w).

(** [int(cfg.get('maxconn', 4))] *)
Definition int_maxconn (cfg : params) : M Z :=
  match cfg !! "maxconn" with
  | None => ret 4
  | Some text =>
      match Py.int text with
      | Some n => ret n
      | None =>
          raise (ValueError ("invalid literal for int() with base 10: " +:+ Py.repr_str text))
      end
  end.

(** *** The class [Connection] *)

(** line 32 of [__init__]: build the pool from the configuration and
    store it in [Connection._pool] *)
Definition init_pool : M unit :=
  let* kwargs := config in
  let* p := ThreadedConnectionPool_new kwargs in
  set_pool (Some p).

(** line 33 of [__init__]: build the semaphore and store it in
    [Connection._sem_remaining] *)
Definition init_sem_remaining : M unit :=
  let* cfg := config in
  let* n := int_maxconn cfg in
  let* s := Semaphore_new n in
  set_sem_remaining (Some s).

(** [__init__], without its decorator. A pool object is always true, so
    [not Connection._pool] holds exactly when the attribute is [None]. *)
Definition init_body : M Connection := λ w,
  let self := mkConnection None in
  match _pool w with
  | None => (init_pool >> init_sem_remaining >> ret self) w
  | Some _ => (Returned self, w)
  end.

(** [Connection()]: [__init__] under [@synchronized] *)
Definition __init__ : M Connection := synchronized init_body.

(** [__enter__]: the context manager protocol passes no argument. *)
Definition __enter__ (self : Connection) : M (Connection * connection) :=
  sem_acquire >>
  let* c := getconn in
  ret (mkConnection (Some c), c).

Definition __exit__ (self : Connection) : M unit :=
  putconn (conn self) >>
  sem_release.

(** two dictionaries unpacked into one call: a name given twice is a
    [TypeError]. *)
Definition merge_kwargs (a b : params) : M params :=
  if bool_decide (a ##ₘ b) then ret (a ∪ b)
  else raise (TypeError "got multiple values for keyword argument").

(** [__call__], with its positional and keyword arguments: a connection
    of its own, opened by [psycopg2.connect] *)
Definition __call__ (args : list Py.value) (kwargs : params) : M connection := λ w,
  (let* kw := merge_kwargs (parse ["minconn"; "maxconn"] (ini w)) kwargs in
   call (EvConnect args kw) (drv_connect args kw)) w.

(** [with manager as x: body]: [__exit__] runs when the body returns and
    when it raises; it returns [None], so an exception of the body goes on
    to the caller. When [__enter__] raises, [__exit__] does not run. *)
Definition with_ {A} (manager : M Connection) (body : connection → M A) : M A :=
  let* self := manager in
  let* entered := __enter__ self in
  let self' := entered.1 in
  let x := entered.2 in
  λ w, match body x w with
       | (Returned a, w') => (__exit__ self' >> ret a) w'
       | (Raised e, w') => (__exit__ self' >> raise e) w'
       | (Blocked, w') => (Blocked, w')
       end.

(** the block under [with] in [sql_execute] *)
Definition sql_execute_body (sql : string) (connection : connection) : M Iterator :=
  let cursor := connection in
  call (EvCursor connection) (drv_cursor connection) >>
  call (EvExecute cursor sql) (drv_execute cursor sql) >>
  let* rows := call (EvFetchall cursor) (drv_fetchall cursor) in
  call (EvCursorClose cursor) (drv_cursor_close cursor) >>
  ret (iter rows).

Definition sql_execute (sql : string) : M Iterator :=
  if Py.any (map (λ keyword, Py.contains keyword (Py.upper sql)) ["INSERT"; "UPDATE"])
  then
    log ERROR ("You are running INSERT or UPDATE without committing, transaction aborted. Please retry with "
                 +:+ "sql_execute_commit") >>
    ret (iter [])
  else with_ __init__ (sql_execute_body sql).

(** the block under [with] in [sql_execute_commit] *)
Definition sql_execute_commit_body (sql : string) (connection : connection) : M unit :=
  let cursor := connection in
  call (EvCursor connection) (drv_cursor connection) >>
  call (EvExecute cursor sql) (drv_execute cursor sql) >>
  call (EvCommit connection) (drv_commit connection) >>
  call (EvCursorClose cursor) (drv_cursor_close cursor).

Definition sql_execute_commit (sql : string) : M unit :=
  with_ __init__ (sql_execute_commit_body sql).

(** one entry of a row, as [sql_execute_values] writes it *)
Definition render (entry : Py.value) : string :=
  if Py.isinstance_datetime entry then Py.repr (Py.PyStr (Py.str entry))
  else Py.repr entry.

Definition render_tuple (entries : list Py.value) : string :=
  "(" +:+ Py.join ", " (map render entries) +:+ ")".

Definition sql_execute_values (sql : string) (value_tuples : list (list Py.value))
    (ignore_duplicate : bool) : M unit :=
  let value_tuples_sql := Py.join ", " (map render_tuple value_tuples) in
  if Py.truthy value_tuples_sql then
    let sql := sql +:+ (if ignore_duplicate
                        then " " +:+ value_tuples_sql +:+ " ON CONFLICT DO NOTHING"
                        else "") in
    sql_execute_commit sql
  else
    log INFO "[DATABASE] Nothing to commit".

End Methods.

(** ** A small driver to run the methods on

    The server may be unreachable, and then no connection can be had; a
    pool that opens connections when it is built ([minconn] above 0) needs
    a [host] and a reachable server. The server rejects any statement that
    mentions [BAD], fails the commit after a statement that mentions
    [DEFERRED], and answers every query with the same two rows. *)
Record TestDb := mkTestDb {
  reachable : bool;
  handed_out : nat;
  statements : list string
}.

Definition test_rows : list row :=
  [[Py.PyInt 1; Py.PyStr "x"]; [Py.PyInt 2; Py.PyStr "y"]].

Definition unreachable : exn := DriverError "could not connect to server".

Definition test_connect (db : TestDb) : result connection * TestDb :=
  if reachable db
  then (inr (handed_out db), mkTestDb true (S (handed_out db)) (statements db))
  else (inl unreachable, db).

(** [minconn] is above 0 *)
Definition opens_connections (kwargs : params) : bool :=
  match kwargs !! "minconn" with
  | Some text => match Py.int text with Some n => 0 <? n | None => false end
  | None => false
  end.

#[export] Instance test_driver : Driver TestDb := {|
  drv_pool_new kwargs db :=
    if opens_connections kwargs then
      match kwargs !! "host" with
      | None => (inl (DriverError "no host given"), db)
      | Some _ => if reachable db then (inr tt, db) else (inl unreachable, db)
      end
    else (inr tt, db);
  drv_getconn := test_connect;
  drv_connect _ _ := test_connect;
  drv_cursor _ db := (inr tt, db);
  drv_execute _ sql db :=
    if Py.contains "BAD" sql then (inl (DriverError "syntax error"), db)
    else (inr tt, mkTestDb (reachable db) (handed_out db) (statements db ++ [sql]));
  drv_fetchall _ db := (inr test_rows, db);
  drv_commit _ db :=
    if existsb (Py.contains "DEFERRED") (statements db)
    then (inl (DriverError "constraint violated at commit"), db)
    else (inr tt, db);
  drv_cursor_close _ db := (inr tt, db)
|}.

Definition test_ini : params :=
  list_to_map [("host", "localhost"); ("dbname", "twitter"); ("minconn", "1"); ("maxconn", "2")].

(** the process at its start: nothing constructed, nothing called *)
Definition boot {Ext} (section : params) (x : Ext) : World Ext :=
  mkWorld section None None false 0 x [].

Definition test_boot : World TestDb := boot test_ini (mkTestDb true 0 []).

(** a pool that opens no connection when it is built *)
Definition test_lazy_ini : params :=
  list_to_map [("host", "localhost"); ("dbname", "twitter"); ("minconn", "0"); ("maxconn", "2")].

(** ** Threads

    Several threads run the methods of the class against one process. A
    thread is either outside the three methods below ([Idle]) or between
    two of their lines; one step of one thread is one line. The arguments
    a thread passes are not constrained: [__exit__] may be run on an
    instance holding any connection, or none. *)
Inductive pc :=
| Idle
| InitLocked      (* in __init__, lock taken, before the test of line 31 *)
| InitBuildPool   (* before line 32 *)
| InitBuildSem    (* before line 33 *)
| InitUnlock      (* leaving __init__, lock still held *)
| EnterAcquired   (* in __enter__, permit taken, before getconn *)
| ExitPut.        (* in __exit__, connection put back, before release *)

Record System (Ext : Type) := mkSystem {
  world : World Ext;
  threads : list pc
}.
Arguments mkSystem {Ext}.
Arguments world {Ext}.
Arguments threads {Ext}.

Section Threads.
Context {Ext : Type} {drv : Driver Ext}.

Inductive thread_step : pc → World Ext → pc → World Ext → Prop :=
| step_lock w w' :
    lock_acquire w = (Returned tt, w') →
    thread_step Idle w InitLocked w'
| step_test_built w p :
    _pool w = Some p →
    thread_step InitLocked w InitUnlock w
| step_test_none w :
    _pool w = None →
    thread_step InitLocked w InitBuildPool w
| step_pool w w' :
    init_pool w = (Returned tt, w') →
    thread_step InitBuildPool w InitBuildSem w'
| step_pool_raise w w' e :
    init_pool w = (Raised e, w') →
    thread_step InitBuildPool w InitUnlock w'
| step_sem w w' out :
    init_sem_remaining w = (out, w') →
    thread_step InitBuildSem w InitUnlock w'
| step_unlock w w' :
    lock_release w = (Returned tt, w') →
    thread_step InitUnlock w Idle w'
| step_acquire w w' :
    sem_acquire w = (Returned tt, w') →
    thread_step Idle w EnterAcquired w'
| step_acquire_raise w w' e :
    sem_acquire w = (Raised e, w') →
    thread_step Idle w Idle w'
| step_getconn w w' out :
    getconn w = (out, w') →
    thread_step EnterAcquired w Idle w'
| step_putconn w w' c :
    putconn c w = (Returned tt, w') →
    thread_step Idle w ExitPut w'
| step_putconn_raise w w' c e :
    putconn c w = (Raised e, w') →
    thread_step Idle w Idle w'
| step_release w w' out :
    sem_release w = (out, w') →
    thread_step ExitPut w Idle w'
| step_call w w' args kwargs out :
    __call__ args kwargs w = (out, w') →
    thread_step Idle w Idle w'
| step_query w w' sql c out :
    sql_execute_body sql c w = (out, w') →
    thread_step Idle w Idle w'
| step_statement w w' sql c out :
    sql_execute_commit_body sql c w = (out, w') →
    thread_step Idle w Idle w'
| step_log w w' lvl msg :
    log lvl msg w = (Returned tt, w') →
    thread_step Idle w Idle w'.

(** One step of the process: some thread runs its next line. *)
Inductive step : System Ext → System Ext → Prop :=
| step_thread w w' ts t p p' :
    ts !! t = Some p →
    thread_step p w p' w' →
    step (mkSystem w ts) (mkSystem w' (<[t := p']> ts)).

End Threads.

(** *** Counting threads and leases *)

Fixpoint tally (f : pc → bool) (ts : list pc) : nat :=
  match ts with
  | [] => O
  | p :: ts' => ((if f p then 1 else 0) + tally f ts')%nat
  end.

Definition holds_lock (p : pc) : bool :=
  match p with
  | InitLocked | InitBuildPool | InitBuildSem | InitUnlock => true
  | _ => false
  end.

Definition at_build_pool (p : pc) : bool :=
  match p with InitBuildPool => true | _ => false end.

Definition at_build_sem (p : pc) : bool :=
  match p with InitBuildSem => true | _ => false end.

Definition in_enter (p : pc) : bool :=
  match p with EnterAcquired => true | _ => false end.

Definition in_exit (p : pc) : bool :=
  match p with ExitPut => true | _ => false end.

(** free permits of the capacity semaphore *)
Definition permits {Ext} (w : World Ext) : nat :=
  match _sem_remaining w with Some s => sem_value s | None => O end.

(** outstanding leases: connections checked out of the pool *)
Definition leases {Ext} (w : World Ext) : nat :=
  match _pool w with Some p => length (pool_used p) | None => O end.

(** the configured maximum: [maxconn] read as an integer, 4 when absent *)
Definition capacity (section : params) : nat :=
  match section !! "maxconn" with
  | None => 4%nat
  | Some text => match Py.int text with Some n => Z.to_nat n | None => O end
  end.

Definition limit {Ext} (w : World Ext) : nat :=
  match _sem_remaining w with Some _ => capacity (ini w) | None => O end.

(** pool and semaphore objects stored in the class attributes *)
Definition installed {Ext} (w : World Ext) : nat :=
  ((match _pool w with Some _ => 1 | None => 0 end)
   + (match _sem_remaining w with Some _ => 1 | None => 0 end))%nat.

(** What holds of every state the process can reach. *)
Record inv {Ext} (sys : System Ext) : Prop := mkInv {
  inv_lock : tally holds_lock (threads sys) = if lock (world sys) then 1%nat else 0%nat;
  inv_build_pool : (0 < tally at_build_pool (threads sys))%nat → _pool (world sys) = None;
  inv_build_sem : (0 < tally at_build_sem (threads sys))%nat → _sem_remaining (world sys) = None;
  inv_build_sem_pool : (0 < tally at_build_sem (threads sys))%nat → _pool (world sys) ≠ None;
  inv_pool_first : _pool (world sys) = None → _sem_remaining (world sys) = None;
  inv_built : built (world sys) = installed (world sys);
  inv_account :
    (permits (world sys) + leases (world sys)
     + tally in_enter (threads sys) + tally in_exit (threads sys)
     ≤ limit (world sys))%nat
}.

(** the process at its start, with [n] threads *)
Definition start {Ext} (section : params) (x : Ext) (n : nat) : System Ext :=
  mkSystem (boot section x) (replicate n Idle).

(** the configuration file, the two class attributes, the lock and the
    object count are as they were *)
Definition frame {Ext} (w w' : World Ext) : Prop :=
  ini w' = ini w ∧ _pool w' = _pool w ∧ _sem_remaining w' = _sem_remaining w
  ∧ lock w' = lock w ∧ built w' = built w.

(** worlds and thread systems used to run the theorems: the process after
    the first [Connection()], with one lease out, without a [host], without
    a [maxconn], and with the server down under a pool that was built
    without opening a connection *)
Definition test_ready : World TestDb := (__init__ test_boot).2.

Definition test_leased : World TestDb := (__enter__ (mkConnection None) test_ready).2.

Definition test_no_host : World TestDb :=
  boot (list_to_map [("dbname", "twitter"); ("minconn", "1"); ("maxconn", "2")])
    (mkTestDb true 0 []).

Definition test_default : World TestDb :=
  boot (list_to_map [("host", "localhost"); ("dbname", "twitter"); ("minconn", "1")])
    (mkTestDb true 0 []).

Definition test_down : World TestDb :=
  (__init__ (boot test_lazy_ini (mkTestDb false 0 []))).2.

Definition test_full : World TestDb := (__enter__ (mkConnection None) test_leased).2.

Definition test_threads : System TestDb := mkSystem test_ready [Idle; Idle].

Definition test_threads_later : System TestDb :=
  mkSystem (__enter__ (mkConnection None) (__init__ test_ready).2).2 [Idle; Idle].

Definition test_threads_full : System TestDb := mkSystem test_full [Idle; Idle].

(** ** What a method may add to the history *)

(** [m] only appends events that satisfy [P] *)
Definition adds {Ext A} (P : event → Prop) (m : M Ext A) : Prop :=
  ∀ w out w', m w = (out, w') → ∃ evs, trace w' = trace w ++ evs ∧ Forall P evs.

(** an event that a helper run on the statement [sql] may cause: no
    statement but [sql], a commit only where allowed, no connection opened
    outside the pool *)
Definition runs_only (sql : string) (may_commit : bool) (ev : event) : Prop :=
  match ev with
  | EvExecute _ s => s = sql
  | EvCommit _ => may_commit = true
  | EvConnect _ _ => False
  | _ => True
  end.

(** ** Text, character by character *)

(** [s] is empty or starts with the first byte of a character *)
Definition starts_char (s : string) : bool :=
  match s with
  | EmptyString => true
  | String c _ => negb (Py.is_continuation c)
  end.

Definition is_ascii (c : ascii) : bool := (Py.code c <? 128)%nat.

(** ** Text that [repr] leaves as it is *)

(** a character that [repr] copies unchanged inside [quote]s: printable
    ASCII (codes 32 to 126) other than the quote and the backslash *)
Definition safe_char (quote c : ascii) : bool :=
  negb (bool_decide (c = quote)) && negb (bool_decide (c = Py.backslash))
  && (32 <=? Py.code c)%nat && (Py.code c <? 127)%nat.

Fixpoint all_chars (f : ascii → bool) (s : string) : bool :=
  match s with
  | EmptyString => true
  | String c s' => f c && all_chars f s'
  end.

(** ** [get_connection_status]

    [cursor.fetchone()] is one more call into the driver: a row, [None]
    when there is none, or an error. The history keeps no record of it. *)
Class Fetchone (Ext : Type) :=
  drv_fetchone : connection → Ext → result (option row) * Ext.

Section Status.
Context {Ext : Type} {drv : Driver Ext} {fetch : Fetchone Ext}.

(** a call into the driver that the history does not record *)
Definition ask {A} (f : Ext → result A * Ext) : M Ext A := λ w,
  let '(r, x) := f (ext w) in
  (match r with inl e => Raised e | inr a => Returned a end,
   mkWorld (ini w) (_pool w) (_sem_remaining w) (lock w) (built w) x (trace w)).

(** [value, = t]: [t] must be a tuple of exactly one value *)
Definition unpack_one (t : option row) : M Ext Py.value :=
  match t with
  | None => raise (TypeError "cannot unpack non-iterable NoneType object")
  | Some [] => raise (ValueError "not enough values to unpack (expected 1, got 0)")
  | Some [v] => ret v
  | Some _ => raise (ValueError "too many values to unpack (expected 1)")
  end.

(** [cfg.get('host')] inside an f-string *)
Definition format_host (cfg : params) : string :=
  match cfg !! "host" with Some host => host | None => "None" end.

Definition get_connection_status (connection : connection) : M Ext unit :=
  let cursor := connection in
  call (EvCursor connection) (drv_cursor connection) >>
  call (EvExecute cursor "SELECT sum(numbackends) FROM pg_stat_database;")
    (drv_execute cursor "SELECT sum(numbackends) FROM pg_stat_database;") >>
  let* t := ask (drv_fetchone cursor) in
  let* connection_count := unpack_one t in
  call (EvExecute cursor "SHOW max_connections;")
    (drv_execute cursor "SHOW max_connections;") >>
  let* t := ask (drv_fetchone cursor) in
  let* connection_max_count := unpack_one t in
  let* cfg := config in
  log INFO ("[DATABASE] HOST = " +:+ format_host cfg +:+ ", CONNECTION COUNT "
            +:+ "= " +:+ Py.str connection_count +:+ ", MAXIMUM = "
            +:+ Py.str connection_max_count) >>
  call (EvCursorClose cursor) (drv_cursor_close cursor).

End Status.

(** the test server answers the two status queries, when it can be reached *)
#[export] Instance test_fetchone : Fetchone TestDb := λ _ db,
  if reachable db then
    match last (statements db) with
    | Some q =>
        if bool_decide (q = "SELECT sum(numbackends) FROM pg_stat_database;")
        then (inr (Some [Py.PyInt 3]), db)
        else if bool_decide (q = "SHOW max_connections;")
             then (inr (Some [Py.PyStr "100"]), db)
             else (inr None, db)
    | None => (inr None, db)
    end
  else (inl unreachable, db).

(** more worlds to run the theorems: a negative [maxconn], and a thread
    that holds the lock of [__init__] *)
Definition test_bad_maxconn : World TestDb :=
  boot (list_to_map [("host", "localhost"); ("minconn", "1"); ("maxconn", "-1")])
    (mkTestDb true 0 []).

Definition test_threads_locked : System TestDb :=
  mkSystem (lock_acquire test_boot).2 [InitLocked; Idle].

(** * Lemmas and theorems *)

Example upper_select : Py.upper "select * from T_1" = "SELECT * FROM T_1".
Proof. reflexivity. Qed.

Example contains_insert : Py.contains "INSERT" (Py.upper "x; insert into t") = true.
Proof. reflexivity. Qed.

Example repr_examples :
  map Py.repr [Py.PyInt 1; Py.PyInt (-20); Py.PyInt 0; Py.PyStr "x"; Py.PyNone;
               Py.PyStr "it's"; Py.PyBool true]
  = ["1"; "-20"; "0"; "'x'"; "None"; String Py.dquote "it's" +:+ String Py.dquote ""; "True"].
Proof. reflexivity. Qed.

Example str_datetime_example :
  Py.str (Py.PyDatetime (Py.mk_datetime 2020 1 2 3 4 5 0)) = "2020-01-02 03:04:05".
Proof. reflexivity. Qed.

Example int_examples :
  map Py.int ["8"; " 12 "; "-3"; "1_000"; "abc"; ""; "1__0"; "+7"; "٣"; "１２"; "- 3"]
  = [Some 8; Some 12; Some (-3); Some 1000; None; None; None; Some 7; Some 3; Some 12; None].
Proof. vm_compute. reflexivity. Qed.

Example upper_examples :
  map Py.upper ["straße"; "ınsert"; "ﬁx"; "é"; "ǆ"]
  = ["STRASSE"; "INSERT"; "FIX"; "É"; "Ǆ"].
Proof. vm_compute. reflexivity. Qed.

Example chars_example : Py.chars "aé€" = ["a"; "é"; "€"].
Proof. vm_compute. reflexivity. Qed.

(** ** Lemmas on the built-ins *)

Lemma parse_nil (section : params) : parse [] section = section.
Proof.
  unfold parse. apply map_filter_id. intros i x _. simpl. apply not_elem_of_nil.
Qed.

Lemma parse_lookup (unwanted : list string) (section : params) (k : string) :
  parse unwanted section !! k = if bool_decide (k ∈ unwanted) then None else section !! k.
Proof.
  unfold parse. case_bool_decide as Hk.
  - apply map_lookup_filter_None. right. intros x _ Hn. by apply Hn.
  - destruct (section !! k) as [v|] eqn:E.
    + apply map_lookup_filter_Some. split; [done | by simpl].
    + apply map_lookup_filter_None. left. done.
Qed.

Lemma truthy_app_l (a b : string) : Py.truthy a = true → Py.truthy (a +:+ b) = true.
Proof. destruct a; [discriminate | reflexivity]. Qed.

Lemma join_cons_truthy (sep x : string) (xs : list string) :
  Py.truthy x = true → Py.truthy (Py.join sep (x :: xs)) = true.
Proof.
  intros Hx. destruct xs as [|y ys]; [exact Hx |].
  change (Py.truthy (x +:+ sep +:+ Py.join sep (y :: ys)) = true).
  by apply truthy_app_l.
Qed.

Lemma render_tuple_truthy (entries : list Py.value) : Py.truthy (render_tuple entries) = true.
Proof. reflexivity. Qed.

Lemma check_in_length (c : connection) (used : list connection) :
  c ∈ used → S (length (check_in c used)) = length used.
Proof.
  induction used as [|c' used IH]; intros Hin.
  - by apply elem_of_nil in Hin.
  - simpl. case_bool_decide as Hc; [done |].
    apply elem_of_cons in Hin as [-> | Hin]; [done |].
    simpl. by rewrite IH.
Qed.

(** *** Counting *)

Lemma tally_insert (f : pc → bool) (ts : list pc) (t : nat) (p p' : pc) :
  ts !! t = Some p →
  (tally f (<[t := p']> ts) + (if f p then 1 else 0)
   = tally f ts + (if f p' then 1 else 0))%nat.
Proof.
  revert t. induction ts as [|q ts IH]; intros [|t] Ht; simplify_eq/=.
  - lia.
  - specialize (IH t Ht). lia.
Qed.

Lemma tally_replicate_idle (f : pc → bool) (n : nat) :
  f Idle = false → tally f (replicate n Idle) = O.
Proof. intros Hf. induction n as [|n IH]; simpl; [done |]. by rewrite Hf, IH. Qed.

(** ** What each line does to the process *)

Lemma frame_refl {Ext} (w : World Ext) : frame w w.
Proof. by repeat split. Qed.

Lemma frame_trans {Ext} (w1 w2 w3 : World Ext) : frame w1 w2 → frame w2 w3 → frame w1 w3.
Proof. unfold frame. intros (?&?&?&?&?) (?&?&?&?&?). split_and!; congruence. Qed.

Section Effects.
Context {Ext : Type} {drv : Driver Ext}.
Implicit Types w : World Ext.

Lemma call_frame {A} ev (f : Ext → result A * Ext) w out w' :
  call ev f w = (out, w') → frame w w'.
Proof.
  unfold call. destruct (f (ext w)) as [r x]. intros [= <- <-]. by repeat split.
Qed.

Lemma bind_frame {A B} (m : M Ext A) (k : A → M Ext B) w out w' :
  (∀ w1 o w2, m w1 = (o, w2) → frame w1 w2) →
  (∀ a w1 o w2, k a w1 = (o, w2) → frame w1 w2) →
  bind m k w = (out, w') → frame w w'.
Proof.
  intros Hm Hk. unfold bind. destruct (m w) as [[a|e|] w1] eqn:E; intros H.
  - eapply frame_trans; [by eapply Hm | by eapply Hk].
  - injection H as <- <-. by eapply Hm.
  - injection H as <- <-. by eapply Hm.
Qed.

Lemma ret_frame {A} (a : A) w out w' : ret a w = (out, w') → frame w w'.
Proof. intros [= <- <-]. apply frame_refl. Qed.

Lemma log_frame lvl msg w out w' : log lvl msg w = (out, w') → frame w w'.
Proof. intros [= <- <-]. by repeat split. Qed.

Ltac frames :=
  intros;
  repeat match goal with
         | H : _ = (_, _) |- _ => progress cbv beta zeta in H
         | H : bind _ _ _ = _ |- frame _ _ =>
             eapply bind_frame; [ | | exact H]; clear H; intros
         | H : call _ _ _ = _ |- frame _ _ => exact (call_frame _ _ _ _ _ H)
         | H : ret _ _ = _ |- frame _ _ => exact (ret_frame _ _ _ _ H)
         end.

Lemma sql_execute_body_frame sql c w out w' :
  sql_execute_body sql c w = (out, w') → frame w w'.
Proof.
  unfold sql_execute_body. frames.
Qed.

Lemma sql_execute_commit_body_frame sql c w out w' :
  sql_execute_commit_body sql c w = (out, w') → frame w w'.
Proof.
  unfold sql_execute_commit_body. frames.
Qed.

Lemma call_method_frame args kwargs w out w' :
  __call__ args kwargs w = (out, w') → frame w w'.
Proof.
  unfold __call__, merge_kwargs.
  case_bool_decide.
  - frames.
  - intros [= <- <-]. apply frame_refl.
Qed.

Lemma lock_acquire_returned w w' :
  lock_acquire w = (Returned tt, w') →
  lock w = false ∧ lock w' = true ∧ ini w' = ini w ∧ _pool w' = _pool w
  ∧ _sem_remaining w' = _sem_remaining w ∧ built w' = built w
  ∧ ext w' = ext w ∧ trace w' = trace w.
Proof.
  unfold lock_acquire. destruct (lock w) eqn:E; [discriminate |].
  intros [= <-]. by repeat split.
Qed.

Lemma lock_release_returned w w' :
  lock_release w = (Returned tt, w') →
  lock w' = false ∧ ini w' = ini w ∧ _pool w' = _pool w
  ∧ _sem_remaining w' = _sem_remaining w ∧ built w' = built w
  ∧ ext w' = ext w ∧ trace w' = trace w.
Proof. intros [= <-]. by repeat split. Qed.

Lemma init_pool_effect w out w' :
  init_pool w = (out, w') →
  ini w' = ini w ∧ _sem_remaining w' = _sem_remaining w ∧ lock w' = lock w ∧
  ((out = Returned tt ∧ _pool w' = Some (mkPool (built w) []) ∧ built w' = S (built w))
   ∨ (∃ e, out = Raised e ∧ _pool w' = _pool w ∧ built w' = built w)).
Proof.
  unfold init_pool, config, ThreadedConnectionPool_new, bind, call.
  destruct (pool_init (parse [] (ini w)) (ext w)) as [[e|[]] x];
    intros [= <- <-]; split_and!; try done; [right | left]; eauto.
Qed.

Lemma int_maxconn_inv (section : params) (out : outcome Z) w w' :
  int_maxconn (parse [] section) w = (out, w') →
  w' = w ∧ ((∃ n, out = Returned n ∧ Z.to_nat n = capacity section) ∨ ∃ e, out = Raised e).
Proof.
  unfold int_maxconn, capacity. rewrite parse_nil.
  destruct (section !! "maxconn") as [text|]; [destruct (Py.int text) |];
    intros [= <- <-]; split; eauto.
Qed.

Lemma init_sem_remaining_effect w out w' :
  init_sem_remaining w = (out, w') →
  ini w' = ini w ∧ _pool w' = _pool w ∧ lock w' = lock w ∧
  ((out = Returned tt ∧ built w' = S (built w)
    ∧ _sem_remaining w' = Some (mkSemaphore (built w) (capacity (ini w))))
   ∨ (∃ e, out = Raised e ∧ _sem_remaining w' = _sem_remaining w ∧ built w' = built w)).
Proof.
  unfold init_sem_remaining, config, bind at 1 2.
  destruct (int_maxconn (parse [] (ini w)) w) as [o w1] eqn:E.
  apply int_maxconn_inv in E as [-> [(n & -> & Hn) | (e & ->)]].
  - unfold Semaphore_new, bind, emit. simpl. destruct (n <? 0).
    + intros [= <- <-]. split_and!; try done. right. eauto.
    + intros [= <- <-]. split_and!; try done. left. simpl. by rewrite Hn.
  - intros [= <- <-]. split_and!; try done. right. eauto.
Qed.

Lemma sem_acquire_returned w w' :
  sem_acquire w = (Returned tt, w') →
  (∃ s n, _sem_remaining w = Some s ∧ sem_value s = S n
          ∧ _sem_remaining w' = Some (mkSemaphore (sem_id s) n))
  ∧ ini w' = ini w ∧ _pool w' = _pool w ∧ lock w' = lock w ∧ built w' = built w
  ∧ ext w' = ext w ∧ trace w' = trace w ++ [EvAcquire].
Proof.
  unfold sem_acquire. destruct (_sem_remaining w) as [s|] eqn:E; [| discriminate].
  destruct (sem_value s) as [|n] eqn:V; [discriminate |].
  intros [= <-]. split_and!; try done. eauto.
Qed.

Lemma sem_acquire_raised w w' e : sem_acquire w = (Raised e, w') → w' = w.
Proof.
  unfold sem_acquire. destruct (_sem_remaining w) as [s|]; [| congruence].
  destruct (sem_value s); discriminate.
Qed.

Lemma getconn_effect w out w' :
  getconn w = (out, w') →
  ini w' = ini w ∧ _sem_remaining w' = _sem_remaining w ∧ lock w' = lock w
  ∧ built w' = built w ∧
  ((∃ c p, out = Returned c ∧ _pool w = Some p
           ∧ _pool w' = Some (mkPool (pool_id p) (c :: pool_used p)))
   ∨ (∃ e, out = Raised e ∧ _pool w' = _pool w)).
Proof.
  unfold getconn. destruct (_pool w) as [p|] eqn:E.
  - unfold bind, call. destruct (drv_getconn (ext w)) as [[e|c] x];
      intros [= <- <-]; split_and!; try done; [right | left]; eauto.
  - intros [= <- <-]. split_and!; try done. right. eauto.
Qed.

Lemma putconn_returned c w w' :
  putconn c w = (Returned tt, w') →
  (∃ c' p, c = Some c' ∧ c' ∈ pool_used p ∧ _pool w = Some p
           ∧ _pool w' = Some (mkPool (pool_id p) (check_in c' (pool_used p))))
  ∧ ini w' = ini w ∧ _sem_remaining w' = _sem_remaining w ∧ lock w' = lock w
  ∧ built w' = built w ∧ ext w' = ext w ∧ trace w' = trace w ++ [EvPutconn c].
Proof.
  unfold putconn. destruct (_pool w) as [p|] eqn:E; [| discriminate].
  destruct c as [c'|]; [| discriminate].
  unfold bind, emit. simpl. case_bool_decide as Hin; [| discriminate].
  intros [= <-]. split_and!; try done. by exists c', p.
Qed.

Lemma putconn_raised c w w' e : putconn c w = (Raised e, w') → frame w w'.
Proof.
  unfold putconn. destruct (_pool w) as [p|] eqn:E.
  - destruct c as [c'|]; unfold bind, emit; simpl; [case_bool_decide |];
      first [discriminate | intros [= <- <-]; by repeat split].
  - intros [= <- <-]. apply frame_refl.
Qed.

Lemma sem_release_effect w out w' :
  sem_release w = (out, w') →
  ini w' = ini w ∧ _pool w' = _pool w ∧ lock w' = lock w ∧ built w' = built w ∧
  ((out = Returned tt ∧ ∃ s, _sem_remaining w = Some s
      ∧ _sem_remaining w' = Some (mkSemaphore (sem_id s) (S (sem_value s))))
   ∨ (∃ e, out = Raised e ∧ _sem_remaining w' = _sem_remaining w)).
Proof.
  unfold sem_release. destruct (_sem_remaining w) as [s|] eqn:E;
    intros [= <- <-]; split_and!; try done; [left | right]; eauto.
Qed.

End Effects.

(** ** The invariant *)

Lemma tally_build_le (ts : list pc) :
  (tally at_build_pool ts + tally at_build_sem ts ≤ tally holds_lock ts)%nat.
Proof. induction ts as [|p ts IH]; simpl; [lia |]. destruct p; simpl; lia. Qed.

Section Invariant.
Context {Ext : Type} {drv : Driver Ext}.

(** what the line just run did, from the lemmas above *)
Ltac effects :=
  match goal with
  | H : lock_acquire _ = _ |- _ => apply lock_acquire_returned in H as (?&?&?&?&?&?&?&?)
  | H : lock_release _ = _ |- _ => apply lock_release_returned in H as (?&?&?&?&?&?&?)
  | H : init_pool _ = _ |- _ =>
      apply init_pool_effect in H as (?&?&?&[(?&?&?)|(?&?&?&?)])
  | H : init_sem_remaining _ = _ |- _ =>
      apply init_sem_remaining_effect in H as (?&?&?&[(?&?&?)|(?&?&?&?)])
  | H : sem_acquire _ = (Returned _, _) |- _ =>
      apply sem_acquire_returned in H as ((?&?&?&?&?)&?&?&?&?&?&?)
  | H : sem_acquire _ = (Raised _, _) |- _ => apply sem_acquire_raised in H as ->
  | H : getconn _ = _ |- _ =>
      apply getconn_effect in H as (?&?&?&?&[(?&?&?&?&?)|(?&?&?)])
  | H : putconn _ _ = (Returned _, _) |- _ =>
      apply putconn_returned in H as ((?&?&?&?&?&?)&?&?&?&?&?&?)
  | H : putconn _ _ = (Raised _, _) |- _ => apply putconn_raised in H as (?&?&?&?&?)
  | H : sem_release _ = _ |- _ =>
      apply sem_release_effect in H as (?&?&?&?&[(?&?&?&?)|(?&?&?)])
  | H : __call__ _ _ _ = _ |- _ => apply call_method_frame in H as (?&?&?&?&?)
  | H : sql_execute_body _ _ _ = _ |- _ => apply sql_execute_body_frame in H as (?&?&?&?&?)
  | H : sql_execute_commit_body _ _ _ = _ |- _ =>
      apply sql_execute_commit_body_frame in H as (?&?&?&?&?)
  | H : log _ _ _ = _ |- _ => apply log_frame in H as (?&?&?&?&?)
  | _ => idtac
  end.

(** rewrite the new state in terms of the old one *)
Ltac old_state :=
  repeat match goal with
         | E : _pool ?w = _ |- context [_pool ?w] => rewrite E
         | E : _sem_remaining ?w = _ |- context [_sem_remaining ?w] => rewrite E
         | E : lock ?w = _ |- context [lock ?w] => rewrite E
         | E : built ?w = _ |- context [built ?w] => rewrite E
         | E : ini ?w = _ |- context [ini ?w] => rewrite E
         end.

(** use what is known: facts whose premises hold, and the size of a pool
    after a connection came back *)
Ltac saturate :=
  repeat match goal with
         | E : _ ∈ _ |- _ => apply check_in_length in E
         | H : ?P → ?Q |- _ =>
             let HP := fresh in
             assert P as HP by (first [lia | done]); specialize (H HP); clear HP
         end.

Lemma inv_start (section : params) (x : Ext) (n : nat) : inv (start section x n).
Proof.
  constructor; simpl; rewrite ?tally_replicate_idle by done; try done; lia.
Qed.

Lemma inv_step (sys sys' : System Ext) : inv sys → step sys sys' → inv sys'.
Proof.
  intros [I1 I2 I3 I3' I4 I6 I5] Hs. destruct Hs as [w w' ts t p p' Ht Hts]. simpl in *.
  pose proof (tally_insert holds_lock ts t p p' Ht) as T1.
  pose proof (tally_insert at_build_pool ts t p p' Ht) as T2.
  pose proof (tally_insert at_build_sem ts t p p' Ht) as T3.
  pose proof (tally_insert in_enter ts t p p' Ht) as T4.
  pose proof (tally_insert in_exit ts t p p' Ht) as T5.
  pose proof (tally_build_le ts) as B.
  pose proof (tally_build_le (<[t := p']> ts)) as B'.
  assert (tally holds_lock ts ≤ 1)%nat as L by (rewrite I1; destruct (lock w); lia).
  unfold permits, leases, limit, installed in *.
  destruct Hts; simpl in T1, T2, T3, T4, T5; effects; simplify_eq.
  all: constructor; cbn [world threads]; unfold permits, leases, limit, installed.
  all: old_state; cbn [pool_used sem_value length].
  all: intros; repeat case_match; simplify_eq; saturate.
  all: first [ lia | done | congruence ].
Qed.

(** What one step leaves as it is: the configuration file always; once the
    semaphore is in place, the identity of the pool and of the semaphore
    and the count of objects built. Permits and leases together, counting
    the threads half-way through [__enter__] or [__exit__], do not grow. *)
Lemma step_keeps (sys sys' : System Ext) :
  inv sys → step sys sys' →
  ini (world sys') = ini (world sys) ∧
  ∀ s, _sem_remaining (world sys) = Some s →
    (∃ s', _sem_remaining (world sys') = Some s' ∧ sem_id s' = sem_id s) ∧
    (∃ p p', _pool (world sys) = Some p ∧ _pool (world sys') = Some p'
             ∧ pool_id p' = pool_id p) ∧
    built (world sys') = built (world sys) ∧
    (permits (world sys') + leases (world sys')
     + tally in_enter (threads sys') + tally in_exit (threads sys')
     ≤ permits (world sys) + leases (world sys)
       + tally in_enter (threads sys) + tally in_exit (threads sys))%nat.
Proof.
  intros [I1 I2 I3 I3' I4 I6 I5] Hs. destruct Hs as [w w' ts t p p' Ht Hts]. simpl in *.
  pose proof (tally_insert at_build_pool ts t p p' Ht) as T2.
  pose proof (tally_insert at_build_sem ts t p p' Ht) as T3.
  pose proof (tally_insert in_enter ts t p p' Ht) as T4.
  pose proof (tally_insert in_exit ts t p p' Ht) as T5.
  clear I1 I5 I6.
  unfold permits, leases in *.
  destruct Hts; simpl in T2, T3, T4, T5; effects; simplify_eq.
  all: split; [congruence |]; intros s0 Hs0.
  all: destruct (_pool w) as [p0|] eqn:Hp0;
    [| specialize (I4 eq_refl); congruence ].
  all: old_state; cbn [pool_used sem_value length].
  all: saturate; simplify_eq.
  all: split_and!; first [ lia | done | congruence | by eauto ].
Qed.

Lemma inv_reach (sys sys' : System Ext) : inv sys → rtc step sys sys' → inv sys'.
Proof. intros I R. induction R as [|x y z S _ IH]; [done |]. by eapply IH, inv_step. Qed.

Lemma reach_keeps (sys sys' : System Ext) :
  inv sys → rtc step sys sys' →
  ini (world sys') = ini (world sys) ∧
  ∀ s, _sem_remaining (world sys) = Some s →
    (∃ s', _sem_remaining (world sys') = Some s' ∧ sem_id s' = sem_id s) ∧
    (∃ p p', _pool (world sys) = Some p ∧ _pool (world sys') = Some p'
             ∧ pool_id p' = pool_id p) ∧
    built (world sys') = built (world sys) ∧
    (permits (world sys') + leases (world sys')
     + tally in_enter (threads sys') + tally in_exit (threads sys')
     ≤ permits (world sys) + leases (world sys)
       + tally in_enter (threads sys) + tally in_exit (threads sys))%nat.
Proof.
  intros I R. induction R as [x|x y z S _ IH].
  - split; [done |]. intros s Hs. split_and!; eauto.
    destruct (_pool (world x)) as [p|] eqn:Hp; [by eauto |].
    apply (inv_pool_first _ I) in Hp. congruence.
  - destruct (step_keeps x y I S) as [Hini Hk].
    destruct (IH (inv_step x y I S)) as [Hini' Hk'].
    split; [congruence |]. intros s Hs.
    destruct (Hk s Hs) as ((s1 & Hs1 & Hid1) & (p & p1 & Hp & Hp1 & Hpid1) & Hb1 & Ha1).
    destruct (Hk' s1 Hs1) as ((s2 & Hs2 & Hid2) & (p1' & p2 & Hp1' & Hp2 & Hpid2) & Hb2 & Ha2).
    simplify_eq. split_and!.
    + exists s2. split; [done | congruence].
    + exists p, p2. split_and!; [done | done | congruence].
    + congruence.
    + lia.
Qed.

(** *** The methods, run by one thread, are runs of the step relation *)

Lemma step_at (w w' : World Ext) (ts : list pc) (t : nat) (p p' : pc) :
  (t < length ts)%nat → thread_step p w p' w' →
  step (mkSystem w (<[t := p]> ts)) (mkSystem w' (<[t := p']> ts)).
Proof.
  intros Ht Hs.
  rewrite <- (list_insert_insert_eq ts t p' p).
  apply step_thread with (p := p); [| done].
  by apply list_lookup_insert_eq.
Qed.

Lemma init_body_runs (w w' : World Ext) (out : outcome Connection) (ts : list pc) (t : nat) :
  (t < length ts)%nat → init_body w = (out, w') →
  out ≠ Blocked ∧
  rtc step (mkSystem w (<[t := InitLocked]> ts)) (mkSystem w' (<[t := InitUnlock]> ts)).
Proof.
  intros Ht. unfold init_body. destruct (_pool w) as [p|] eqn:Hp.
  - intros [= <- <-]. split; [done |].
    apply rtc_once, step_at; [done |]. by eapply step_test_built.
  - unfold bind. destruct (init_pool w) as [[[]|e|] w1] eqn:E1.
    + destruct (init_sem_remaining w1) as [[[]|e|] w2] eqn:E2; intros [= <- <-].
      * split; [done |].
        eapply rtc_l; [apply step_at; [done | by apply step_test_none] |].
        eapply rtc_l; [apply step_at; [done | by apply step_pool] |].
        apply rtc_once, step_at; [done |]. by eapply step_sem.
      * split; [done |].
        eapply rtc_l; [apply step_at; [done | by apply step_test_none] |].
        eapply rtc_l; [apply step_at; [done | by apply step_pool] |].
        apply rtc_once, step_at; [done |]. by eapply step_sem.
      * apply init_sem_remaining_effect in E2 as (_&_&_&[(?&_)|(?&?&_)]); done.
    + intros [= <- <-]. split; [done |].
      eapply rtc_l; [apply step_at; [done | by apply step_test_none] |].
      apply rtc_once, step_at; [done |]. by eapply step_pool_raise.
    + apply init_pool_effect in E1 as (_&_&_&[(?&_)|(?&?&_)]); done.
Qed.

End Invariant.

Section Runs.
Context {Ext : Type} {drv : Driver Ext}.

Lemma idle_run (w w' : World Ext) (ts : list pc) (t : nat) :
  ts !! t = Some Idle →
  rtc step (mkSystem w (<[t := Idle]> ts)) (mkSystem w' (<[t := Idle]> ts)) →
  rtc step (mkSystem w ts) (mkSystem w' ts).
Proof. intros Hi. by rewrite (list_insert_id ts t Idle Hi). Qed.

Lemma init_runs (w : World Ext) (ts : list pc) (t : nat) :
  ts !! t = Some Idle →
  rtc step (mkSystem w ts) (mkSystem (__init__ w).2 ts).
Proof.
  intros Hi. pose proof (lookup_lt_Some _ _ _ Hi) as Ht.
  unfold __init__, synchronized, bind.
  destruct (lock_acquire w) as [[[]|e|] w1] eqn:E1.
  - destruct (init_body w1) as [out w2] eqn:E2.
    destruct (init_body_runs w1 w2 out ts t Ht E2) as [Hout R].
    apply (idle_run _ _ _ t Hi).
    eapply rtc_l; [apply step_at; [done | by apply step_lock] |].
    eapply rtc_trans; [exact R |].
    destruct out as [a|e|]; [| | done]; simpl;
      apply rtc_once, step_at; try done; by apply step_unlock.
  - unfold lock_acquire in E1. destruct (lock w); discriminate.
  - unfold lock_acquire in E1. destruct (lock w); [| discriminate].
    injection E1 as <-. simpl. apply rtc_refl.
Qed.

Lemma enter_runs (self : Connection) (w : World Ext) (ts : list pc) (t : nat) :
  ts !! t = Some Idle →
  rtc step (mkSystem w ts) (mkSystem (__enter__ self w).2 ts).
Proof.
  intros Hi. pose proof (lookup_lt_Some _ _ _ Hi) as Ht.
  unfold __enter__, bind.
  destruct (sem_acquire w) as [[[]|e|] w1] eqn:E1.
  - destruct (getconn w1) as [out w2] eqn:E2.
    apply (idle_run _ _ _ t Hi).
    eapply rtc_l; [apply step_at; [done | by apply step_acquire] |].
    replace (match out with
             | Returned a => ret (mkConnection (Some a), a) w2
             | Raised e => (Raised e, w2)
             | Blocked => (Blocked, w2)
             end).2 with w2 by (by destruct out).
    apply rtc_once, step_at; [done |]. by eapply step_getconn.
  - apply sem_acquire_raised in E1 as ->. apply rtc_refl.
  - simpl. unfold sem_acquire in E1.
    destruct (_sem_remaining w) as [s|]; [| discriminate].
    destruct (sem_value s); [| discriminate]. injection E1 as <-. apply rtc_refl.
Qed.

Lemma exit_runs (self : Connection) (w : World Ext) (ts : list pc) (t : nat) :
  ts !! t = Some Idle →
  rtc step (mkSystem w ts) (mkSystem (__exit__ self w).2 ts).
Proof.
  intros Hi. pose proof (lookup_lt_Some _ _ _ Hi) as Ht.
  unfold __exit__, bind.
  destruct (putconn (conn self) w) as [[[]|e|] w1] eqn:E1.
  - apply (idle_run _ _ _ t Hi).
    eapply rtc_l; [apply step_at; [done | by eapply step_putconn] |].
    apply rtc_once, step_at; [done |].
    eapply step_release. apply surjective_pairing.
  - simpl. apply (idle_run _ _ _ t Hi).
    apply rtc_once, step_at; [done |]. by eapply step_putconn_raise.
  - simpl. unfold putconn in E1. destruct (_pool w); [| discriminate].
    unfold bind, emit in E1. simpl in E1.
    destruct (conn self); [case_bool_decide |]; discriminate.
Qed.

Lemma bind_world {A B} (m : M Ext A) (k : A → M Ext B) (w : World Ext) :
  (∀ a w1, (k a w1).2 = w1) → (bind m k w).2 = (m w).2.
Proof. intros Hk. unfold bind. destruct (m w) as [[a|e|] w1]; simpl; auto. Qed.

Lemma body_not_blocked_query sql c (w w' : World Ext) :
  sql_execute_body sql c w ≠ (Blocked, w').
Proof.
  unfold sql_execute_body, bind, call, ret.
  repeat match goal with
         | |- context [drv_cursor ?c ?x] => destruct (drv_cursor c x) as [[?|?] ?]
         | |- context [drv_execute ?c ?s ?x] => destruct (drv_execute c s x) as [[?|?] ?]
         | |- context [drv_fetchall ?c ?x] => destruct (drv_fetchall c x) as [[?|?] ?]
         | |- context [drv_cursor_close ?c ?x] =>
             destruct (drv_cursor_close c x) as [[?|?] ?]
         end; simpl; try congruence.
Qed.

Lemma body_not_blocked_statement sql c (w w' : World Ext) :
  sql_execute_commit_body sql c w ≠ (Blocked, w').
Proof.
  unfold sql_execute_commit_body, bind, call, ret.
  repeat match goal with
         | |- context [drv_cursor ?c ?x] => destruct (drv_cursor c x) as [[?|?] ?]
         | |- context [drv_execute ?c ?s ?x] => destruct (drv_execute c s x) as [[?|?] ?]
         | |- context [drv_commit ?c ?x] => destruct (drv_commit c x) as [[?|?] ?]
         | |- context [drv_cursor_close ?c ?x] =>
             destruct (drv_cursor_close c x) as [[?|?] ?]
         end; simpl; try congruence.
Qed.

Lemma with_runs {A} (body : connection → M Ext A) (w : World Ext) (ts : list pc) (t : nat) :
  (∀ c w1 out w2, body c w1 = (out, w2) → out ≠ Blocked ∧ thread_step Idle w1 Idle w2) →
  ts !! t = Some Idle →
  rtc step (mkSystem w ts) (mkSystem (with_ __init__ body w).2 ts).
Proof.
  intros Hbody Hi. pose proof (lookup_lt_Some _ _ _ Hi) as Ht.
  pose proof (init_runs w ts t Hi) as R0.
  unfold with_, bind.
  destruct (__init__ w) as [[self|e|] w0] eqn:E0; simpl in R0; [| done | done].
  pose proof (enter_runs self w0 ts t Hi) as R1.
  destruct (__enter__ self w0) as [[[self' c]|e|] w1] eqn:E1; simpl in R1;
    [| by eapply rtc_trans | by eapply rtc_trans].
  simpl. destruct (body c w1) as [out w2] eqn:E2.
  destruct (Hbody c w1 out w2 E2) as [Hout S2].
  assert (rtc step (mkSystem w ts) (mkSystem w2 ts)) as R2.
  { eapply rtc_trans; [exact R0 |]. eapply rtc_trans; [exact R1 |].
    apply (idle_run _ _ _ t Hi). apply rtc_once, step_at; done. }
  pose proof (exit_runs self' w2 ts t Hi) as R3.
  destruct out as [a|e|]; [| | done].
  - change (rtc step (mkSystem w ts)
              (mkSystem (bind (__exit__ self') (λ _, ret a) w2).2 ts)).
    rewrite bind_world by done. by eapply rtc_trans.
  - change (rtc step (mkSystem w ts)
              (mkSystem (bind (__exit__ self') (λ _, raise (A := A) e) w2).2 ts)).
    rewrite bind_world by done. by eapply rtc_trans.
Qed.

Lemma sql_execute_commit_runs sql (w : World Ext) (ts : list pc) (t : nat) :
  ts !! t = Some Idle →
  rtc step (mkSystem w ts) (mkSystem (sql_execute_commit sql w).2 ts).
Proof.
  intros Hi. apply with_runs with (t := t); [| done].
  intros c w1 out w2 E. split.
  - intros ->. by eapply body_not_blocked_statement.
  - by eapply step_statement.
Qed.

Lemma sql_execute_runs sql (w : World Ext) (ts : list pc) (t : nat) :
  ts !! t = Some Idle →
  rtc step (mkSystem w ts) (mkSystem (sql_execute sql w).2 ts).
Proof.
  intros Hi. pose proof (lookup_lt_Some _ _ _ Hi) as Ht. unfold sql_execute.
  destruct (Py.any _).
  - apply (idle_run _ _ _ t Hi). apply rtc_once, step_at; [done |].
    by eapply step_log.
  - apply with_runs with (t := t); [| done].
    intros c w1 out w2 E. split.
    + intros ->. by eapply body_not_blocked_query.
    + by eapply step_query.
Qed.

Lemma sql_execute_values_runs sql rows ign (w : World Ext) (ts : list pc) (t : nat) :
  ts !! t = Some Idle →
  rtc step (mkSystem w ts) (mkSystem (sql_execute_values sql rows ign w).2 ts).
Proof.
  intros Hi. pose proof (lookup_lt_Some _ _ _ Hi) as Ht. unfold sql_execute_values.
  destruct (Py.truthy _).
  - by apply sql_execute_commit_runs with (t := t).
  - apply (idle_run _ _ _ t Hi). apply rtc_once, step_at; [done |].
    by eapply step_log.
Qed.

End Runs.

(** ** The lease: [__enter__], [__exit__] and the [with] block *)

Section Lease.
Context {Ext : Type} {drv : Driver Ext}.
Implicit Types w : World Ext.

Lemma append_empty_r (s : string) : s +:+ "" = s.
Proof.
  induction s as [|c s IH]; [done |].
  change (String c (s +:+ "") = String c s). by rewrite IH.
Qed.

Lemma drain_iter (rows : list row) : drain (S (length rows)) (iter rows) = (rows, iter []).
Proof.
  induction rows as [|r rows IH]; [done |].
  change (drain (S (length (r :: rows))) (iter (r :: rows)))
    with (let '(rs, it'') := drain (S (length rows)) (iter rows) in (r :: rs, it'')).
  by rewrite IH.
Qed.

Lemma enter_returned self w self' c w' :
  __enter__ self w = (Returned (self', c), w') →
  ∃ s n p x,
    _sem_remaining w = Some s ∧ sem_value s = S n ∧ _pool w = Some p
    ∧ drv_getconn (ext w) = (inr c, x) ∧ self' = mkConnection (Some c)
    ∧ w' = mkWorld (ini w) (Some (mkPool (pool_id p) (c :: pool_used p)))
             (Some (mkSemaphore (sem_id s) n)) (lock w) (built w) x
             (trace w ++ [EvAcquire; EvGetconn]).
Proof.
  unfold __enter__, bind, sem_acquire, getconn.
  destruct (_sem_remaining w) as [s|] eqn:Hs; [| discriminate].
  destruct (sem_value s) as [|n] eqn:Hv; [discriminate |].
  unfold bind, emit, set_sem_remaining, call, set_pool, ret. simpl.
  destruct (_pool w) as [p|] eqn:Hp; [| discriminate].
  destruct (drv_getconn (ext w)) as [[e|c'] x] eqn:Hg; [discriminate |].
  intros [= <- <- <-]. exists s, n, p, x. rewrite <- app_assoc. by split_and!.
Qed.

Lemma exit_returns w i j c used n :
  _pool w = Some (mkPool i (c :: used)) →
  _sem_remaining w = Some (mkSemaphore j n) →
  __exit__ (mkConnection (Some c)) w
  = (Returned tt,
     mkWorld (ini w) (Some (mkPool i used)) (Some (mkSemaphore j (S n)))
       (lock w) (built w) (ext w) (trace w ++ [EvPutconn (Some c); EvRelease])).
Proof.
  intros Hp Hs. unfold __exit__, bind, putconn. rewrite Hp.
  unfold bind, emit, set_pool. simpl.
  rewrite bool_decide_eq_true_2 by apply list_elem_of_here.
  rewrite bool_decide_eq_true_2 by done.
  unfold sem_release. simpl. rewrite Hs. unfold bind, emit, set_sem_remaining. simpl.
  by rewrite <- app_assoc.
Qed.

(** The scope of a lease: whatever the block does to the database, and
    whether it returns or raises, the connection goes back to the pool and
    the permit to the semaphore, and the outcome of the block is the
    outcome of the whole. *)
Lemma with_lease {A} (body : connection → M Ext A) w self w0 self' c w1 out w2 :
  __init__ w = (Returned self, w0) →
  __enter__ self w0 = (Returned (self', c), w1) →
  body c w1 = (out, w2) → frame w1 w2 → out ≠ Blocked →
  ∃ w3, with_ __init__ body w = (out, w3)
        ∧ _pool w3 = _pool w0 ∧ _sem_remaining w3 = _sem_remaining w0
        ∧ ini w3 = ini w0 ∧ lock w3 = lock w0 ∧ built w3 = built w0
        ∧ ext w3 = ext w2
        ∧ trace w3 = trace w2 ++ [EvPutconn (Some c); EvRelease].
Proof.
  intros E0 E1 E2 (Fi & Fp & Fs & Fl & Fb) Hout.
  unfold with_, bind. rewrite E0, E1. simpl. rewrite E2.
  apply enter_returned in E1 as (s & n & p & x & Hs & Hv & Hp & _ & -> & ->).
  simpl in *.
  destruct out as [a|e|]; [| | done]; unfold bind;
    rewrite (exit_returns w2 (pool_id p) (sem_id s) c (pool_used p) n Fp Fs);
    eexists; (split; [reflexivity |]); simpl; rewrite Hs, Hp;
    destruct p, s; simpl in *; subst; by split_and!.
Qed.

End Lease.

(** ** The SQL helpers *)

Section Helpers.
Context {Ext : Type} {drv : Driver Ext}.
Implicit Types w : World Ext.

(** the test of [sql_execute], spelled out *)
Lemma guard_spelled (sql : string) :
  Py.any (map (λ keyword, Py.contains keyword (Py.upper sql)) ["INSERT"; "UPDATE"])
  = Py.contains "INSERT" (Py.upper sql) || Py.contains "UPDATE" (Py.upper sql).
Proof. unfold Py.any. simpl. unfold id. by rewrite orb_false_r. Qed.

(** the statement [sql_execute_values] hands to [sql_execute_commit] *)
Lemma sql_execute_values_statement sql entries value_tuples ignore_duplicate w :
  sql_execute_values sql (entries :: value_tuples) ignore_duplicate w
  = sql_execute_commit
      (if ignore_duplicate
       then sql +:+ " " +:+ Py.join ", " (map render_tuple (entries :: value_tuples))
                +:+ " ON CONFLICT DO NOTHING"
       else sql) w.
Proof.
  unfold sql_execute_values. cbv zeta.
  change (map render_tuple (entries :: value_tuples))
    with (render_tuple entries :: map render_tuple value_tuples).
  rewrite (join_cons_truthy ", " (render_tuple entries) (map render_tuple value_tuples))
    by apply render_tuple_truthy.
  destruct ignore_duplicate; [done |]. by rewrite append_empty_r.
Qed.

(** C8: for the empty list of rows, [sql_execute_values] makes no database
    call, whatever the base statement and the flag: it returns at once, the
    only thing it does is log "[DATABASE] Nothing to commit"; the outside
    world, the pool, the semaphore and the lock are as before, so no lease
    was acquired and [sql_execute_commit] did not run. *)
Theorem sql_execute_values_empty sql ignore_duplicate w :
  ∃ w', sql_execute_values sql [] ignore_duplicate w = (Returned tt, w')
        ∧ trace w' = trace w ++ [EvLog INFO "[DATABASE] Nothing to commit"]
        ∧ ext w' = ext w ∧ frame w w'.
Proof.
  eexists. split; [reflexivity |]. by repeat split.
Qed.

(** C3: when the upper-cased text contains INSERT or UPDATE, [sql_execute]
    returns an empty iterator and does nothing but log an error: no lease,
    no statement executed, no exception. For every other text, when the
    lease is acquired and the driver answers, it executes the statement and
    returns all the fetched rows as an iterator that one pass exhausts; the
    lease is released before it returns (the history ends with [putconn]
    and [release], pool and semaphore are as before the lease). *)
Theorem sql_execute_guard sql w :
  (Py.contains "INSERT" (Py.upper sql) || Py.contains "UPDATE" (Py.upper sql) = true →
   ∃ w', sql_execute sql w = (Returned (iter []), w')
         ∧ (∃ msg, trace w' = trace w ++ [EvLog ERROR msg])
         ∧ ext w' = ext w ∧ frame w w')
  ∧
  (Py.contains "INSERT" (Py.upper sql) || Py.contains "UPDATE" (Py.upper sql) = false →
   ∀ self w0 self' c w1 x1 x2 rows x3 x4,
     __init__ w = (Returned self, w0) →
     __enter__ self w0 = (Returned (self', c), w1) →
     drv_cursor c (ext w1) = (inr tt, x1) →
     drv_execute c sql x1 = (inr tt, x2) →
     drv_fetchall c x2 = (inr rows, x3) →
     drv_cursor_close c x3 = (inr tt, x4) →
     ∃ w', sql_execute sql w = (Returned (iter rows), w')
           ∧ drain (S (length rows)) (iter rows) = (rows, iter [])
           ∧ _pool w' = _pool w0 ∧ _sem_remaining w' = _sem_remaining w0
           ∧ ext w' = x4
           ∧ trace w' = trace w0 ++ [EvAcquire; EvGetconn; EvCursor c; EvExecute c sql;
                                     EvFetchall c; EvCursorClose c;
                                     EvPutconn (Some c); EvRelease]).
Proof.
  split; intros G; unfold sql_execute; rewrite guard_spelled, G.
  - eexists. split; [reflexivity |]. split; [by eexists |]. by repeat split.
  - intros self w0 self' c w1 x1 x2 rows x3 x4 E0 E1 C1 C2 C3 C4.
    assert (sql_execute_body sql c w1
            = (Returned (iter rows),
               mkWorld (ini w1) (_pool w1) (_sem_remaining w1) (lock w1) (built w1) x4
                 (trace w1 ++ [EvCursor c; EvExecute c sql; EvFetchall c; EvCursorClose c])))
      as E2.
    { unfold sql_execute_body, bind, call, ret. rewrite C1. simpl. rewrite C2. simpl.
      rewrite C3. simpl. rewrite C4. simpl. by rewrite <- !app_assoc. }
    destruct (with_lease (sql_execute_body sql) w self w0 self' c w1 _ _ E0 E1 E2)
      as (w3 & E3 & Hp & Hs & _ & _ & _ & Hx & Ht); [by repeat split | done |].
    exists w3. split_and!; try done; [apply drain_iter |].
    rewrite Ht. simpl.
    apply enter_returned in E1 as (? & ? & ? & ? & _ & _ & _ & _ & _ & ->). simpl.
    by rewrite <- !app_assoc.
Qed.

(** when the block of [sql_execute_commit] raises: the execution of the
    statement fails, or the commit does *)
Lemma statement_raises sql c w x1 x2 e :
  drv_cursor c (ext w) = (inr tt, x1) →
  drv_execute c sql x1 = (inl e, x2) →
  sql_execute_commit_body sql c w
  = (Raised e, mkWorld (ini w) (_pool w) (_sem_remaining w) (lock w) (built w) x2
                 (trace w ++ [EvCursor c; EvExecute c sql])).
Proof.
  intros C1 C2. unfold sql_execute_commit_body, bind, call. rewrite C1. simpl.
  rewrite C2. simpl. by rewrite <- !app_assoc.
Qed.

Lemma commit_raises sql c w x1 x2 x3 e :
  drv_cursor c (ext w) = (inr tt, x1) →
  drv_execute c sql x1 = (inr tt, x2) →
  drv_commit c x2 = (inl e, x3) →
  sql_execute_commit_body sql c w
  = (Raised e, mkWorld (ini w) (_pool w) (_sem_remaining w) (lock w) (built w) x3
                 (trace w ++ [EvCursor c; EvExecute c sql; EvCommit c])).
Proof.
  intros C1 C2 C3. unfold sql_execute_commit_body, bind, call. rewrite C1. simpl.
  rewrite C2. simpl. rewrite C3. simpl. by rewrite <- !app_assoc.
Qed.

(** when the block of [sql_execute] raises: the execution of the query
    fails *)
Lemma query_raises sql c w x1 x2 e :
  drv_cursor c (ext w) = (inr tt, x1) →
  drv_execute c sql x1 = (inl e, x2) →
  sql_execute_body sql c w
  = (Raised e, mkWorld (ini w) (_pool w) (_sem_remaining w) (lock w) (built w) x2
                 (trace w ++ [EvCursor c; EvExecute c sql])).
Proof.
  intros C1 C2. unfold sql_execute_body, bind, call. rewrite C1. simpl.
  rewrite C2. simpl. by rewrite <- !app_assoc.
Qed.

Lemma enter_trace self w self' c w' :
  __enter__ self w = (Returned (self', c), w') →
  trace w' = trace w ++ [EvAcquire; EvGetconn].
Proof. intros E. by apply enter_returned in E as (?&?&?&?&_&_&_&_&_&->). Qed.

(** C2: once the lease is acquired, the block of [sql_execute_commit] and
    of [sql_execute] is left through [__exit__] on every path: whatever
    the outcome of the block, it is the outcome of the function, the
    history ends with [putconn] and [release], and the pool and the
    semaphore are what they were before the lease. In particular, when the
    execution of the statement raises, or the commit does, that same error
    reaches the caller, after the connection went back to the pool and the
    permit to the semaphore. *)
Theorem lease_released_on_error sql w self w0 self' c w1 :
  __init__ w = (Returned self, w0) →
  __enter__ self w0 = (Returned (self', c), w1) →
  (∀ out w2, sql_execute_commit_body sql c w1 = (out, w2) →
     ∃ w3, sql_execute_commit sql w = (out, w3)
           ∧ _pool w3 = _pool w0 ∧ _sem_remaining w3 = _sem_remaining w0
           ∧ trace w3 = trace w2 ++ [EvPutconn (Some c); EvRelease])
  ∧
  (∀ out w2,
     Py.contains "INSERT" (Py.upper sql) || Py.contains "UPDATE" (Py.upper sql) = false →
     sql_execute_body sql c w1 = (out, w2) →
     ∃ w3, sql_execute sql w = (out, w3)
           ∧ _pool w3 = _pool w0 ∧ _sem_remaining w3 = _sem_remaining w0
           ∧ trace w3 = trace w2 ++ [EvPutconn (Some c); EvRelease])
  ∧
  (∀ e x1 x2,
     drv_cursor c (ext w1) = (inr tt, x1) → drv_execute c sql x1 = (inl e, x2) →
     ∃ w3, sql_execute_commit sql w = (Raised e, w3)
           ∧ _pool w3 = _pool w0 ∧ _sem_remaining w3 = _sem_remaining w0
           ∧ trace w3 = trace w0 ++ [EvAcquire; EvGetconn; EvCursor c; EvExecute c sql;
                                     EvPutconn (Some c); EvRelease])
  ∧
  (∀ e x1 x2 x3,
     drv_cursor c (ext w1) = (inr tt, x1) → drv_execute c sql x1 = (inr tt, x2) →
     drv_commit c x2 = (inl e, x3) →
     ∃ w3, sql_execute_commit sql w = (Raised e, w3)
           ∧ _pool w3 = _pool w0 ∧ _sem_remaining w3 = _sem_remaining w0
           ∧ trace w3 = trace w0 ++ [EvAcquire; EvGetconn; EvCursor c; EvExecute c sql;
                                     EvCommit c; EvPutconn (Some c); EvRelease])
  ∧
  (∀ e x1 x2,
     Py.contains "INSERT" (Py.upper sql) || Py.contains "UPDATE" (Py.upper sql) = false →
     drv_cursor c (ext w1) = (inr tt, x1) → drv_execute c sql x1 = (inl e, x2) →
     ∃ w3, sql_execute sql w = (Raised e, w3)
           ∧ _pool w3 = _pool w0 ∧ _sem_remaining w3 = _sem_remaining w0
           ∧ trace w3 = trace w0 ++ [EvAcquire; EvGetconn; EvCursor c; EvExecute c sql;
                                     EvPutconn (Some c); EvRelease]).
Proof.
  intros E0 E1.
  assert (∀ out w2, sql_execute_commit_body sql c w1 = (out, w2) →
     ∃ w3, sql_execute_commit sql w = (out, w3)
           ∧ _pool w3 = _pool w0 ∧ _sem_remaining w3 = _sem_remaining w0
           ∧ trace w3 = trace w2 ++ [EvPutconn (Some c); EvRelease]) as Hcommit.
  { intros out w2 E2.
    destruct (with_lease (sql_execute_commit_body sql) w self w0 self' c w1 _ _ E0 E1 E2)
      as (w3 & E3 & Hp & Hs & _ & _ & _ & _ & Ht);
      [by eapply sql_execute_commit_body_frame
      | intros ->; by eapply body_not_blocked_statement |].
    by exists w3. }
  assert (∀ out w2,
     Py.contains "INSERT" (Py.upper sql) || Py.contains "UPDATE" (Py.upper sql) = false →
     sql_execute_body sql c w1 = (out, w2) →
     ∃ w3, sql_execute sql w = (out, w3)
           ∧ _pool w3 = _pool w0 ∧ _sem_remaining w3 = _sem_remaining w0
           ∧ trace w3 = trace w2 ++ [EvPutconn (Some c); EvRelease]) as Hquery.
  { intros out w2 G E2. unfold sql_execute. rewrite guard_spelled, G.
    destruct (with_lease (sql_execute_body sql) w self w0 self' c w1 _ _ E0 E1 E2)
      as (w3 & E3 & Hp & Hs & _ & _ & _ & _ & Ht);
      [by eapply sql_execute_body_frame
      | intros ->; by eapply body_not_blocked_query |].
    by exists w3. }
  pose proof (enter_trace _ _ _ _ _ E1) as T1.
  split_and!; [exact Hcommit | exact Hquery | | |].
  - intros e x1 x2 C1 C2.
    destruct (Hcommit _ _ (statement_raises sql c w1 x1 x2 e C1 C2))
      as (w3 & E3 & Hp & Hs & Ht).
    exists w3. split_and!; try done. rewrite Ht. simpl. rewrite T1.
    by rewrite <- !app_assoc.
  - intros e x1 x2 x3 C1 C2 C3.
    destruct (Hcommit _ _ (commit_raises sql c w1 x1 x2 x3 e C1 C2 C3))
      as (w3 & E3 & Hp & Hs & Ht).
    exists w3. split_and!; try done. rewrite Ht. simpl. rewrite T1.
    by rewrite <- !app_assoc.
  - intros e x1 x2 G C1 C2.
    destruct (Hquery _ _ G (query_raises sql c w1 x1 x2 e C1 C2))
      as (w3 & E3 & Hp & Hs & Ht).
    exists w3. split_and!; try done. rewrite Ht. simpl. rewrite T1.
    by rewrite <- !app_assoc.
Qed.

End Helpers.

(** ** The pool singleton *)

Section Singleton.
Context {Ext : Type} {drv : Driver Ext}.
Implicit Types w : World Ext.

(** a later [Connection()] finds the pool and changes nothing *)
Lemma init_again w p :
  _pool w = Some p → lock w = false →
  __init__ w = (Returned (mkConnection None), w).
Proof.
  intros Hp Hl. unfold __init__, synchronized, bind, lock_acquire. rewrite Hl.
  unfold set_lock, init_body. simpl. rewrite Hp. simpl.
  destruct w; simpl in *; by subst.
Qed.

(** the first [Connection()], when the pool can be built and [maxconn]
    reads as [n] *)
Lemma init_first w x n :
  _pool w = None → lock w = false →
  pool_init (parse [] (ini w)) (ext w) = (inr tt, x) →
  (∀ w', int_maxconn (parse [] (ini w)) w' = (Returned n, w')) → 0 ≤ n →
  __init__ w
  = (Returned (mkConnection None),
     mkWorld (ini w) (Some (mkPool (built w) []))
       (Some (mkSemaphore (S (built w)) (Z.to_nat n))) false (S (S (built w))) x
       (trace w ++ [EvPoolNew (parse [] (ini w)); EvSemaphoreNew n])).
Proof.
  intros Hp Hl Hnew Hint Hn.
  unfold __init__, synchronized, bind, lock_acquire. rewrite Hl.
  unfold set_lock, init_body. simpl. rewrite Hp.
  unfold bind, init_pool, config, bind, ThreadedConnectionPool_new, bind, call. simpl.
  rewrite Hnew. simpl.
  unfold init_sem_remaining, config, bind. simpl. rewrite Hint.
  unfold Semaphore_new, bind, emit. simpl.
  destruct (Z.ltb_spec n 0) as [|_]; [lia |]. simpl. by rewrite <- app_assoc.
Qed.

(** the first [Connection()], when the pool cannot be built *)
Lemma init_pool_fails w e x :
  _pool w = None → lock w = false →
  pool_init (parse [] (ini w)) (ext w) = (inl e, x) →
  __init__ w
  = (Raised e,
     mkWorld (ini w) None (_sem_remaining w) false (built w) x
       (trace w ++ [EvPoolNew (parse [] (ini w))])).
Proof.
  intros Hp Hl Hnew.
  unfold __init__, synchronized, bind, lock_acquire. rewrite Hl.
  unfold set_lock, init_body. simpl. rewrite Hp.
  unfold bind, init_pool, config, bind, ThreadedConnectionPool_new, bind, call. simpl.
  by rewrite Hnew.
Qed.

(** a [Connection()] that finds no pool starts by building one *)
Lemma init_builds_pool w out w' :
  _pool w = None → lock w = false → __init__ w = (out, w') →
  ∃ rest, trace w' = trace w ++ EvPoolNew (parse [] (ini w)) :: rest.
Proof.
  intros Hp Hl.
  unfold __init__, synchronized, bind, lock_acquire. rewrite Hl.
  unfold set_lock, init_body. simpl. rewrite Hp.
  unfold bind, init_pool, config, bind, ThreadedConnectionPool_new, bind, call. simpl.
  destruct (pool_init (parse [] (ini w)) (ext w)) as [[e|[]] x]; simpl.
  - intros [= <- <-]. by exists [].
  - destruct (init_sem_remaining _) as [o w1] eqn:E.
    unfold init_sem_remaining, config, bind in E. simpl in E.
    destruct (int_maxconn (parse [] (ini w)) _) as [o' w2] eqn:E'.
    apply int_maxconn_inv in E' as [-> [(n & -> & _) | (e & ->)]].
    + unfold Semaphore_new, bind, emit in E. simpl in E.
      destruct (n <? 0); injection E as <- <-; simpl; intros [= <- <-]; simpl;
        rewrite <- app_assoc; by eexists.
    + injection E as <- <-. simpl. intros [= <- <-]. by exists [].
Qed.

(** C5: when the pool cannot be built (the constructor finds a required
    field missing or not a number, or cannot connect), [Connection()]
    raises that error and installs nothing: pool and semaphore are still
    absent, the lock is free, no object was built. The next [Connection()]
    starts over: it calls the pool constructor again, and installs the pool
    if that call now succeeds. *)
Theorem init_failure_installs_nothing w e x :
  _pool w = None → _sem_remaining w = None → lock w = false →
  pool_init (parse [] (ini w)) (ext w) = (inl e, x) →
  ∃ w', __init__ w = (Raised e, w')
        ∧ _pool w' = None ∧ _sem_remaining w' = None ∧ lock w' = false
        ∧ built w' = built w ∧ ini w' = ini w
        ∧ (∀ out w'', __init__ w' = (out, w'') →
             ∃ rest, trace w'' = trace w' ++ EvPoolNew (parse [] (ini w)) :: rest)
        ∧ (∀ x', pool_init (parse [] (ini w)) (ext w') = (inr tt, x') →
             ∃ p, _pool (__init__ w').2 = Some p).
Proof.
  intros Hp Hs Hl Hnew. eexists. split; [by apply init_pool_fails |].
  simpl. split_and!; try done.
  - intros out w'' E. by apply init_builds_pool in E.
  - intros x' Hnew'. simpl in Hnew'.
    unfold __init__, synchronized, bind, lock_acquire, set_lock, init_body. simpl.
    unfold bind, init_pool, config, bind, ThreadedConnectionPool_new, bind, call. simpl.
    rewrite Hnew'. simpl.
    destruct (init_sem_remaining _) as [o w1] eqn:E.
    apply init_sem_remaining_effect in E as (_ & Hp1 & _ & [(-> & _)|(e1 & -> & _)]);
      simpl in *; eauto.
Qed.

(** a pool constructor that returned was given a [maxconn] that reads as
    an integer *)
Lemma pool_init_returned (kwargs : params) (x x' : Ext) :
  pool_init kwargs x = (inr tt, x') →
  ∃ text n, kwargs !! "maxconn" = Some text ∧ Py.int text = Some n.
Proof.
  unfold pool_init.
  destruct (kwargs !! "minconn") as [a|], (kwargs !! "maxconn") as [b|] eqn:Hb;
    try discriminate.
  destruct (Py.int a), (Py.int b) as [n|] eqn:Hn; try discriminate.
  intros _. by exists b, n.
Qed.

(** without [maxconn] the pool constructor raises before it reaches the
    driver *)
Lemma pool_init_without_maxconn (kwargs : params) (x : Ext) :
  kwargs !! "maxconn" = None → ∃ msg, pool_init kwargs x = (inl (TypeError msg), x).
Proof.
  intros Hm. unfold pool_init. rewrite Hm.
  destruct (kwargs !! "minconn"); by eexists.
Qed.

(** C7: what the code does. On the first construction the semaphore gets
    as many permits as [maxconn] says, read as an integer; a pool
    constructor that returned was given such a [maxconn]. The default of 4
    on line 33 is never applied: without [maxconn] the pool constructor on
    line 32, which requires it, raises [TypeError]; line 33 does not run
    and no semaphore is built. *)
Theorem semaphore_permits w :
  _pool w = None → lock w = false →
  (∀ x, pool_init (parse [] (ini w)) (ext w) = (inr tt, x) →
     ∃ text n, ini w !! "maxconn" = Some text ∧ Py.int text = Some n
       ∧ (0 ≤ n →
          ∃ self w' s, __init__ w = (Returned self, w')
                       ∧ _sem_remaining w' = Some s ∧ Z.of_nat (sem_value s) = n))
  ∧
  (ini w !! "maxconn" = None →
     ∃ msg w', __init__ w = (Raised (TypeError msg), w')
               ∧ _pool w' = None ∧ _sem_remaining w' = _sem_remaining w
               ∧ ext w' = ext w
               ∧ trace w' = trace w ++ [EvPoolNew (parse [] (ini w))]).
Proof.
  intros Hp Hl. split.
  - intros x Hnew.
    destruct (pool_init_returned _ _ _ Hnew) as (text & n & Hm & Hi).
    rewrite parse_nil in Hm. exists text, n. split_and!; [done | done |].
    intros Hn. do 3 eexists. split.
    { apply init_first with (n := n); try done.
      intros w'. unfold int_maxconn. by rewrite parse_nil, Hm, Hi. }
    split; [reflexivity |]. simpl. lia.
  - intros Hm.
    destruct (pool_init_without_maxconn (parse [] (ini w)) (ext w)) as (msg & Hnew);
      [by rewrite parse_nil |].
    exists msg. eexists. split; [by apply init_pool_fails |]. by split_and!.
Qed.

(** the pool is built, the semaphore is not: [maxconn] is negative *)
Lemma init_semaphore_fails w x text n :
  _pool w = None → lock w = false →
  pool_init (parse [] (ini w)) (ext w) = (inr tt, x) →
  ini w !! "maxconn" = Some text → Py.int text = Some n → n < 0 →
  ∃ e w', __init__ w = (Raised e, w')
          ∧ _pool w' = Some (mkPool (built w) []) ∧ _sem_remaining w' = _sem_remaining w.
Proof.
  intros Hp Hl Hnew Hm Hi Hn.
  unfold __init__, synchronized, bind, lock_acquire. rewrite Hl.
  unfold set_lock, init_body. simpl. rewrite Hp.
  unfold bind, init_pool, config, bind, ThreadedConnectionPool_new, bind, call. simpl.
  rewrite Hnew. simpl.
  unfold init_sem_remaining, config, bind, int_maxconn. simpl. rewrite parse_nil, Hm, Hi.
  unfold Semaphore_new, bind, emit, ret. simpl.
  destruct (Z.ltb_spec n 0) as [_|]; [| lia]. simpl. by do 2 eexists.
Qed.

(** C9: [__call__] opens a connection with the configured parameters,
    [minconn] and [maxconn] left out, and whatever the caller adds; it
    returns what [psycopg2.connect] returns. The pool (with its
    checked-out connections), the semaphore, the lock and the object count
    are untouched, and the only call made is the one to [connect]. *)
Theorem raw_connection_bypasses_pool args kwargs w :
  parse ["minconn"; "maxconn"] (ini w) ##ₘ kwargs →
  ∃ kw w',
    __call__ args kwargs w
    = (match (drv_connect args kw (ext w)).1 with
       | inl e => Raised e
       | inr c => Returned c
       end, w')
    ∧ kw = parse ["minconn"; "maxconn"] (ini w) ∪ kwargs
    ∧ (∀ k, parse ["minconn"; "maxconn"] (ini w) !! k
            = if bool_decide (k ∈ ["minconn"; "maxconn"]) then None else ini w !! k)
    ∧ trace w' = trace w ++ [EvConnect args kw]
    ∧ _pool w' = _pool w ∧ _sem_remaining w' = _sem_remaining w
    ∧ lock w' = lock w ∧ built w' = built w.
Proof.
  intros Hd. unfold __call__, merge_kwargs, bind, call, ret.
  rewrite bool_decide_eq_true_2 by done.
  destruct (drv_connect args _ (ext w)) as [r x] eqn:E.
  do 2 eexists. split; [rewrite E; reflexivity |].
  split_and!; try done. intros k. apply parse_lookup.
Qed.

End Singleton.

(** ** Many threads *)

Section Concurrency.
Context {Ext : Type} {drv : Driver Ext}.
Implicit Types w : World Ext.

Lemma start_reach_inv section (x : Ext) n sys :
  rtc step (start section x n) sys → inv sys ∧ ini (world sys) = section.
Proof.
  intros R. split; [by eapply inv_reach; [apply inv_start |] |].
  by destruct (reach_keeps _ _ (inv_start section x n) R) as [-> _].
Qed.

Lemma exit_returned self w w' :
  __exit__ self w = (Returned tt, w') →
  permits w' = S (permits w) ∧ leases w = S (leases w')
  ∧ trace w' = trace w ++ [EvPutconn (conn self); EvRelease].
Proof.
  unfold __exit__, bind.
  destruct (putconn (conn self) w) as [[[]|e|] w1] eqn:E1; [| discriminate | discriminate].
  intros E2.
  apply putconn_returned in E1
    as ((c' & p & Hc & Hin & Hp & Hp1) & _ & Hs1 & _ & _ & _ & Ht1).
  unfold sem_release in E2. destruct (_sem_remaining w1) as [s|] eqn:Hs; [| discriminate].
  injection E2 as <-. unfold permits, leases. simpl.
  rewrite <- Hs1, Hp, Hp1, Ht1. simpl.
  rewrite <- app_assoc. split_and!; try done.
  by rewrite (check_in_length c' (pool_used p) Hin).
Qed.

(** C4: in whatever order the threads run, once the pool and the
    semaphore are in place every later state holds the same two objects
    (same identities), and no further object is built: exactly two were,
    one pool and one semaphore. A later [Connection()] returns with the
    process unchanged; the first one, when it returns, installs both. *)
Theorem pool_singleton_built_once section (x : Ext) n sys sys' p s :
  rtc step (start section x n) sys →
  _pool (world sys) = Some p → _sem_remaining (world sys) = Some s →
  rtc step sys sys' →
  (∃ p' s', _pool (world sys') = Some p' ∧ pool_id p' = pool_id p
            ∧ _sem_remaining (world sys') = Some s' ∧ sem_id s' = sem_id s)
  ∧ built (world sys') = built (world sys) ∧ built (world sys) = 2%nat
  ∧ (lock (world sys') = false →
     ∃ self, __init__ (world sys') = (Returned self, world sys'))
  ∧ (∀ w self w', _pool w = None → _sem_remaining w = None →
       __init__ w = (Returned self, w') →
       is_Some (_pool w') ∧ is_Some (_sem_remaining w') ∧ built w' = S (S (built w))).
Proof.
  intros R Hp Hs R'.
  destruct (start_reach_inv _ _ _ _ R) as [I _].
  destruct (reach_keeps _ _ I R') as [_ K].
  destruct (K s Hs) as ((s' & Hs' & Hsid) & (p0 & p' & Hp0 & Hp' & Hpid) & Hb & _).
  simplify_eq. split_and!.
  - by exists p', s'.
  - done.
  - rewrite (inv_built _ I). unfold installed. by rewrite Hp, Hs.
  - intros Hl. eexists. by eapply init_again.
  - intros w self w' Hpw Hsw E.
    unfold __init__, synchronized, bind in E.
    destruct (lock_acquire w) as [[[]|e|] w1] eqn:E1; [| discriminate | discriminate].
    apply lock_acquire_returned in E1 as (_ & _ & _ & Hp1 & Hs1 & Hb1 & _).
    destruct (init_body w1) as [[a|e|] w2] eqn:E2; [| discriminate | discriminate].
    unfold bind, lock_release, set_lock, ret in E. simpl in E. injection E as <- <-. simpl.
    unfold init_body in E2. rewrite Hp1, Hpw in E2. unfold bind in E2.
    destruct (init_pool w1) as [[[]|e|] w3] eqn:E3; [| discriminate | discriminate].
    destruct (init_sem_remaining w3) as [[[]|e|] w4] eqn:E4; [| discriminate | discriminate].
    injection E2 as <- <-.
    apply init_pool_effect in E3 as (_ & _ & _ & [(_ & Hp3 & Hb3)|(? & ? & _)]); [| done].
    apply init_sem_remaining_effect in E4
      as (_ & Hp4 & _ & [(_ & Hb4 & Hs4)|(? & ? & _)]); [| done].
    rewrite Hp4, Hp3, Hs4, Hb4, Hb3, Hb1. by split_and!.
Qed.

(** C6: in every state the threads can reach, the connections checked
    out are at most the configured maximum; free permits, checked-out
    connections and the threads half-way through [__enter__] or [__exit__]
    together never exceed it. An [__enter__] that returns took one permit,
    then one connection; an [__exit__] that returns gave the connection
    back, then the permit. In every such state an [__enter__] does return
    when a permit is free and the driver hands out a connection, and the
    [__exit__] of a connection that is checked out does return: the
    connection is back in the pool and one more permit is free. *)
Theorem leases_never_exceed_maxconn section (x : Ext) n sys :
  rtc step (start section x n) sys →
  (leases (world sys) ≤ capacity section)%nat
  ∧ (permits (world sys) + leases (world sys)
     + tally in_enter (threads sys) + tally in_exit (threads sys)
     ≤ capacity section)%nat
  ∧ (∀ self w self' c w',
       __enter__ self w = (Returned (self', c), w') →
       permits w = S (permits w') ∧ leases w' = S (leases w)
       ∧ trace w' = trace w ++ [EvAcquire; EvGetconn])
  ∧ (∀ self w w',
       __exit__ self w = (Returned tt, w') →
       permits w' = S (permits w) ∧ leases w = S (leases w')
       ∧ trace w' = trace w ++ [EvPutconn (conn self); EvRelease])
  ∧ (∀ self c x',
       (0 < permits (world sys))%nat →
       drv_getconn (ext (world sys)) = (inr c, x') →
       ∃ w', __enter__ self (world sys) = (Returned (mkConnection (Some c), c), w')
             ∧ S (permits w') = permits (world sys)
             ∧ leases w' = S (leases (world sys))
             ∧ trace w' = trace (world sys) ++ [EvAcquire; EvGetconn])
  ∧ (∀ p c,
       _pool (world sys) = Some p → c ∈ pool_used p →
       ∃ w', __exit__ (mkConnection (Some c)) (world sys) = (Returned tt, w')
             ∧ _pool w' = Some (mkPool (pool_id p) (check_in c (pool_used p)))
             ∧ permits w' = S (permits (world sys))
             ∧ S (leases w') = leases (world sys)
             ∧ trace w' = trace (world sys) ++ [EvPutconn (Some c); EvRelease]).
Proof.
  intros R. destruct (start_reach_inv _ _ _ _ R) as [I Hini].
  pose proof (inv_account _ I) as A.
  assert (limit (world sys) ≤ capacity section)%nat as L.
  { unfold limit. rewrite Hini. destruct (_sem_remaining (world sys)); lia. }
  split_and!; [lia | lia | | | |].
  - intros self w self' c w' E.
    apply enter_returned in E as (s & k & p & x' & Hs & Hv & Hp & _ & _ & ->).
    unfold permits, leases. simpl. by rewrite Hs, Hp, Hv.
  - apply exit_returned.
  - intros self c x' Hfree Hg. unfold permits in Hfree.
    destruct (_sem_remaining (world sys)) as [s|] eqn:Hs; [| lia].
    destruct (sem_value s) as [|k] eqn:Hv; [lia |].
    destruct (_pool (world sys)) as [p|] eqn:Hp;
      [| apply (inv_pool_first _ I) in Hp; congruence].
    eexists. split.
    { unfold __enter__, bind, sem_acquire. rewrite Hs, Hv.
      unfold bind, emit, set_sem_remaining, getconn. simpl. rewrite Hp.
      unfold bind, call, set_pool, ret. simpl. rewrite Hg. simpl. reflexivity. }
    unfold permits, leases. simpl. rewrite Hs, Hp, Hv, <- app_assoc. by split_and!.
  - intros p c Hp Hc.
    assert (1 ≤ length (pool_used p))%nat as Hlen.
    { destruct (pool_used p); [by apply elem_of_nil in Hc | simpl; lia]. }
    unfold leases, limit in A. rewrite Hp in A.
    destruct (_sem_remaining (world sys)) as [s|] eqn:Hs; [| lia].
    eexists. split.
    { unfold __exit__, bind, putconn. rewrite Hp.
      unfold bind, emit, set_pool. simpl.
      rewrite bool_decide_eq_true_2 by done.
      unfold sem_release. simpl. rewrite Hs. unfold bind, emit, set_sem_remaining. simpl.
      reflexivity. }
    unfold permits, leases. simpl. rewrite Hs, Hp, <- app_assoc.
    split_and!; try done. by rewrite (check_in_length c (pool_used p) Hc).
Qed.

(** C10: when [getconn] raises inside [__enter__], the permit taken just
    before is not given back: the semaphore has one permit less, no
    connection is checked out, and the history shows the acquire and no
    release. Since [__exit__] does not run when [__enter__] raises, the
    same holds of a whole [sql_execute_commit]. The loss is permanent:
    whatever the threads do afterwards, permits and leases together stay
    below what they were. *)
Theorem failed_getconn_leaks_permit self w s k p e x :
  _sem_remaining w = Some s → sem_value s = S k → _pool w = Some p →
  drv_getconn (ext w) = (inl e, x) →
  (∃ w', __enter__ self w = (Raised e, w')
         ∧ _sem_remaining w' = Some (mkSemaphore (sem_id s) k) ∧ _pool w' = Some p
         ∧ S (permits w') = permits w ∧ leases w' = leases w
         ∧ trace w' = trace w ++ [EvAcquire; EvGetconn])
  ∧ (lock w = false → ∀ sql,
     ∃ w', sql_execute_commit sql w = (Raised e, w')
           ∧ S (permits w') = permits w ∧ leases w' = leases w
           ∧ trace w' = trace w ++ [EvAcquire; EvGetconn])
  ∧ (∀ section x0 n ts t sys',
       rtc step (start section x0 n) (mkSystem w ts) → ts !! t = Some Idle →
       rtc step (mkSystem (__enter__ self w).2 ts) sys' →
       (S (permits (world sys') + leases (world sys')
           + tally in_enter (threads sys') + tally in_exit (threads sys'))
        ≤ permits w + leases w + tally in_enter ts + tally in_exit ts)%nat).
Proof.
  intros Hs Hv Hp Hg.
  assert (∀ self0, __enter__ self0 w
          = (Raised e,
             mkWorld (ini w) (Some p) (Some (mkSemaphore (sem_id s) k)) (lock w) (built w) x
               (trace w ++ [EvAcquire; EvGetconn]))) as E.
  { intros self0. unfold __enter__, bind, sem_acquire. rewrite Hs, Hv.
    unfold bind, emit, set_sem_remaining, getconn. simpl. rewrite Hp.
    unfold bind, call. simpl. rewrite Hg. by rewrite <- app_assoc. }
  split_and!.
  - eexists. split; [apply E |]. unfold permits, leases. simpl. rewrite Hs, Hp, Hv.
    by split_and!.
  - intros Hl sql. unfold sql_execute_commit, with_, bind.
    rewrite (init_again w p Hp Hl), E.
    eexists. split; [reflexivity |]. unfold permits, leases. simpl.
    rewrite Hs, Hp, Hv. by split_and!.
  - intros section x0 n ts t sys' R Hi R'.
    destruct (start_reach_inv _ _ _ _ R) as [I _].
    pose proof (inv_reach _ _ I (enter_runs self w ts t Hi)) as I'.
    destruct (reach_keeps _ _ I' R') as [_ K].
    rewrite E in K, R'. simpl in K.
    destruct (K _ eq_refl) as (_ & _ & _ & A).
    unfold permits, leases in *. simpl in A. rewrite Hs, Hp, Hv. lia.
Qed.

End Concurrency.

(** ** The theorems at work on the test driver *)

(** C1: what the code does. With [ignore_duplicate] false the statement
    handed to [sql_execute_commit] is the base statement alone: the
    conditional expression on line 105 takes the whole right-hand side, so
    the rendered tuples are dropped together with the conflict clause. With
    the flag true the statement is the base statement, the tuples in input
    order separated by commas, and the clause. *)
Theorem sql_execute_values_without_ignore_duplicate :
  (∀ Ext (drv : Driver Ext) sql entries value_tuples (w : World Ext),
     sql_execute_values sql (entries :: value_tuples) false w = sql_execute_commit sql w)
  ∧ (sql_execute_values "INSERT INTO t(a,b) VALUES" test_rows false test_boot).1 = Returned tt
  ∧ statements (ext (sql_execute_values "INSERT INTO t(a,b) VALUES" test_rows false test_boot).2)
    = ["INSERT INTO t(a,b) VALUES"]
  ∧ statements (ext (sql_execute_values "INSERT INTO t(a,b) VALUES" test_rows true test_boot).2)
    = ["INSERT INTO t(a,b) VALUES (1, 'x'), (2, 'y') ON CONFLICT DO NOTHING"].
Proof.
  split_and!; [| vm_compute; reflexivity ..].
  intros. by rewrite sql_execute_values_statement.
Qed.

Lemma test_ready_init : __init__ test_boot = (Returned (mkConnection None), test_ready).
Proof. vm_compute; reflexivity. Qed.

Lemma test_leased_enter :
  __enter__ (mkConnection None) test_ready = (Returned (mkConnection (Some 0%nat), 0%nat), test_leased).
Proof. vm_compute; reflexivity. Qed.

Lemma lease_released_on_error_witness :
  __init__ test_boot = (Returned (mkConnection None), test_ready)
  ∧ __enter__ (mkConnection None) test_ready
    = (Returned (mkConnection (Some 0%nat), 0%nat), test_leased)
  ∧ drv_execute 0%nat "BAD" (ext test_leased)
    = (inl (DriverError "syntax error"), ext test_leased)
  ∧ drv_commit 0%nat (mkTestDb true 1 ["DEFERRED"])
    = (inl (DriverError "constraint violated at commit"), mkTestDb true 1 ["DEFERRED"])
  ∧ (∃ w3, sql_execute_commit "BAD" test_boot = (Raised (DriverError "syntax error"), w3)
           ∧ _pool w3 = _pool test_ready ∧ _sem_remaining w3 = _sem_remaining test_ready
           ∧ trace w3 = trace test_ready
                        ++ [EvAcquire; EvGetconn; EvCursor 0%nat; EvExecute 0%nat "BAD";
                            EvPutconn (Some 0%nat); EvRelease])
  ∧ (∃ w3, sql_execute_commit "DEFERRED" test_boot
           = (Raised (DriverError "constraint violated at commit"), w3)
           ∧ _pool w3 = _pool test_ready ∧ _sem_remaining w3 = _sem_remaining test_ready
           ∧ trace w3 = trace test_ready
                        ++ [EvAcquire; EvGetconn; EvCursor 0%nat; EvExecute 0%nat "DEFERRED";
                            EvCommit 0%nat; EvPutconn (Some 0%nat); EvRelease])
  ∧ (∃ w3, sql_execute "select BAD" test_boot = (Raised (DriverError "syntax error"), w3)
           ∧ _pool w3 = _pool test_ready ∧ _sem_remaining w3 = _sem_remaining test_ready
           ∧ trace w3 = trace test_ready
                        ++ [EvAcquire; EvGetconn; EvCursor 0%nat;
                            EvExecute 0%nat "select BAD";
                            EvPutconn (Some 0%nat); EvRelease]).
Proof.
  pose proof (lease_released_on_error "BAD" test_boot _ _ _ _ _
                test_ready_init test_leased_enter) as (_ & _ & H1 & _ & _).
  pose proof (lease_released_on_error "DEFERRED" test_boot _ _ _ _ _
                test_ready_init test_leased_enter) as (_ & _ & _ & H2 & _).
  pose proof (lease_released_on_error "select BAD" test_boot _ _ _ _ _
                test_ready_init test_leased_enter) as (_ & _ & _ & _ & H3).
  split_and!; [exact test_ready_init | exact test_leased_enter
              | vm_compute; reflexivity | vm_compute; reflexivity | | |].
  - apply (H1 (DriverError "syntax error") (ext test_leased) (ext test_leased));
      vm_compute; reflexivity.
  - apply (H2 (DriverError "constraint violated at commit") (ext test_leased)
             (mkTestDb true 1 ["DEFERRED"]) (mkTestDb true 1 ["DEFERRED"]));
      vm_compute; reflexivity.
  - apply (H3 (DriverError "syntax error") (ext test_leased) (ext test_leased));
      vm_compute; reflexivity.
Defined.

Lemma sql_execute_guard_witness :
  (∃ w', sql_execute "update t set a = 1" test_boot = (Returned (iter []), w')
         ∧ (∃ msg, trace w' = [EvLog ERROR msg])
         ∧ ext w' = ext test_boot ∧ frame test_boot w')
  ∧ Py.upper "select * from ınsert_log" = "SELECT * FROM INSERT_LOG"
  ∧ (∃ w', sql_execute "select * from ınsert_log" test_boot = (Returned (iter []), w')
           ∧ (∃ msg, trace w' = [EvLog ERROR msg])
           ∧ ext w' = ext test_boot ∧ frame test_boot w')
  ∧ (∃ w', sql_execute "select * from pg_tables" test_boot = (Returned (iter test_rows), w')
           ∧ drain 3 (iter test_rows) = (test_rows, iter [])
           ∧ _pool w' = _pool test_ready ∧ _sem_remaining w' = _sem_remaining test_ready
           ∧ ext w' = mkTestDb true 1 ["select * from pg_tables"]
           ∧ trace w' = trace test_ready
                        ++ [EvAcquire; EvGetconn; EvCursor 0%nat;
                            EvExecute 0%nat "select * from pg_tables";
                            EvFetchall 0%nat; EvCursorClose 0%nat;
                            EvPutconn (Some 0%nat); EvRelease]).
Proof.
  split_and!.
  - apply (proj1 (sql_execute_guard "update t set a = 1" test_boot)). vm_compute; reflexivity.
  - vm_compute; reflexivity.
  - apply (proj1 (sql_execute_guard "select * from ınsert_log" test_boot)).
    vm_compute; reflexivity.
  - apply (proj2 (sql_execute_guard "select * from pg_tables" test_boot)
             eq_refl (mkConnection None) test_ready (mkConnection (Some 0%nat)) 0%nat
             test_leased (mkTestDb true 1 [])
             (mkTestDb true 1 ["select * from pg_tables"]) test_rows
             (mkTestDb true 1 ["select * from pg_tables"])
             (mkTestDb true 1 ["select * from pg_tables"])
             test_ready_init test_leased_enter);
      vm_compute; reflexivity.
Defined.

Lemma init_failure_installs_nothing_witness :
  _pool test_no_host = None ∧ _sem_remaining test_no_host = None ∧ lock test_no_host = false
  ∧ (pool_init (parse [] (ini test_no_host)) (ext test_no_host)).1
    = inl (DriverError "no host given")
  ∧ (∃ w', __init__ test_no_host = (Raised (DriverError "no host given"), w')
           ∧ _pool w' = None ∧ _sem_remaining w' = None ∧ lock w' = false)
  ∧ ini test_default !! "maxconn" = None
  ∧ (∃ msg w', __init__ test_default = (Raised (TypeError msg), w')
               ∧ _pool w' = None ∧ _sem_remaining w' = None ∧ lock w' = false).
Proof.
  split_and!; [reflexivity | reflexivity | reflexivity | vm_compute; reflexivity | |
               vm_compute; reflexivity |].
  - destruct (init_failure_installs_nothing test_no_host (DriverError "no host given")
                (ext test_no_host) eq_refl eq_refl eq_refl)
      as (w' & E & Hp & Hs & Hl & _); [vm_compute; reflexivity |].
    exists w'. split_and!; assumption.
  - destruct (init_failure_installs_nothing test_default
                (TypeError "__init__() missing 1 required positional argument: 'maxconn'")
                (ext test_default) eq_refl eq_refl eq_refl)
      as (w' & E & Hp & Hs & Hl & _); [vm_compute; reflexivity |].
    eexists. exists w'. split_and!; [exact E | assumption ..].
Defined.

Lemma semaphore_permits_witness :
  (_pool test_boot = None ∧ lock test_boot = false
   ∧ pool_init (parse [] (ini test_boot)) (ext test_boot) = (inr tt, ext test_boot)
   ∧ ini test_boot !! "maxconn" = Some "2" ∧ Py.int "2" = Some 2
   ∧ ∃ self w' s, __init__ test_boot = (Returned self, w')
                  ∧ _sem_remaining w' = Some s ∧ Z.of_nat (sem_value s) = 2)
  ∧ (_pool test_default = None ∧ lock test_default = false
     ∧ ini test_default !! "minconn" = Some "1" ∧ ini test_default !! "maxconn" = None
     ∧ ∃ msg w', __init__ test_default = (Raised (TypeError msg), w')
                 ∧ _pool w' = None ∧ _sem_remaining w' = None
                 ∧ trace w' = [EvPoolNew (ini test_default)]).
Proof.
  assert (pool_init (parse [] (ini test_boot)) (ext test_boot) = (inr tt, ext test_boot))
    as H1 by (vm_compute; reflexivity).
  assert (ini test_boot !! "maxconn" = Some "2") as M1 by (vm_compute; reflexivity).
  assert (ini test_default !! "maxconn" = None) as M2 by (vm_compute; reflexivity).
  assert (Py.int "2" = Some 2) as I1 by (vm_compute; reflexivity).
  split.
  - split_and!; [reflexivity | reflexivity | exact H1 | exact M1 | exact I1 |].
    destruct (proj1 (semaphore_permits test_boot eq_refl eq_refl) (ext test_boot) H1)
      as (text & n & Hm & Hi & H).
    rewrite M1 in Hm. injection Hm as <-. rewrite I1 in Hi. injection Hi as <-.
    apply H. lia.
  - split_and!; [reflexivity | reflexivity | vm_compute; reflexivity | exact M2 |].
    destruct (proj2 (semaphore_permits test_default eq_refl eq_refl) M2)
      as (msg & w' & E & Hp & Hs & _ & Ht).
    exists msg, w'. split_and!; [exact E | exact Hp | exact Hs |].
    rewrite Ht, parse_nil. reflexivity.
Defined.

Lemma raw_connection_bypasses_pool_witness :
  parse ["minconn"; "maxconn"] (ini test_leased) ##ₘ (∅ : params)
  ∧ ∃ kw w', __call__ [] ∅ test_leased = (Returned 1%nat, w')
             ∧ kw !! "host" = Some "localhost" ∧ kw !! "dbname" = Some "twitter"
             ∧ kw !! "minconn" = None ∧ kw !! "maxconn" = None
             ∧ trace w' = trace test_leased ++ [EvConnect [] kw]
             ∧ _pool w' = Some (mkPool 0 [0%nat])
             ∧ _sem_remaining w' = Some (mkSemaphore 1 1).
Proof.
  assert (parse ["minconn"; "maxconn"] (ini test_leased) ##ₘ (∅ : params)) as D
    by apply map_disjoint_empty_r.
  split; [exact D |].
  destruct (raw_connection_bypasses_pool [] ∅ test_leased D)
    as (kw & w' & E & -> & _ & Ht & Hp & Hs & _).
  exists (parse ["minconn"; "maxconn"] (ini test_leased) ∪ ∅), w'.
  split_and!; [exact E | vm_compute; reflexivity .. | exact Ht
              | rewrite Hp; vm_compute; reflexivity | rewrite Hs; vm_compute; reflexivity].
Defined.

Lemma failed_getconn_leaks_permit_witness :
  _sem_remaining test_down = Some (mkSemaphore 1 2) ∧ _pool test_down = Some (mkPool 0 [])
  ∧ drv_getconn (ext test_down) = (inl unreachable, ext test_down)
  ∧ (∃ w', __enter__ (mkConnection None) test_down = (Raised unreachable, w')
           ∧ S (permits w') = 2%nat ∧ leases w' = 0%nat
           ∧ trace w' = trace test_down ++ [EvAcquire; EvGetconn])
  ∧ (∃ w', sql_execute_commit "delete from t" test_down = (Raised unreachable, w')
           ∧ S (permits w') = 2%nat ∧ leases w' = 0%nat)
  ∧ rtc step (start test_lazy_ini (mkTestDb false 0 []) 2) (mkSystem test_down [Idle; Idle])
  ∧ (S (permits (__exit__ (mkConnection None) (__enter__ (mkConnection None) test_down).2).2
        + leases (__exit__ (mkConnection None) (__enter__ (mkConnection None) test_down).2).2)
     ≤ 2)%nat.
Proof.
  assert (_sem_remaining test_down = Some (mkSemaphore 1 2)) as Hs
    by (vm_compute; reflexivity).
  assert (_pool test_down = Some (mkPool 0 [])) as Hp by (vm_compute; reflexivity).
  assert (drv_getconn (ext test_down) = (inl unreachable, ext test_down)) as G
    by (vm_compute; reflexivity).
  assert (rtc step (start test_lazy_ini (mkTestDb false 0 []) 2)
            (mkSystem test_down [Idle; Idle])) as R
    by exact (init_runs (boot test_lazy_ini (mkTestDb false 0 [])) [Idle; Idle] 0 eq_refl).
  destruct (failed_getconn_leaks_permit (mkConnection None) test_down
              (mkSemaphore 1 2) 1 (mkPool 0 []) unreachable (ext test_down)
              Hs eq_refl Hp G) as ((w' & E & _ & _ & Hq & Hl & Ht) & Hc & Hforever).
  split_and!; [exact Hs | exact Hp | exact G | | | exact R |].
  - exists w'. rewrite Hq, Hl. split_and!; [exact E | | | exact Ht]; vm_compute; reflexivity.
  - destruct (Hc ltac:(vm_compute; reflexivity) "delete from t") as (w'' & E' & Hq' & Hl' & _).
    exists w''. rewrite Hq', Hl'. split_and!; [exact E' | |]; vm_compute; reflexivity.
  - pose proof (Hforever test_lazy_ini (mkTestDb false 0 []) 2%nat [Idle; Idle] 0%nat
                  (mkSystem (__exit__ (mkConnection None)
                               (__enter__ (mkConnection None) test_down).2).2 [Idle; Idle])
                  R eq_refl
                  (exit_runs (mkConnection None) (__enter__ (mkConnection None) test_down).2
                     [Idle; Idle] 0 eq_refl)) as A.
    simpl in A. unfold permits at 2, leases at 2 in A. rewrite Hs, Hp in A.
    simpl in A. lia.
Defined.

Lemma test_threads_reach :
  rtc step (start test_ini (mkTestDb true 0 []) 2) test_threads.
Proof. exact (init_runs test_boot [Idle; Idle] 0 eq_refl). Qed.

Lemma test_threads_later_reach : rtc step test_threads test_threads_later.
Proof.
  eapply rtc_trans.
  - exact (init_runs test_ready [Idle; Idle] 1 eq_refl).
  - exact (enter_runs (mkConnection None) (__init__ test_ready).2 [Idle; Idle] 1 eq_refl).
Qed.

Lemma pool_singleton_built_once_witness :
  rtc step (start test_ini (mkTestDb true 0 []) 2) test_threads
  ∧ _pool (world test_threads) = Some (mkPool 0 [])
  ∧ _sem_remaining (world test_threads) = Some (mkSemaphore 1 2)
  ∧ rtc step test_threads test_threads_later
  ∧ (∃ p' s', _pool (world test_threads_later) = Some p' ∧ pool_id p' = 0%nat
              ∧ _sem_remaining (world test_threads_later) = Some s' ∧ sem_id s' = 1%nat)
  ∧ built (world test_threads_later) = 2%nat.
Proof.
  destruct (pool_singleton_built_once test_ini (mkTestDb true 0 []) 2
              test_threads test_threads_later (mkPool 0 []) (mkSemaphore 1 2)
              test_threads_reach ltac:(vm_compute; reflexivity) ltac:(vm_compute; reflexivity)
              test_threads_later_reach) as (H1 & H2 & H3 & _).
  split_and!; [exact test_threads_reach | vm_compute; reflexivity | vm_compute; reflexivity
              | exact test_threads_later_reach | exact H1 | rewrite H2; vm_compute; reflexivity].
Defined.

Lemma test_threads_full_reach : rtc step test_threads test_threads_full.
Proof.
  eapply rtc_trans.
  - exact (enter_runs (mkConnection None) test_ready [Idle; Idle] 0 eq_refl).
  - exact (enter_runs (mkConnection None) test_leased [Idle; Idle] 1 eq_refl).
Qed.

Lemma leases_never_exceed_maxconn_witness :
  rtc step (start test_ini (mkTestDb true 0 []) 2) test_threads_full
  ∧ leases (world test_threads_full) = 2%nat ∧ capacity test_ini = 2%nat
  ∧ (__enter__ (mkConnection None) (world test_threads_full)).1 = Blocked
  ∧ (leases (world test_threads_full) ≤ capacity test_ini)%nat
  ∧ (∃ w', __enter__ (mkConnection None) (world test_threads)
           = (Returned (mkConnection (Some 0%nat), 0%nat), w')
           ∧ permits w' = 1%nat ∧ leases w' = 1%nat)
  ∧ (∃ w', __exit__ (mkConnection (Some 0%nat)) (world test_threads_full) = (Returned tt, w')
           ∧ _pool w' = Some (mkPool 0 [1%nat])
           ∧ permits w' = 1%nat ∧ leases w' = 1%nat).
Proof.
  assert (rtc step (start test_ini (mkTestDb true 0 []) 2) test_threads_full) as R
    by (eapply rtc_trans; [exact test_threads_reach | exact test_threads_full_reach]).
  assert (_pool (world test_threads_full) = Some (mkPool 0 [1; 0]%nat)) as Hp
    by (vm_compute; reflexivity).
  assert (0%nat ∈ pool_used (mkPool 0 [1; 0]%nat)) as Hc by (simpl; repeat constructor).
  assert (0 < permits (world test_threads))%nat as Hfree by (vm_compute; lia).
  assert (drv_getconn (ext (world test_threads)) = (inr 0%nat, mkTestDb true 1 [])) as Hg
    by (vm_compute; reflexivity).
  destruct (leases_never_exceed_maxconn test_ini (mkTestDb true 0 []) 2
              test_threads_full R) as (H1 & _ & _ & _ & _ & Hexit).
  destruct (leases_never_exceed_maxconn test_ini (mkTestDb true 0 []) 2
              test_threads test_threads_reach) as (_ & _ & _ & _ & Henter & _).
  destruct (Henter (mkConnection None) 0%nat _ Hfree Hg) as (w1 & E1 & P1 & L1 & _).
  destruct (Hexit _ 0%nat Hp Hc) as (w2 & E2 & Hp2 & P2 & L2 & _).
  assert (permits (world test_threads) = 2%nat) as Q1 by (vm_compute; reflexivity).
  assert (leases (world test_threads) = 0%nat) as Q2 by (vm_compute; reflexivity).
  assert (permits (world test_threads_full) = 0%nat) as Q3 by (vm_compute; reflexivity).
  assert (leases (world test_threads_full) = 2%nat) as Q4 by (vm_compute; reflexivity).
  rewrite Q1 in P1. rewrite Q2 in L1. rewrite Q3 in P2. rewrite Q4 in L2.
  split_and!; [exact R | exact Q4 | vm_compute; reflexivity
              | vm_compute; reflexivity | exact H1 | |].
  - exists w1. split_and!; [exact E1 | lia | exact L1].
  - exists w2. split_and!; [exact E2 | rewrite Hp2; vm_compute; reflexivity | exact P2 | lia].
Defined.

(** * More of the module *)

(** ** The lock, the lease and the raw connection, one call at a time *)

Section Calls.
Context {Ext : Type} {drv : Driver Ext}.
Implicit Types w : World Ext.

(** X1: [synchronized]: whatever the function does, short of waiting, the
    lock is free again afterwards, and the outcome is that of the function
    run with the lock held. A function under a held lock does not start. *)
Theorem synchronized_releases_lock {A} (func : M Ext A) w :
  (∀ w1 out w2, func w1 = (out, w2) → lock w2 = lock w1) →
  (lock w = true → synchronized func w = (Blocked, w))
  ∧ (lock w = false →
     ∀ out w', synchronized func w = (out, w') → out ≠ Blocked →
       lock w' = false
       ∧ ∃ w1 w2, lock_acquire w = (Returned tt, w1) ∧ func w1 = (out, w2)
                  ∧ lock_release w2 = (Returned tt, w')).
Proof.
  intros Hfunc. split; intros Hl.
  - unfold synchronized, bind, lock_acquire. by rewrite Hl.
  - intros out w' E Hout.
    unfold synchronized, bind, lock_acquire in E. rewrite Hl in E.
    unfold set_lock in E. simpl in E.
    destruct (func _) as [[a|e|] w2] eqn:E2; simpl in E; injection E as <- <-;
      try done; (split; [done |]); do 2 eexists;
      (split; [unfold lock_acquire; rewrite Hl; reflexivity |]);
      (split; [exact E2 | reflexivity]).
Qed.

(** X2: A lease taken and given back: [__exit__] on the instance that
    [__enter__] filled puts the pool and the semaphore back exactly, and
    the history shows acquire, getconn, putconn, release. *)
Theorem enter_exit_round_trip self w self' c w1 :
  __enter__ self w = (Returned (self', c), w1) →
  conn self' = Some c
  ∧ ∃ w2, __exit__ self' w1 = (Returned tt, w2)
          ∧ _pool w2 = _pool w ∧ _sem_remaining w2 = _sem_remaining w
          ∧ ext w2 = ext w1
          ∧ trace w2 = trace w ++ [EvAcquire; EvGetconn; EvPutconn (Some c); EvRelease].
Proof.
  intros E. apply enter_returned in E as (s & n & p & x & Hs & Hv & Hp & _ & -> & ->).
  split; [done |]. eexists. split.
  { by apply (exit_returns _ (pool_id p) (sem_id s) c (pool_used p) n). }
  simpl. rewrite Hs, Hp, <- Hv, <- app_assoc. by destruct p, s.
Qed.

(** X3: [__exit__] without a lease: on an instance that holds no connection,
    or one that is not checked out, [putconn] raises and the line after it
    does not run, so no permit is released. *)
Theorem exit_refused_keeps_permit self w p :
  _pool w = Some p →
  (∀ c, conn self = Some c → c ∉ pool_used p) →
  ∃ w', __exit__ self w = (Raised (PoolError "trying to put unkeyed connection"), w')
        ∧ _sem_remaining w' = _sem_remaining w ∧ _pool w' = _pool w
        ∧ ext w' = ext w ∧ trace w' = trace w ++ [EvPutconn (conn self)].
Proof.
  intros Hp Hc. unfold __exit__, bind, putconn. rewrite Hp.
  unfold bind, emit. simpl. destruct (conn self) as [c|] eqn:E.
  - rewrite bool_decide_eq_false_2 by by apply Hc. by eexists.
  - by eexists.
Qed.

(** X4: With no permit left, [__enter__] waits and has done nothing, and so
    has a whole [sql_execute_commit]: no statement reaches the database.
    When a holder runs [__exit__], one permit is back and [__enter__] no
    longer waits. *)
Theorem enter_blocks_until_release self w s p c :
  _sem_remaining w = Some s → sem_value s = O →
  _pool w = Some p → c ∈ pool_used p →
  __enter__ self w = (Blocked, w)
  ∧ (lock w = false → ∀ sql, sql_execute_commit sql w = (Blocked, w))
  ∧ ∃ w1, __exit__ (mkConnection (Some c)) w = (Returned tt, w1)
          ∧ permits w1 = 1%nat ∧ S (leases w1) = leases w
          ∧ ∀ self1, (__enter__ self1 w1).1 ≠ Blocked.
Proof.
  intros Hs Hv Hp Hc.
  assert (__enter__ self w = (Blocked, w)) as E.
  { unfold __enter__, bind, sem_acquire. by rewrite Hs, Hv. }
  split_and!; [exact E | |].
  - intros Hl sql. unfold sql_execute_commit, with_, bind.
    rewrite (init_again w p Hp Hl).
    assert (__enter__ (mkConnection None) w = (Blocked, w)) as ->; [| done].
    unfold __enter__, bind, sem_acquire. by rewrite Hs, Hv.
  - destruct (__exit__ (mkConnection (Some c)) w) as [o w1] eqn:Ex.
    assert (o = Returned tt ∧ _sem_remaining w1 = Some (mkSemaphore (sem_id s) 1)
            ∧ _pool w1 = Some (mkPool (pool_id p) (check_in c (pool_used p)))) as (-> & Hs1 & Hp1).
    { unfold __exit__, bind, putconn in Ex. rewrite Hp in Ex.
      unfold bind, emit, set_pool in Ex. simpl in Ex.
      rewrite bool_decide_eq_true_2 in Ex by done.
      unfold sem_release in Ex. simpl in Ex. rewrite Hs in Ex.
      unfold bind, emit, set_sem_remaining in Ex. simpl in Ex.
      injection Ex as <- <-. simpl. by rewrite Hv. }
    exists w1. split_and!; [done | | |].
    + unfold permits. by rewrite Hs1.
    + unfold leases. rewrite Hp1, Hp. simpl. by apply check_in_length.
    + intros self1. unfold __enter__, bind, sem_acquire. rewrite Hs1. simpl.
      unfold getconn. simpl. rewrite Hp1. unfold bind, call. simpl.
      by destruct (drv_getconn (ext w1)) as [[e|c1] x].
Qed.

(** X5: When the semaphore cannot be built (line 33 raises: [maxconn] is
    negative, which the pool constructor accepts and [Semaphore] refuses),
    the pool built on line 32 stays in place without a semaphore. The next
    [Connection()] finds the pool and returns without building anything,
    and from then on [__enter__] raises [AttributeError], and with it every
    [sql_execute_commit], before any statement reaches the database. *)
Theorem half_built_singleton_stays w x text n :
  _pool w = None → _sem_remaining w = None → lock w = false →
  pool_init (parse [] (ini w)) (ext w) = (inr tt, x) →
  ini w !! "maxconn" = Some text → Py.int text = Some n → n < 0 →
  ∃ e msg w',
    __init__ w = (Raised (ValueError e), w')
    ∧ _pool w' = Some (mkPool (built w) []) ∧ _sem_remaining w' = None
    ∧ lock w' = false
    ∧ __init__ w' = (Returned (mkConnection None), w')
    ∧ (∀ self, __enter__ self w' = (Raised (AttributeError msg), w'))
    ∧ (∀ sql, sql_execute_commit sql w' = (Raised (AttributeError msg), w')).
Proof.
  intros Hp Hs Hl Hnew Hm Hi Hn.
  assert (∃ e w', __init__ w = (Raised (ValueError e), w')
            ∧ _pool w' = Some (mkPool (built w) []) ∧ _sem_remaining w' = None
            ∧ lock w' = false) as (e & w' & E & Hp' & Hs' & Hl').
  { unfold __init__, synchronized, bind, lock_acquire. rewrite Hl.
    unfold set_lock, init_body. simpl. rewrite Hp.
    unfold bind, init_pool, config, bind, ThreadedConnectionPool_new, bind, call. simpl.
    rewrite Hnew. simpl.
    unfold init_sem_remaining, config, bind, int_maxconn. simpl. rewrite parse_nil, Hm, Hi.
    unfold Semaphore_new, bind, emit, ret. simpl.
    destruct (Z.ltb_spec n 0) as [_|]; [| lia]. simpl. by do 2 eexists. }
  assert (∀ self, __enter__ self w'
            = (Raised (AttributeError "'NoneType' object has no attribute 'acquire'"), w'))
    as En.
  { intros self. unfold __enter__, bind, sem_acquire. by rewrite Hs'. }
  exists e, "'NoneType' object has no attribute 'acquire'", w'.
  split_and!; try done.
  - by eapply init_again.
  - intros sql. unfold sql_execute_commit, with_, bind.
    by rewrite (init_again w' _ Hp' Hl'), En.
Qed.

(** X6: [__call__] with a keyword argument that the configuration file also
    gives (other than [minconn] and [maxconn], which are taken out of the
    configuration first): the call is a [TypeError], and [psycopg2.connect]
    is not reached. *)
Theorem call_keyword_given_twice args kwargs w k v v' :
  k ∉ ["minconn"; "maxconn"] →
  ini w !! k = Some v → kwargs !! k = Some v' →
  __call__ args kwargs w
  = (Raised (TypeError "got multiple values for keyword argument"), w).
Proof.
  intros Hk Hi Hkw. unfold __call__, merge_kwargs, bind.
  rewrite bool_decide_eq_false_2; [done |].
  intros D. pose proof (proj1 (map_disjoint_spec _ _) D) as D'.
  apply (D' k v v'); [| done].
  by rewrite parse_lookup, bool_decide_eq_false_2.
Qed.

End Calls.

(** ** More on the threads *)

Lemma tally_lookup (f : pc → bool) (ts : list pc) (t : nat) (p : pc) :
  ts !! t = Some p → f p = true → (1 ≤ tally f ts)%nat.
Proof.
  revert t. induction ts as [|q ts IH]; intros [|t] Ht Hf; simplify_eq/=.
  - rewrite Hf. lia.
  - specialize (IH t Ht Hf). lia.
Qed.

Lemma tally_lookup_two (f : pc → bool) (ts : list pc) (t1 t2 : nat) (p1 p2 : pc) :
  t1 ≠ t2 → ts !! t1 = Some p1 → ts !! t2 = Some p2 →
  f p1 = true → f p2 = true → (2 ≤ tally f ts)%nat.
Proof.
  revert t1 t2. induction ts as [|q ts IH]; intros [|t1] [|t2] Hne H1 H2 F1 F2;
    simplify_eq/=.
  - rewrite F1. pose proof (tally_lookup f ts t2 p2 H2 F2). lia.
  - rewrite F2. pose proof (tally_lookup f ts t1 p1 H1 F1). lia.
  - assert (t1 ≠ t2) as Hne' by congruence.
    specialize (IH t1 t2 Hne' H1 H2 F1 F2). lia.
Qed.

Section MoreThreads.
Context {Ext : Type} {drv : Driver Ext}.
Implicit Types w : World Ext.

(** X7: Whatever the threads do, at most one of them is inside [__init__] at
    a time, and the lock is held exactly while one is. *)
Theorem init_mutual_exclusion section (x : Ext) n sys :
  rtc step (start section x n) sys →
  (∀ t1 t2 p1 p2, t1 ≠ t2 →
     threads sys !! t1 = Some p1 → threads sys !! t2 = Some p2 →
     holds_lock p1 = true → holds_lock p2 = false)
  ∧ (lock (world sys) = true ↔ ∃ t p, threads sys !! t = Some p ∧ holds_lock p = true).
Proof.
  intros R. destruct (start_reach_inv _ _ _ _ R) as [I _].
  pose proof (inv_lock _ I) as L. split.
  - intros t1 t2 p1 p2 Hne H1 H2 F1.
    destruct (holds_lock p2) eqn:F2; [| done].
    pose proof (tally_lookup_two holds_lock _ _ _ _ _ Hne H1 H2 F1 F2).
    destruct (lock (world sys)); lia.
  - split.
    + intros Hl. rewrite Hl in L.
      assert (∀ ts, (1 ≤ tally holds_lock ts)%nat →
                ∃ t p, ts !! t = Some p ∧ holds_lock p = true) as Hex.
      { induction ts as [|q ts IH]; simpl; [lia |]. intros Hq.
        destruct (holds_lock q) eqn:Fq.
        - by exists 0%nat, q.
        - destruct IH as (t & p & Ht & Fp); [lia |]. by exists (S t), p. }
      apply Hex. lia.
    + intros (t & p & Ht & Fp). pose proof (tally_lookup holds_lock _ _ _ Ht Fp).
      destruct (lock (world sys)); [done | lia].
Qed.

(** X8: Whatever the threads do, the semaphore is never in place without the
    pool: a thread that got a permit finds a pool to ask for a connection. *)
Theorem semaphore_never_without_pool section (x : Ext) n sys s :
  rtc step (start section x n) sys →
  _sem_remaining (world sys) = Some s →
  ∃ p, _pool (world sys) = Some p.
Proof.
  intros R Hs. destruct (start_reach_inv _ _ _ _ R) as [I _].
  destruct (_pool (world sys)) as [p|] eqn:Hp; [by exists p |].
  apply (inv_pool_first _ I) in Hp. congruence.
Qed.

End MoreThreads.

(** ** The helpers on every path *)

Section EveryPath.
Context {Ext : Type} {drv : Driver Ext}.
Implicit Types w : World Ext.

Lemma adds_nothing {A} (P : event → Prop) (m : M Ext A) :
  (∀ w out w', m w = (out, w') → trace w' = trace w) → adds P m.
Proof.
  intros H w out w' E. exists []. rewrite app_nil_r. split; [by eapply H | constructor].
Qed.

Lemma adds_bind {A B} (P : event → Prop) (m : M Ext A) (k : A → M Ext B) :
  adds P m → (∀ a, adds P (k a)) → adds P (bind m k).
Proof.
  intros Hm Hk w out w' E. unfold bind in E.
  destruct (m w) as [[a|e|] w1] eqn:E1.
  - destruct (Hm _ _ _ E1) as (evs1 & T1 & F1).
    destruct (Hk a _ _ _ E) as (evs2 & T2 & F2).
    exists (evs1 ++ evs2). split; [by rewrite T2, T1, app_assoc | by apply Forall_app].
  - injection E as <- <-. by eapply Hm.
  - injection E as <- <-. by eapply Hm.
Qed.

Lemma adds_ret {A} (P : event → Prop) (a : A) : adds P (ret (Ext := Ext) a).
Proof. apply adds_nothing. by intros w out w' [= <- <-]. Qed.

Lemma adds_raise {A} (P : event → Prop) (e : exn) : adds P (raise (Ext := Ext) (A := A) e).
Proof. apply adds_nothing. by intros w out w' [= <- <-]. Qed.

Lemma adds_emit (P : event → Prop) (ev : event) : P ev → adds P (emit (Ext := Ext) ev).
Proof.
  intros H w out w' [= <- <-]. exists [ev]. split; [done | by repeat constructor].
Qed.

Lemma adds_call {A} (P : event → Prop) (ev : event) (f : Ext → result A * Ext) :
  P ev → adds P (call ev f).
Proof.
  intros H w out w' E. unfold call in E. destruct (f (ext w)) as [r x].
  injection E as <- <-. exists [ev]. split; [done | by repeat constructor].
Qed.

Lemma adds_set_pool (P : event → Prop) p : adds P (set_pool (Ext := Ext) p).
Proof. apply adds_nothing. by intros w out w' [= <- <-]. Qed.

Lemma adds_set_sem_remaining (P : event → Prop) s :
  adds P (set_sem_remaining (Ext := Ext) s).
Proof. apply adds_nothing. by intros w out w' [= <- <-]. Qed.

Lemma adds_set_lock (P : event → Prop) b : adds P (set_lock (Ext := Ext) b).
Proof. apply adds_nothing. by intros w out w' [= <- <-]. Qed.

Lemma adds_allocate (P : event → Prop) : adds P (allocate (Ext := Ext)).
Proof. apply adds_nothing. by intros w out w' [= <- <-]. Qed.

(** a method that first looks at the process *)
Lemma adds_reading {A} (P : event → Prop) (m : M Ext A) :
  (∀ w, ∃ m', adds P m' ∧ m w = m' w) → adds P m.
Proof. intros H w out w' E. destruct (H w) as (m' & Hm' & Eq). rewrite Eq in E. eauto. Qed.

(** [finally]-like blocks: run [m], then [after] on return and on raise *)
Lemma adds_then {A B} (P : event → Prop) (m : M Ext A) (after : M Ext B) :
  adds P m → adds P after →
  adds P (λ w, match m w with
               | (Returned a, w') => (after >> ret a) w'
               | (Raised e, w') => (after >> raise e) w'
               | (Blocked, w') => (Blocked, w')
               end).
Proof.
  intros Hm Ha w out w' E.
  destruct (m w) as [[a|e|] w1] eqn:E1.
  - destruct (Hm _ _ _ E1) as (evs1 & T1 & F1).
    destruct (adds_bind P after (λ _, ret a) Ha (λ _, adds_ret P a) _ _ _ E)
      as (evs2 & T2 & F2).
    exists (evs1 ++ evs2). split; [by rewrite T2, T1, app_assoc | by apply Forall_app].
  - destruct (Hm _ _ _ E1) as (evs1 & T1 & F1).
    destruct (adds_bind P after (λ _, raise e) Ha (λ _, adds_raise P e) _ _ _ E)
      as (evs2 & T2 & F2).
    exists (evs1 ++ evs2). split; [by rewrite T2, T1, app_assoc | by apply Forall_app].
  - injection E as <- <-. by eapply Hm.
Qed.

Ltac adds_steps :=
  repeat first
    [ apply adds_bind; [| intros ?]
    | apply adds_ret | apply adds_raise
    | apply adds_set_pool | apply adds_set_sem_remaining | apply adds_set_lock
    | apply adds_allocate
    | apply adds_emit; done
    | apply adds_call; done ].

Lemma adds_init (P : event → Prop) :
  (∀ kwargs, P (EvPoolNew kwargs)) → (∀ n, P (EvSemaphoreNew n)) →
  adds P (__init__ (Ext := Ext)).
Proof.
  intros P1 P2. unfold __init__, synchronized.
  apply adds_bind.
  { apply adds_reading. intros w. unfold lock_acquire. destruct (lock w).
    - exists (λ w, (Blocked, w)). split; [| done].
      apply adds_nothing. by intros ??? [= <- <-].
    - exists (set_lock true). split; [apply adds_set_lock | done]. }
  intros _. apply adds_then; [| apply adds_set_lock].
  apply adds_reading. intros w. unfold init_body. destruct (_pool w).
  - eexists. split; [apply (adds_ret P (mkConnection None)) | done].
  - eexists. split; [| reflexivity].
    unfold init_pool, init_sem_remaining, config, ThreadedConnectionPool_new, Semaphore_new.
    apply adds_bind; [| intros ?; apply adds_bind; [| intros ?; apply adds_ret]].
    + apply adds_bind; [apply adds_nothing; by intros ??? [= <- <-] |].
      intros kwargs. apply adds_bind; [| intros ?; apply adds_set_pool].
      apply adds_bind; [by apply adds_call |]. intros ?. adds_steps.
    + apply adds_bind; [apply adds_nothing; by intros ??? [= <- <-] |].
      intros cfg. apply adds_bind.
      { apply adds_nothing. intros w1 out w2. unfold int_maxconn.
        destruct (cfg !! "maxconn") as [t|]; [destruct (Py.int t) |];
          by intros [= <- <-]. }
      intros k. apply adds_bind; [| intros ?; apply adds_set_sem_remaining].
      apply adds_bind; [by apply adds_emit |].
      intros _. destruct (k <? 0); adds_steps.
Qed.

Lemma adds_enter (P : event → Prop) self :
  P EvAcquire → P EvGetconn → adds P (__enter__ (Ext := Ext) self).
Proof.
  intros P1 P2. unfold __enter__. apply adds_bind; [| intros _; apply adds_bind].
  - apply adds_reading. intros w. unfold sem_acquire.
    destruct (_sem_remaining w) as [s|]; [destruct (sem_value s) |].
    + exists (λ w, (Blocked, w)). split; [| done].
      apply adds_nothing. by intros ??? [= <- <-].
    + eexists. split; [| reflexivity]. adds_steps.
    + eexists. split; [apply (adds_raise P) | reflexivity].
  - apply adds_reading. intros w. unfold getconn. destruct (_pool w).
    + eexists. split; [| reflexivity]. adds_steps.
    + eexists. split; [apply (adds_raise P) | reflexivity].
  - intros c. apply adds_ret.
Qed.

Lemma adds_exit (P : event → Prop) self :
  (∀ c, P (EvPutconn c)) → P EvRelease → adds P (__exit__ (Ext := Ext) self).
Proof.
  intros P1 P2. unfold __exit__. apply adds_bind; [| intros _].
  - apply adds_reading. intros w. unfold putconn. destruct (_pool w) as [p|].
    + eexists. split; [| reflexivity].
      apply adds_bind; [by apply adds_emit |]. intros _.
      destruct (conn self) as [c|]; [case_bool_decide |]; adds_steps.
    + eexists. split; [apply (adds_raise P) | reflexivity].
  - apply adds_reading. intros w. unfold sem_release. destruct (_sem_remaining w).
    + eexists. split; [| reflexivity]. adds_steps.
    + eexists. split; [apply (adds_raise P) | reflexivity].
Qed.

Lemma adds_with {A} (P : event → Prop) (body : connection → M Ext A) :
  (∀ kwargs, P (EvPoolNew kwargs)) → (∀ n, P (EvSemaphoreNew n)) →
  P EvAcquire → P EvGetconn → (∀ c, P (EvPutconn c)) → P EvRelease →
  (∀ c, adds P (body c)) →
  adds P (with_ __init__ body).
Proof.
  intros P1 P2 P3 P4 P5 P6 Hbody. unfold with_.
  apply adds_bind; [by apply adds_init |]. intros self.
  apply adds_bind; [by apply adds_enter |]. intros entered.
  apply adds_then; [apply Hbody | by apply adds_exit].
Qed.

(** X9: [sql_execute] never commits, opens no connection outside the pool and
    sends no statement but the one it was given: on every path, whatever
    the driver answers, these are the only calls it adds to the history. *)
Theorem sql_execute_never_commits sql w :
  ∃ evs, trace (sql_execute sql w).2 = trace w ++ evs
         ∧ Forall (runs_only sql false) evs.
Proof.
  destruct (sql_execute sql w) as [out w'] eqn:E. simpl.
  revert w out w' E. change (adds (runs_only sql false) (sql_execute sql)).
  unfold sql_execute. destruct (Py.any _).
  - unfold log. adds_steps.
  - apply adds_with; try done. intros c. unfold sql_execute_body. adds_steps.
Qed.

(** [sql_execute_commit] sends no statement but the one it was given, and
    opens no connection outside the pool, on every path. *)
Lemma sql_execute_commit_adds sql : adds (runs_only sql true) (sql_execute_commit sql).
Proof.
  unfold sql_execute_commit. apply adds_with; try done.
  intros c. unfold sql_execute_commit_body. adds_steps.
Qed.

(** *** Connections always come back *)

Lemma init_leases w out w0 :
  __init__ w = (out, w0) →
  leases w0 = leases w ∧ (∀ p, _pool w = Some p → _pool w0 = Some p).
Proof.
  unfold __init__, synchronized, bind. intros E.
  destruct (lock_acquire w) as [[[]|e|] w1] eqn:E1.
  - apply lock_acquire_returned in E1 as (_ & _ & _ & Hp1 & _).
    assert (∃ o w2, init_body w1 = (o, w2) ∧ _pool w0 = _pool w2) as (o & w2 & E2 & Hp0).
    { destruct (init_body w1) as [[a|e|] w2] eqn:E2; do 2 eexists; (split; [done |]);
        by injection E as <- <-. }
    unfold leases. rewrite Hp0, <- Hp1. clear E Hp0 Hp1.
    unfold init_body in E2. destruct (_pool w1) as [p|] eqn:Hp.
    + injection E2 as <- <-. rewrite Hp. split; [done | by intros ? [= <-]].
    + split; [| done]. unfold bind in E2.
      destruct (init_pool w1) as [[[]|e|] w3] eqn:E3.
      * apply init_pool_effect in E3 as (_ & _ & _ & [(_ & Hp3 & _)|(? & ? & _)]); [| done].
        destruct (init_sem_remaining w3) as [o' w4] eqn:E4.
        apply init_sem_remaining_effect in E4 as (_ & Hp4 & _).
        assert (_pool w2 = _pool w4) as -> by (by destruct o'; injection E2 as <- <-).
        by rewrite Hp4, Hp3.
      * injection E2 as <- <-.
        apply init_pool_effect in E3 as (_ & _ & _ & [(? & _)|(_ & _ & -> & _)]); [done |].
        by rewrite Hp.
      * injection E2 as <- <-.
        apply init_pool_effect in E3 as (_ & _ & _ & [(? & _)|(? & ? & _)]); done.
  - unfold lock_acquire in E1. destruct (lock w); discriminate.
  - unfold lock_acquire in E1. destruct (lock w); [| discriminate].
    injection E1 as <-. injection E as <- <-. done.
Qed.

Lemma enter_not_returned self w out w1 :
  __enter__ self w = (out, w1) → (∀ r, out ≠ Returned r) → _pool w1 = _pool w.
Proof.
  unfold __enter__, bind. intros E Hout.
  destruct (sem_acquire w) as [[[]|e|] w2] eqn:E1.
  - apply sem_acquire_returned in E1 as (_ & _ & Hp2 & _).
    destruct (getconn w2) as [[c|e|] w3] eqn:E2.
    + injection E as <- <-. by destruct (Hout (mkConnection (Some c), c)).
    + injection E as <- <-.
      apply getconn_effect in E2 as (_ & _ & _ & _ & [(? & ? & ? & _)|(_ & _ & ->)]);
        [done | done].
    + injection E as <- <-.
      apply getconn_effect in E2 as (_ & _ & _ & _ & [(? & ? & ? & _)|(? & ? & _)]); done.
  - injection E as <- <-. by apply sem_acquire_raised in E1 as ->.
  - injection E as <- <-. unfold sem_acquire in E1.
    destruct (_sem_remaining w) as [s|]; [| discriminate].
    destruct (sem_value s); [| discriminate]. by injection E1 as <-.
Qed.

Lemma with_leases {A} (body : connection → M Ext A) w out w3 :
  (∀ c w1 o w2, body c w1 = (o, w2) → frame w1 w2 ∧ o ≠ Blocked) →
  with_ __init__ body w = (out, w3) →
  leases w3 = leases w ∧ (∀ p, _pool w = Some p → _pool w3 = Some p).
Proof.
  intros Hbody E.
  destruct (__init__ w) as [o0 w0] eqn:E0.
  destruct (init_leases _ _ _ E0) as [L0 K0].
  assert (leases w3 = leases w0 ∧ _pool w3 = _pool w0) as [L3 K3].
  2: { split; [congruence |]. intros p Hp. rewrite K3. by apply K0. }
  clear L0 K0. unfold with_, bind in E. rewrite E0 in E.
  destruct o0 as [self| |]; [| by injection E as <- <- | by injection E as <- <-].
  destruct (__enter__ self w0) as [o1 w1] eqn:E1.
  destruct o1 as [[self' c]| |]; simpl in E.
  - destruct (body c w1) as [o2 w2] eqn:E2.
    destruct (Hbody _ _ _ _ E2) as [F2 Ho2].
    destruct (with_lease body w self w0 self' c w1 o2 w2 E0 E1 E2 F2 Ho2)
      as (w3' & E3 & Hp & _).
    unfold with_, bind in E3. rewrite E0, E1 in E3. simpl in E3. rewrite E2 in E3.
    rewrite E in E3. injection E3 as _ <-. unfold leases. by rewrite Hp.
  - injection E as <- <-.
    pose proof (enter_not_returned _ _ _ _ E1 ltac:(done)) as Hp.
    unfold leases. by rewrite Hp.
  - injection E as <- <-.
    pose proof (enter_not_returned _ _ _ _ E1 ltac:(done)) as Hp.
    unfold leases. by rewrite Hp.
Qed.

(** X10: The three helpers never keep a connection: on every path (the call
    returns, raises, or waits for a permit) as many connections are checked
    out afterwards as before, and a pool that was in place is still the
    same pool with the same connections out. *)
Theorem helpers_return_connections sql value_tuples ignore_duplicate w :
  (leases (sql_execute sql w).2 = leases w
   ∧ ∀ p, _pool w = Some p → _pool (sql_execute sql w).2 = Some p)
  ∧ (leases (sql_execute_commit sql w).2 = leases w
     ∧ ∀ p, _pool w = Some p → _pool (sql_execute_commit sql w).2 = Some p)
  ∧ (leases (sql_execute_values sql value_tuples ignore_duplicate w).2 = leases w
     ∧ ∀ p, _pool w = Some p
            → _pool (sql_execute_values sql value_tuples ignore_duplicate w).2 = Some p).
Proof.
  assert (∀ sql0 w0, leases (sql_execute_commit sql0 w0).2 = leases w0
            ∧ ∀ p, _pool w0 = Some p → _pool (sql_execute_commit sql0 w0).2 = Some p) as Hc.
  { intros sql0 w0. destruct (sql_execute_commit sql0 w0) as [o w3] eqn:E.
    apply (with_leases (sql_execute_commit_body sql0) w0 o w3); [| done].
    intros c w1 o' w2 E'. split; [by eapply sql_execute_commit_body_frame |].
    intros ->. by eapply body_not_blocked_statement. }
  split_and!; [| | apply Hc | apply Hc | |].
  - unfold sql_execute. destruct (Py.any _); [done |].
    destruct (with_ _ _ w) as [o w3] eqn:E.
    apply (with_leases (sql_execute_body sql) w o w3); [| done].
    intros c w1 o' w2 E'. split; [by eapply sql_execute_body_frame |].
    intros ->. by eapply body_not_blocked_query.
  - unfold sql_execute. destruct (Py.any _); [done |].
    destruct (with_ _ _ w) as [o w3] eqn:E.
    apply (with_leases (sql_execute_body sql) w o w3); [| done].
    intros c w1 o' w2 E'. split; [by eapply sql_execute_body_frame |].
    intros ->. by eapply body_not_blocked_query.
  - unfold sql_execute_values. destruct (Py.truthy _); [apply Hc | done].
  - unfold sql_execute_values. destruct (Py.truthy _); [apply Hc | done].
Qed.

End EveryPath.

(** ** Text, character by character *)

Lemma string_app_assoc (a b c : string) : (a +:+ b) +:+ c = a +:+ (b +:+ c).
Proof.
  induction a as [|x a IH]; [done |].
  change (String x ((a +:+ b) +:+ c) = String x (a +:+ (b +:+ c))). by rewrite IH.
Qed.

Lemma cat_app (xs ys : list string) : Py.cat (xs ++ ys) = Py.cat xs +:+ Py.cat ys.
Proof.
  induction xs as [|x xs IH]; [done |].
  cbn [app Py.cat]. by rewrite IH, string_app_assoc.
Qed.

Lemma all_chars_app (f : ascii → bool) (a b : string) :
  all_chars f (a +:+ b) = all_chars f a && all_chars f b.
Proof.
  induction a as [|c a IH]; [done |].
  change (f c && all_chars f (a +:+ b) = f c && all_chars f a && all_chars f b).
  by rewrite IH, andb_assoc.
Qed.

Lemma width_one (c : ascii) : (Py.code c <? 192)%nat = true → Py.width c = 1%nat.
Proof. intros H. unfold Py.width. by rewrite H. Qed.

Lemma width_more (c : ascii) : Py.width c ≠ 1%nat → (Py.code c <? 192)%nat = false.
Proof.
  intros H. destruct (Py.code c <? 192)%nat eqn:E; [| done].
  by rewrite (width_one c E) in H.
Qed.

(** a character of one byte is a character of its own *)
Lemma chars_from_byte (c : ascii) (s : string) :
  (Py.code c <? 192)%nat = true →
  Py.chars_from 0 (String c s) = String c "" :: Py.chars_from 0 s.
Proof.
  intros H. cbn [Py.chars_from]. unfold Py.head_char. rewrite (width_one c H).
  reflexivity.
Qed.

Lemma continuation_prefix (n : nat) : ∀ s t,
  Py.continuation n s = Some t → ∃ r, s = t +:+ r.
Proof.
  induction n as [|n IH]; intros s t E.
  - injection E as <-. by exists s.
  - cbn [Py.continuation] in E. destruct s as [|c s]; [discriminate |].
    destruct (Py.is_continuation c); [| discriminate].
    destruct (Py.continuation n s) as [t'|] eqn:E'; [| discriminate].
    injection E as <-. destruct (IH s t' E') as [r ->]. by exists r.
Qed.

Lemma continuation_app (n : nat) : ∀ s t r,
  Py.continuation n s = Some t → Py.continuation n (s +:+ r) = Some t.
Proof.
  induction n as [|n IH]; intros s t r E; [exact E |].
  cbn [Py.continuation] in E. destruct s as [|c s]; [discriminate |].
  change (String c s +:+ r) with (String c (s +:+ r)). cbn [Py.continuation].
  destruct (Py.is_continuation c); [| discriminate].
  destruct (Py.continuation n s) as [t'|] eqn:E'; [| discriminate].
  by rewrite (IH s t' r E').
Qed.

(** a character does not reach into a text that starts with one *)
Lemma continuation_bound (n : nat) : ∀ b s t,
  starts_char s = true → Py.continuation n (b +:+ s) = Some t →
  (String.length t ≤ String.length b)%nat.
Proof.
  induction n as [|n IH]; intros b s t Hs E.
  - injection E as <-. simpl. lia.
  - destruct b as [|c b].
    + change ("" +:+ s) with s in E. cbn [Py.continuation] in E.
      destruct s as [|c s]; [discriminate |]. cbn [starts_char] in Hs.
      apply negb_true_iff in Hs. rewrite Hs in E. discriminate.
    + change (String c b +:+ s) with (String c (b +:+ s)) in E.
      cbn [Py.continuation] in E.
      destruct (Py.is_continuation c); [| discriminate].
      destruct (Py.continuation n (b +:+ s)) as [t'|] eqn:E'; [| discriminate].
      injection E as <-. pose proof (IH b s t' Hs E'). simpl. lia.
Qed.

Lemma length_app (a b : string) :
  String.length (a +:+ b) = (String.length a + String.length b)%nat.
Proof.
  induction a as [|c a IH]; [done |].
  change (S (String.length (a +:+ b)) = S (String.length a + String.length b)).
  by rewrite IH.
Qed.

(** the characters of a text that follows another, when it starts with a
    character of its own *)
Lemma chars_from_app (before : string) : ∀ skip s,
  starts_char s = true → (skip ≤ String.length before)%nat →
  ∃ front, Py.chars_from skip (before +:+ s) = front ++ Py.chars_from 0 s.
Proof.
  induction before as [|c b IH]; intros skip s Hs Hk.
  - simpl in Hk. assert (skip = 0%nat) as -> by lia. by exists [].
  - change (String c b +:+ s) with (String c (b +:+ s)).
    destruct skip as [|k]; cbn [Py.chars_from].
    + assert (String.length (Py.head_char c (b +:+ s)) - 1 ≤ String.length b)%nat as Hb.
      { unfold Py.head_char.
        destruct (Py.continuation (Py.width c - 1) (b +:+ s)) as [t|] eqn:E.
        - pose proof (continuation_bound _ _ _ _ Hs E). simpl. lia.
        - simpl. lia. }
      destruct (IH _ s Hs Hb) as [front ->]. by eexists (_ :: front).
    + apply IH; [done |]. simpl in Hk. lia.
Qed.

(** a text whose upper-case form is ASCII ends with a whole character:
    its characters are not changed by what follows *)
Lemma chars_from_ascii_upper (keyword : string) : ∀ skip after,
  (skip ≤ String.length keyword)%nat →
  all_chars is_ascii (Py.cat (map Py.upper_of (Py.chars_from skip keyword))) = true →
  Py.chars_from skip (keyword +:+ after)
  = Py.chars_from skip keyword ++ Py.chars_from 0 after.
Proof.
  induction keyword as [|c k IH]; intros skip after Hk Ha.
  - simpl in Hk. assert (skip = 0%nat) as -> by lia. reflexivity.
  - change (String c k +:+ after) with (String c (k +:+ after)).
    destruct skip as [|j]; cbn [Py.chars_from] in *.
    + cbn [map Py.cat] in Ha. rewrite all_chars_app in Ha.
      apply andb_prop in Ha as [Hc Ha]. unfold Py.head_char in *.
      destruct (Py.continuation (Py.width c - 1) k) as [t|] eqn:E.
      * rewrite (continuation_app _ _ _ after E).
        destruct (continuation_prefix _ _ _ E) as [r Hr].
        cbn [app]. f_equal. apply IH; [| exact Ha].
        rewrite Hr, length_app. simpl. lia.
      * exfalso. assert (Py.width c ≠ 1%nat) as Hw.
        { intros Hw. rewrite Hw in E. discriminate. }
        apply width_more in Hw. cbn [Py.upper_of all_chars] in Hc.
        apply andb_prop in Hc as [Hc _]. unfold is_ascii, Py.upper_char in Hc.
        apply Nat.ltb_ge in Hw.
        destruct (Nat.leb_spec 97 (Py.code c)), (Nat.leb_spec (Py.code c) 122);
          simpl in Hc; try lia; apply Nat.ltb_lt in Hc; lia.
    + apply IH; [| exact Ha]. simpl in Hk. lia.
Qed.

Lemma upper_app_ascii (keyword after : string) :
  all_chars is_ascii (Py.upper keyword) = true →
  Py.upper (keyword +:+ after) = Py.upper keyword +:+ Py.upper after.
Proof.
  intros Ha. unfold Py.upper, Py.chars in *.
  rewrite (chars_from_ascii_upper keyword 0 after) by (lia || exact Ha).
  by rewrite map_app, cat_app.
Qed.

(** a text whose upper-case form starts with an ASCII character starts
    with a character of its own *)
Lemma starts_char_upper (keyword after : string) (c : ascii) (rest : string) :
  Py.upper keyword = String c rest → is_ascii c = true →
  starts_char (keyword +:+ after) = true.
Proof.
  destruct keyword as [|k keyword]; [discriminate |]. intros Hu Hc.
  change (String k keyword +:+ after) with (String k (keyword +:+ after)).
  cbn [starts_char]. destruct (Py.is_continuation k) eqn:Hk; [exfalso | done].
  unfold Py.is_continuation in Hk. apply andb_prop in Hk as [Hlo Hhi].
  unfold Py.upper, Py.chars in Hu. rewrite (chars_from_byte k keyword Hhi) in Hu.
  cbn [map Py.cat Py.upper_of] in Hu.
  change (String (Py.upper_char k) (Py.cat (map Py.upper_of (Py.chars_from 0 keyword)))
          = String c rest) in Hu.
  injection Hu as <- _. unfold is_ascii, Py.upper_char in Hc.
  apply Nat.leb_le in Hlo.
  destruct (Nat.leb_spec 97 (Py.code k)), (Nat.leb_spec (Py.code k) 122);
    simpl in Hc; try lia; apply Nat.ltb_lt in Hc; lia.
Qed.

Lemma prefix_app (needle rest : string) : String.prefix needle (needle +:+ rest) = true.
Proof.
  induction needle as [|c needle IH]; [by destruct rest |].
  change (String.prefix (String c needle) (String c (needle +:+ rest)) = true).
  cbn [String.prefix]. destruct (Ascii.ascii_dec c c); [exact IH | done].
Qed.

Lemma contains_app (needle before after : string) :
  Py.contains needle (before +:+ needle +:+ after) = true.
Proof.
  induction before as [|c before IH].
  - change (Py.contains needle (needle +:+ after) = true).
    pose proof (prefix_app needle after) as P.
    destruct (needle +:+ after); cbn [Py.contains]; by rewrite P.
  - change (Py.contains needle (String c (before +:+ needle +:+ after)) = true).
    cbn [Py.contains]. rewrite IH. apply orb_true_r.
Qed.

(** a word whose upper-case form is ASCII shows in the upper-case form of
    any text that has it *)
Lemma contains_upper (before keyword after : string) (c : ascii) (rest : string) :
  Py.upper keyword = String c rest → all_chars is_ascii (String c rest) = true →
  Py.contains (String c rest) (Py.upper (before +:+ keyword +:+ after)) = true.
Proof.
  intros Hu Ha.
  assert (starts_char (keyword +:+ after) = true) as Hs.
  { apply (starts_char_upper keyword after c rest Hu).
    cbn [all_chars] in Ha. by apply andb_prop in Ha as [-> _]. }
  unfold Py.upper at 1. unfold Py.chars.
  destruct (chars_from_app before 0 (keyword +:+ after) Hs ltac:(lia)) as [front ->].
  rewrite map_app, cat_app. fold (Py.chars (keyword +:+ after)).
  fold (Py.upper (keyword +:+ after)).
  rewrite upper_app_ascii by (by rewrite Hu). rewrite Hu. apply contains_app.
Qed.

(** ** How values are written into a statement *)

Lemma repr_char_safe (quote c : ascii) :
  safe_char quote c = true → Py.repr_char quote c = String c "".
Proof.
  unfold safe_char, Py.repr_char. intros H.
  apply andb_prop in H as [H H4]. apply andb_prop in H as [H H3].
  apply andb_prop in H as [H1 H2].
  apply negb_true_iff in H1, H2. rewrite H1, H2. simpl.
  apply Nat.leb_le in H3. apply Nat.ltb_lt in H4.
  destruct (Nat.eqb_spec (Py.code c) 9); [lia |].
  destruct (Nat.eqb_spec (Py.code c) 10); [lia |].
  destruct (Nat.eqb_spec (Py.code c) 13); [lia |].
  destruct (Nat.ltb_spec (Py.code c) 32); [lia |].
  destruct (Nat.eqb_spec (Py.code c) 127); [lia |]. done.
Qed.

Lemma repr_chars_safe (quote : ascii) (s : string) :
  all_chars (safe_char quote) s = true → Py.repr_chars quote s = s.
Proof.
  induction s as [|c s IH]; [done |]. cbn [all_chars]. intros H.
  apply andb_prop in H as [Hc Hs]. unfold Py.repr_chars, Py.chars.
  rewrite chars_from_byte.
  - cbn [map Py.cat Py.repr_of]. rewrite (repr_char_safe _ _ Hc).
    fold (Py.chars s). fold (Py.repr_chars quote s). by rewrite (IH Hs).
  - unfold safe_char in Hc. apply andb_prop in Hc as [_ Hc].
    apply Nat.ltb_lt in Hc. apply Nat.ltb_lt. lia.
Qed.

Lemma contains_char_safe (quote : ascii) (s : string) :
  all_chars (safe_char quote) s = true → Py.contains (String quote "") s = false.
Proof.
  induction s as [|c s IH]; [done |]. simpl. intros H.
  apply andb_prop in H as [Hc Hs]. rewrite (IH Hs), orb_false_r.
  unfold safe_char in Hc. apply andb_prop in Hc as [Hc _].
  apply andb_prop in Hc as [Hc _]. apply andb_prop in Hc as [Hc _].
  apply negb_true_iff, bool_decide_eq_false in Hc.
  destruct (Ascii.ascii_dec quote c); [by subst | done].
Qed.

Lemma repr_str_safe (s : string) :
  all_chars (safe_char Py.squote) s = true →
  Py.repr_str s = String Py.squote (s +:+ String Py.squote "").
Proof.
  intros H. unfold Py.repr_str.
  rewrite (contains_char_safe _ _ H). simpl. by rewrite (repr_chars_safe _ _ H).
Qed.

(** X11: Printable ASCII text with no single quote and no backslash is written
    as itself between single quotes. *)
Theorem render_plain_text (s : string) :
  all_chars (safe_char Py.squote) s = true →
  render (Py.PyStr s) = String Py.squote (s +:+ String Py.squote "").
Proof. intros H. unfold render. simpl. by apply repr_str_safe. Qed.

(** X12: Printable ASCII text with a single quote, no double quote and no
    backslash is written between double quotes, the single quote left as it
    is: what [repr] does, and not a string literal of SQL. *)
Theorem render_text_with_single_quote (s : string) :
  all_chars (safe_char Py.dquote) s = true →
  Py.contains (String Py.squote "") s = true →
  render (Py.PyStr s) = String Py.dquote (s +:+ String Py.dquote "").
Proof.
  intros H Hq. unfold render. simpl. unfold Py.repr_str.
  rewrite Hq, (contains_char_safe _ _ H). simpl. by rewrite (repr_chars_safe _ _ H).
Qed.

Lemma digit_char_safe (n : nat) : safe_char Py.squote (Py.digit_char n) = true.
Proof.
  unfold Py.digit_char.
  assert (n mod 10 < 10)%nat as Hk by (apply Nat.mod_upper_bound; lia).
  set (k := (n mod 10)%nat) in *. clearbody k.
  do 10 (destruct k as [|k]; [reflexivity |]). lia.
Qed.

Lemma dec_go_safe (fuel n : nat) (acc : string) :
  all_chars (safe_char Py.squote) acc = true →
  all_chars (safe_char Py.squote) (Py.dec_go fuel n acc) = true.
Proof.
  revert n acc. induction fuel as [|fuel IH]; intros n acc Hacc; [exact Hacc |].
  cbn [Py.dec_go].
  assert (all_chars (safe_char Py.squote) (String (Py.digit_char n) acc) = true) as H.
  { cbn [all_chars]. rewrite digit_char_safe, Hacc. reflexivity. }
  destruct (n <? 10)%nat; [exact H | apply IH; exact H].
Qed.

Lemma pad_safe (w n : nat) : all_chars (safe_char Py.squote) (Py.pad w n) = true.
Proof.
  unfold Py.pad. rewrite all_chars_app. apply andb_true_intro. split.
  - induction (w - String.length (Py.dec n))%nat as [|k IH]; [reflexivity |].
    cbn [Py.zeros all_chars]. rewrite IH. reflexivity.
  - apply dec_go_safe. reflexivity.
Qed.

Lemma str_datetime_safe (d : Py.datetime) :
  all_chars (safe_char Py.squote) (Py.str_datetime d) = true.
Proof.
  unfold Py.str_datetime. rewrite !all_chars_app, !pad_safe.
  destruct (Py.microsecond d =? 0)%nat; [done |].
  by rewrite all_chars_app, pad_safe.
Qed.

(** X13: A naive [datetime] (one without [tzinfo]) is written as its ISO
    text between single quotes, for every date and time: no character of it
    is escaped. *)
Theorem render_datetime_quoted (d : Py.datetime) :
  render (Py.PyDatetime d)
  = String Py.squote (Py.str_datetime d +:+ String Py.squote "").
Proof.
  unfold render. simpl. apply repr_str_safe, str_datetime_safe.
Qed.

(** ** [get_connection_status] *)

Section StatusFacts.
Context {Ext : Type} {drv : Driver Ext} {fetch : Fetchone Ext}.
Implicit Types w : World Ext.


(** X15: On every path [get_connection_status] leaves pool, semaphore and lock
    alone and never commits. Either it runs to the end, or it raises
    having neither logged the status nor closed the cursor, which stays
    open: there is no [finally] around the queries. *)
Theorem get_connection_status_leaves_cursor_open c w :
  frame w (get_connection_status c w).2
  ∧ ∃ evs, trace (get_connection_status c w).2 = trace w ++ evs
    ∧ ((∃ msg, evs = [EvCursor c;
                      EvExecute c "SELECT sum(numbackends) FROM pg_stat_database;";
                      EvExecute c "SHOW max_connections;";
                      EvLog INFO msg; EvCursorClose c])
       ∨ ((∃ e, (get_connection_status c w).1 = Raised e)
          ∧ Forall (λ ev, ev = EvCursor c ∨ ∃ q, ev = EvExecute c q) evs)).
Proof.
  destruct (get_connection_status c w) as [out w'] eqn:E. revert E. simpl.
  unfold get_connection_status, bind, call, ask, unpack_one, config, log, emit, ret, raise.
  repeat match goal with
         | |- context [drv_cursor ?c0 ?x] =>
             destruct (drv_cursor c0 x) as [[?|[]] ?]; simpl
         | |- context [drv_execute ?c0 ?q ?x] =>
             destruct (drv_execute c0 q x) as [[?|[]] ?]; simpl
         | |- context [drv_fetchone ?c0 ?x] =>
             destruct (drv_fetchone c0 x) as [[?|[[|? [|? ?]]|]] ?]; simpl
         | |- context [drv_cursor_close ?c0 ?x] =>
             destruct (drv_cursor_close c0 x) as [[?|[]] ?]; simpl
         end.
  all: intros [= <- <-]; (split; [by repeat split |]); simpl;
    eexists; (split; [rewrite <- ?app_assoc; reflexivity |]); simpl.
  all: first [ left; by eexists
             | right; split; [by eexists |]; repeat constructor; by eauto ].
Qed.

End StatusFacts.

(** ** The guard of [sql_execute], and a bulk insert from end to end *)

Section Guard.
Context {Ext : Type} {drv : Driver Ext}.
Implicit Types w : World Ext.

(** X16: The guard of [sql_execute] looks for the two words anywhere in the
    text and in any spelling whose upper-case form is the word (any mix of
    upper and lower case, and letters such as the dotless i): a query that
    merely mentions one of them (in a column name, a literal, a comment) is
    refused like an insert, with an empty result and no database call. *)
Theorem guard_any_case_anywhere before keyword after w :
  Py.upper keyword = "INSERT" ∨ Py.upper keyword = "UPDATE" →
  ∃ w', sql_execute (before +:+ keyword +:+ after) w = (Returned (iter []), w')
        ∧ ext w' = ext w ∧ frame w w'
        ∧ ∃ msg, trace w' = trace w ++ [EvLog ERROR msg].
Proof.
  intros Hk. unfold sql_execute. rewrite guard_spelled.
  assert (Py.contains "INSERT" (Py.upper (before +:+ keyword +:+ after))
          || Py.contains "UPDATE" (Py.upper (before +:+ keyword +:+ after))
          = true) as ->.
  { destruct Hk as [Hk | Hk].
    - by rewrite (contains_upper before keyword after "I" "NSERT" Hk eq_refl).
    - rewrite (contains_upper before keyword after "U" "PDATE" Hk eq_refl).
      apply orb_true_r. }
  eexists. split; [reflexivity |]. split_and!; [done | by repeat split | by eexists].
Qed.


End Guard.

(** ** The theorems above, run on the test worlds *)

Lemma init_body_keeps_lock {Ext} {drv : Driver Ext} (w1 : World Ext) out w2 :
  init_body w1 = (out, w2) → lock w2 = lock w1.
Proof.
  unfold init_body. destruct (_pool w1); [by intros [= <- <-] |].
  unfold bind. intros E.
  destruct (init_pool w1) as [[[]|e|] w3] eqn:E3;
    apply init_pool_effect in E3 as (_ & _ & L3 & _);
    [| by injection E as <- <- ..].
  destruct (init_sem_remaining w3) as [o w4] eqn:E4.
  apply init_sem_remaining_effect in E4 as (_ & _ & L4 & _).
  assert (w2 = w4) as -> by (by destruct o; injection E as <- <-).
  congruence.
Qed.

Lemma test_threads_locked_reach :
  rtc step (start test_ini (mkTestDb true 0 []) 2) test_threads_locked.
Proof.
  apply rtc_once.
  exact (step_thread test_boot (lock_acquire test_boot).2 [Idle; Idle] 0 Idle InitLocked
           eq_refl (step_lock test_boot (lock_acquire test_boot).2 eq_refl)).
Qed.

Lemma synchronized_releases_lock_witness :
  lock test_no_host = false
  ∧ (__init__ test_no_host).1
    = Raised (DriverError "no host given")
  ∧ lock (__init__ test_no_host).2 = false.
Proof.
  assert (lock test_no_host = false) as Hl by (vm_compute; reflexivity).
  assert (synchronized init_body test_no_host
          = ((__init__ test_no_host).1, (__init__ test_no_host).2)) as E
    by (vm_compute; reflexivity).
  assert ((__init__ test_no_host).1
          = Raised (DriverError "no host given")) as Ho
    by (vm_compute; reflexivity).
  assert ((__init__ test_no_host).1 ≠ Blocked) as Hb by (rewrite Ho; discriminate).
  destruct (proj2 (synchronized_releases_lock init_body test_no_host init_body_keeps_lock)
              Hl _ _ E Hb) as [H _].
  split_and!; [exact Hl | exact Ho | exact H].
Defined.

Lemma enter_exit_round_trip_witness :
  __enter__ (mkConnection None) test_ready
  = (Returned (mkConnection (Some 0%nat), 0%nat), test_leased)
  ∧ ∃ w2, __exit__ (mkConnection (Some 0%nat)) test_leased = (Returned tt, w2)
          ∧ _pool w2 = _pool test_ready
          ∧ _sem_remaining w2 = _sem_remaining test_ready.
Proof.
  destruct (enter_exit_round_trip (mkConnection None) test_ready
              (mkConnection (Some 0%nat)) 0%nat test_leased test_leased_enter)
    as (_ & w2 & E & Hp & Hs & _).
  split; [exact test_leased_enter |]. exists w2.
  split_and!; [exact E | exact Hp | exact Hs].
Defined.

Lemma exit_refused_keeps_permit_witness :
  _pool test_ready = Some (mkPool 0 [])
  ∧ ∃ w', __exit__ (mkConnection None) test_ready
          = (Raised (PoolError "trying to put unkeyed connection"), w')
          ∧ _sem_remaining w' = _sem_remaining test_ready
          ∧ trace w' = trace test_ready ++ [EvPutconn None].
Proof.
  assert (_pool test_ready = Some (mkPool 0 [])) as Hp by (vm_compute; reflexivity).
  assert (∀ c : connection, conn (mkConnection None) = Some c → c ∉ pool_used (mkPool 0 []))
    as Hc by (intros c Hn; discriminate Hn).
  destruct (exit_refused_keeps_permit (mkConnection None) test_ready (mkPool 0 []) Hp Hc)
    as (w' & E & Hs & _ & _ & Ht).
  split; [exact Hp |]. exists w'. split_and!; [exact E | exact Hs | exact Ht].
Defined.

Lemma enter_blocks_until_release_witness :
  _sem_remaining test_full = Some (mkSemaphore 1 0)
  ∧ _pool test_full = Some (mkPool 0 [1; 0]%nat)
  ∧ lock test_full = false
  ∧ __enter__ (mkConnection None) test_full = (Blocked, test_full)
  ∧ sql_execute_commit "DELETE FROM t" test_full = (Blocked, test_full)
  ∧ ∃ w1, __exit__ (mkConnection (Some 0%nat)) test_full = (Returned tt, w1)
          ∧ permits w1 = 1%nat
          ∧ (__enter__ (mkConnection None) w1).1 ≠ Blocked.
Proof.
  assert (_sem_remaining test_full = Some (mkSemaphore 1 0)) as Hs
    by (vm_compute; reflexivity).
  assert (_pool test_full = Some (mkPool 0 [1; 0]%nat)) as Hp by (vm_compute; reflexivity).
  assert (lock test_full = false) as Hl by (vm_compute; reflexivity).
  assert (0%nat ∈ pool_used (mkPool 0 [1; 0]%nat)) as Hc by (simpl; repeat constructor).
  destruct (enter_blocks_until_release (mkConnection None) test_full (mkSemaphore 1 0)
              (mkPool 0 [1; 0]%nat) 0%nat Hs eq_refl Hp Hc)
    as (E & Hq & w1 & Ex & Hn & _ & He).
  split_and!; [exact Hs | exact Hp | exact Hl | exact E | exact (Hq Hl _) |].
  exists w1. split_and!; [exact Ex | exact Hn | exact (He _)].
Defined.

Lemma half_built_singleton_stays_witness :
  ini test_bad_maxconn !! "maxconn" = Some "-1" ∧ Py.int "-1" = Some (-1)
  ∧ pool_init (parse [] (ini test_bad_maxconn)) (ext test_bad_maxconn)
    = (inr tt, mkTestDb true 0 [])
  ∧ ∃ e w', __init__ test_bad_maxconn = (Raised (ValueError e), w')
            ∧ _pool w' = Some (mkPool 0 []) ∧ _sem_remaining w' = None
            ∧ __init__ w' = (Returned (mkConnection None), w')
            ∧ ∃ msg, sql_execute_commit "DELETE FROM t" w' = (Raised (AttributeError msg), w').
Proof.
  assert (ini test_bad_maxconn !! "maxconn" = Some "-1") as Hm
    by (vm_compute; reflexivity).
  assert (Py.int "-1" = Some (-1)) as Hi by (vm_compute; reflexivity).
  assert (pool_init (parse [] (ini test_bad_maxconn)) (ext test_bad_maxconn)
          = (inr tt, mkTestDb true 0 [])) as Hn by (vm_compute; reflexivity).
  assert (-1 < 0) as Hneg by lia.
  destruct (half_built_singleton_stays test_bad_maxconn (mkTestDb true 0 []) "-1" (-1)
              eq_refl eq_refl eq_refl Hn Hm Hi Hneg)
    as (e & msg & w' & E & Hp & Hs & _ & E2 & _ & Hq).
  split_and!; [exact Hm | exact Hi | exact Hn |].
  exists e, w'. split_and!; [exact E | exact Hp | exact Hs | exact E2 |].
  exists msg. exact (Hq _).
Defined.

Lemma call_keyword_given_twice_witness :
  ini test_boot !! "host" = Some "localhost"
  ∧ __call__ [] {["host" := "elsewhere"]} test_boot
    = (Raised (TypeError "got multiple values for keyword argument"), test_boot).
Proof.
  assert (ini test_boot !! "host" = Some "localhost") as Hi by (vm_compute; reflexivity).
  assert ("host" ∉ ["minconn"; "maxconn"]) as Hk.
  { intros H. apply elem_of_cons in H as [H | H]; [discriminate H |].
    apply elem_of_cons in H as [H | H]; [discriminate H |].
    by apply elem_of_nil in H. }
  assert (({["host" := "elsewhere"]} : params) !! "host" = Some "elsewhere") as Hkw
    by apply lookup_singleton_eq.
  split; [exact Hi |].
  exact (call_keyword_given_twice [] {["host" := "elsewhere"]} test_boot "host"
           "localhost" "elsewhere" Hk Hi Hkw).
Defined.

Lemma init_mutual_exclusion_witness :
  rtc step (start test_ini (mkTestDb true 0 []) 2) test_threads_locked
  ∧ threads test_threads_locked !! 0%nat = Some InitLocked
  ∧ lock (world test_threads_locked) = true
  ∧ ∀ p, threads test_threads_locked !! 1%nat = Some p → holds_lock p = false.
Proof.
  destruct (init_mutual_exclusion test_ini (mkTestDb true 0 []) 2 test_threads_locked
              test_threads_locked_reach) as [H1 H2].
  split_and!; [exact test_threads_locked_reach | reflexivity | |].
  - apply (proj2 H2). exists 0%nat, InitLocked. split; reflexivity.
  - intros p Hp. apply (H1 0%nat 1%nat InitLocked p); [lia | reflexivity | exact Hp | reflexivity].
Defined.

Lemma semaphore_never_without_pool_witness :
  rtc step (start test_ini (mkTestDb true 0 []) 2) test_threads
  ∧ _sem_remaining (world test_threads) = Some (mkSemaphore 1 2)
  ∧ ∃ p, _pool (world test_threads) = Some p.
Proof.
  assert (_sem_remaining (world test_threads) = Some (mkSemaphore 1 2)) as Hs
    by (vm_compute; reflexivity).
  split_and!; [exact test_threads_reach | exact Hs |].
  exact (semaphore_never_without_pool test_ini (mkTestDb true 0 []) 2 test_threads
           (mkSemaphore 1 2) test_threads_reach Hs).
Defined.

Lemma render_plain_text_witness :
  all_chars (safe_char Py.squote) "2020-05-01 alice" = true
  ∧ render (Py.PyStr "2020-05-01 alice") = "'2020-05-01 alice'".
Proof.
  assert (all_chars (safe_char Py.squote) "2020-05-01 alice" = true) as H
    by (vm_compute; reflexivity).
  split; [exact H |]. exact (render_plain_text "2020-05-01 alice" H).
Defined.

Lemma render_text_with_single_quote_witness :
  all_chars (safe_char Py.dquote) "it's" = true
  ∧ Py.contains (String Py.squote "") "it's" = true
  ∧ render (Py.PyStr "it's") = String Py.dquote ("it's" +:+ String Py.dquote "").
Proof.
  assert (all_chars (safe_char Py.dquote) "it's" = true) as H by (vm_compute; reflexivity).
  assert (Py.contains (String Py.squote "") "it's" = true) as Hq
    by (vm_compute; reflexivity).
  split_and!; [exact H | exact Hq |]. exact (render_text_with_single_quote "it's" H Hq).
Defined.


Lemma guard_any_case_anywhere_witness :
  Py.upper "Update" = "UPDATE"
  ∧ (∃ w', sql_execute ("SELECT last_" +:+ "Update" +:+ " FROM t") test_ready
           = (Returned (iter []), w')
           ∧ ext w' = ext test_ready
           ∧ ∃ msg, trace w' = trace test_ready ++ [EvLog ERROR msg])
  ∧ Py.upper "ınſert" = "INSERT"
  ∧ (∃ w', sql_execute ("SELECT * FROM " +:+ "ınſert" +:+ "_log") test_ready
           = (Returned (iter []), w')
           ∧ ext w' = ext test_ready
           ∧ ∃ msg, trace w' = trace test_ready ++ [EvLog ERROR msg]).
Proof.
  assert (Py.upper "Update" = "UPDATE") as Hu by (vm_compute; reflexivity).
  assert (Py.upper "ınſert" = "INSERT") as Hi by (vm_compute; reflexivity).
  destruct (guard_any_case_anywhere "SELECT last_" "Update" " FROM t" test_ready
              (or_intror Hu)) as (w' & E & Hx & _ & Ht).
  destruct (guard_any_case_anywhere "SELECT * FROM " "ınſert" "_log" test_ready
              (or_introl Hi)) as (w'' & E' & Hx' & _ & Ht').
  split_and!; [exact Hu | | exact Hi |].
  - exists w'. split_and!; [exact E | exact Hx | exact Ht].
  - exists w''. split_and!; [exact E' | exact Hx' | exact Ht'].
Defined.

